(** * Scrapers: a shallow embedding of the AnkerGames and RepackGames parsers

    The two programs of the repository are modelled side by side:
    - [AnkerGames] follows [AnkerGames/ankergames.py] (a sequential,
      browser-driven scraper);
    - [RepackGames] follows [RepackGames/RepackGames.py] (an asyncio crawler
      with a shared semaphore, retries and paginated categories).

    The Python library pieces both rely on ([datetime], string helpers,
    exceptions) are collected in [Py], as CPython 3.11 on Linux has them.
    A text is a [str] whose characters have code points below 256, one
    character of [string] for each.  The definitions come first, the
    properties of the programs after them. *)

From Stdlib Require Import ZArith List String Ascii Bool Arith Lia.
From Stdlib Require Import DecimalString DecimalPos DecimalZ.
Import ListNotations.
Local Open Scope string_scope.

(* ===================================================================== *)
(** * Python runtime pieces                                               *)
(* ===================================================================== *)

Module Py.

(** Exceptions the programs can meet.  All of them derive from
    [Exception], so an [except Exception] clause catches each of them;
    [KeyboardInterrupt] and task cancellation stay outside the model. *)
Inductive exn : Type :=
| ValueError
| OverflowError
| TypeError
| TimeoutError
| ClientError (msg : string)
| RuntimeError (msg : string).

(** A computation that either returns or raises. *)
Inductive result (A : Type) : Type :=
| Ok (a : A)
| Raise (e : exn).
Arguments Ok {A} a.
Arguments Raise {A} e.

Definition rbind {A B} (c : result A) (k : A -> result B) : result B :=
  match c with
  | Ok a => k a
  | Raise e => Raise e
  end.

Declare Scope py_scope.
Delimit Scope py_scope with py.
Notation "x <- c ;; k" := (rbind c (fun x => k))
  (at level 61, c at next level, right associativity) : py_scope.

(** Truthiness of [str] and of [Optional[str]]. *)
Definition str_truthy (s : string) : bool :=
  match s with EmptyString => false | _ => true end.

Definition opt_truthy (o : option string) : bool :=
  match o with None => false | Some s => str_truthy s end.

(** ** The proleptic Gregorian calendar of [datetime] *)

Local Open Scope Z_scope.

Definition MINYEAR : Z := 1.
Definition MAXYEAR : Z := 9999.

Definition _is_leap (year : Z) : bool :=
  (year mod 4 =? 0) && (negb (year mod 100 =? 0) || (year mod 400 =? 0)).

(** [_DAYS_IN_MONTH] and [_DAYS_BEFORE_MONTH], for a non-leap year. *)
Definition _DAYS_IN_MONTH (month : Z) : Z :=
  match month with
  | 1 => 31 | 2 => 28 | 3 => 31 | 4 => 30 | 5 => 31 | 6 => 30
  | 7 => 31 | 8 => 31 | 9 => 30 | 10 => 31 | 11 => 30 | 12 => 31
  | _ => 0
  end.

Definition _DAYS_BEFORE_MONTH (month : Z) : Z :=
  match month with
  | 1 => 0 | 2 => 31 | 3 => 59 | 4 => 90 | 5 => 120 | 6 => 151
  | 7 => 181 | 8 => 212 | 9 => 243 | 10 => 273 | 11 => 304 | 12 => 334
  | _ => 0
  end.

Definition _days_before_year (year : Z) : Z :=
  let y := year - 1 in
  y * 365 + y / 4 - y / 100 + y / 400.

Definition _days_in_month_cal (year month : Z) : Z :=
  if (month =? 2) && _is_leap year then 29 else _DAYS_IN_MONTH month.

Definition _days_before_month (year month : Z) : Z :=
  _DAYS_BEFORE_MONTH month + (if (2 <? month) && _is_leap year then 1 else 0).

Definition _ymd2ord (year month day : Z) : Z :=
  _days_before_year year + _days_before_month year month + day.

Definition _DI400Y : Z := 146097.
Definition _DI100Y : Z := 36524.
Definition _DI4Y : Z := 1461.
Definition _MAXORDINAL : Z := 3652059.

(** Ordinal to (year, month, day), as [datetime._ord2ymd] computes it. *)
Definition _ord2ymd (n0 : Z) : Z * Z * Z :=
  let n := n0 - 1 in
  let n400 := n / _DI400Y in
  let n := n mod _DI400Y in
  let n100 := n / _DI100Y in
  let n := n mod _DI100Y in
  let n4 := n / _DI4Y in
  let n := n mod _DI4Y in
  let n1 := n / 365 in
  let n := n mod 365 in
  let year := n400 * 400 + 1 + n100 * 100 + n4 * 4 + n1 in
  if (n1 =? 4) || (n100 =? 4) then (year - 1, 12, 31)
  else
    let leapyear := (n1 =? 3) && (negb (n4 =? 24) || (n100 =? 3)) in
    let month := Z.shiftr (n + 50) 5 in
    let preceding :=
      _DAYS_BEFORE_MONTH month + (if (2 <? month) && leapyear then 1 else 0) in
    if n <? preceding then
      let month' := month - 1 in
      let preceding' :=
        preceding - (_DAYS_IN_MONTH month'
                     + (if (month' =? 2) && leapyear then 1 else 0)) in
      (year, month', n - preceding' + 1)
    else (year, month, n - preceding + 1).

(** [timezone.utc], the one time zone the programs construct, and
    [timezone(timedelta(minutes=m))] for another offset of whole minutes
    ([-1440 < m < 1440], [m <> 0]). *)
Inductive tz : Type :=
| utc
| fixed_offset (minutes : Z).

Record datetime : Type := mk_datetime {
  year : Z;
  month : Z;
  day : Z;
  hour : Z;
  minute : Z;
  second : Z;
  microsecond : Z;
  tzinfo : option tz
}.

(** The range checks of the [datetime] constructor and of [replace]. *)
Definition check_date_fields (y m d : Z) : bool :=
  (MINYEAR <=? y) && (y <=? MAXYEAR) &&
  (1 <=? m) && (m <=? 12) &&
  (1 <=? d) && (d <=? _days_in_month_cal y m).

Definition check_time_fields (hh mm ss us : Z) : bool :=
  (0 <=? hh) && (hh <=? 23) && (0 <=? mm) && (mm <=? 59) &&
  (0 <=? ss) && (ss <=? 59) && (0 <=? us) && (us <=? 999999).

Definition valid_datetime (dt : datetime) : bool :=
  check_date_fields (year dt) (month dt) (day dt) &&
  check_time_fields (hour dt) (minute dt) (second dt) (microsecond dt).

(** The constructor of [datetime] and [replace] take their integer
    arguments as C [int]s: converting a number outside that range raises
    [OverflowError], before any field is checked. *)
Definition INT_MIN : Z := -2147483648.
Definition INT_MAX : Z := 2147483647.

Definition fits_int (n : Z) : bool := (INT_MIN <=? n) && (n <=? INT_MAX).

(** [datetime(year, month, day, tzinfo=tz)]: midnight of that day;
    [OverflowError] when an argument is no C [int], [ValueError] when a
    field is out of range. *)
Definition datetime_new (y m d : Z) (t : option tz) : result datetime :=
  if negb (fits_int y && fits_int m && fits_int d) then Raise OverflowError
  else if check_date_fields y m d
  then Ok (mk_datetime y m d 0 0 0 0 t)
  else Raise ValueError.

(** [dt.replace(year=y, month=m, day=d)]. *)
Definition replace_ymd (dt : datetime) (y m d : Z) : result datetime :=
  if negb (fits_int y && fits_int m && fits_int d) then Raise OverflowError
  else if check_date_fields y m d
  then Ok (mk_datetime y m d (hour dt) (minute dt) (second dt)
                       (microsecond dt) (tzinfo dt))
  else Raise ValueError.

(** [dt.replace(year=y)]. *)
Definition replace_year (dt : datetime) (y : Z) : result datetime :=
  replace_ymd dt y (month dt) (day dt).

(** [dt.replace(tzinfo=t)]. *)
Definition replace_tzinfo (dt : datetime) (t : option tz) : datetime :=
  mk_datetime (year dt) (month dt) (day dt) (hour dt) (minute dt)
              (second dt) (microsecond dt) t.

Definition toordinal (dt : datetime) : Z :=
  _ymd2ord (year dt) (month dt) (day dt).

(** [timedelta], normalised as Python keeps it. *)
Record timedelta : Type := mk_timedelta {
  days : Z;
  seconds : Z;
  microseconds : Z
}.

Definition us_per_second : Z := 1000000.
Definition us_per_day : Z := 86400 * us_per_second.

Definition timedelta_of_us (us : Z) : timedelta :=
  mk_timedelta (us / us_per_day)
               ((us mod us_per_day) / us_per_second)
               (us mod us_per_second).

Definition timedelta_us (td : timedelta) : Z :=
  days td * us_per_day + seconds td * us_per_second + microseconds td.

(** [timedelta(days=, weeks=, hours=, minutes=, seconds=)]. *)
Definition timedelta_new (weeks_ days_ hours_ minutes_ seconds_ : Z)
  : timedelta :=
  timedelta_of_us
    ((((((weeks_ * 7 + days_) * 24 + hours_) * 60 + minutes_) * 60) + seconds_)
     * us_per_second).

Definition datetime_us (dt : datetime) : Z :=
  toordinal dt * us_per_day
  + ((hour dt * 60 + minute dt) * 60 + second dt) * us_per_second
  + microsecond dt.

(** [a - b] on two datetimes of the same awareness. *)
Definition datetime_diff (a b : datetime) : timedelta :=
  timedelta_of_us (datetime_us a - datetime_us b).

(** [dt - td]: [OverflowError] when the date leaves the calendar. *)
Definition datetime_sub (dt : datetime) (td : timedelta) : result datetime :=
  let us := datetime_us dt - timedelta_us td in
  let ord := us / us_per_day in
  let rest := us mod us_per_day in
  if (0 <? ord) && (ord <=? _MAXORDINAL) then
    let '(y, m, d) := _ord2ymd ord in
    let secs := rest / us_per_second in
    Ok (mk_datetime y m d (secs / 3600) ((secs / 60) mod 60) (secs mod 60)
                    (rest mod us_per_second) (tzinfo dt))
  else Raise OverflowError.

(** [dt.astimezone(timezone.utc)] on an aware datetime: a datetime that
    is in [timezone.utc] already is returned as it is; from another zone
    the offset is subtracted, which raises [OverflowError] when the
    result leaves the calendar. *)
Definition astimezone_utc (dt : datetime) (zone : tz) : result datetime :=
  match zone with
  | utc => Ok dt
  | fixed_offset m =>
      rbind (datetime_sub dt (timedelta_new 0 0 0 m 0))
            (fun r => Ok (replace_tzinfo r (Some utc)))
  end.

(** ** Text of numbers and of datetimes *)

Definition digit_char (d : Z) : ascii :=
  ascii_of_nat (48 + Z.to_nat d).

(** Zero-padded decimal fields of fixed width, as [%02d], [%04d] and
    [%06d] print a number that fits the width. *)
Definition pad2 (n : Z) (k : string) : string :=
  String (digit_char (n / 10)) (String (digit_char (n mod 10)) k).

Definition pad4 (n : Z) (k : string) : string :=
  pad2 (n / 100) (pad2 (n mod 100) k).

Definition pad6 (n : Z) (k : string) : string :=
  pad2 (n / 10000) (pad4 (n mod 10000) k).

(** [-MM-DDTHH:MM:SS] followed by [k]. *)
Definition md_hms (dt : datetime) (k : string) : string :=
  (String "-" (pad2 (month dt) (String "-" (pad2 (day dt)
    (String "T" (pad2 (hour dt) (String ":" (pad2 (minute dt)
      (String ":" (pad2 (second dt) k))))))))))%char.

(** The common prefix [YYYY-MM-DDTHH:MM:SS] followed by [k]. *)
Definition ymd_hms (dt : datetime) (k : string) : string :=
  pad4 (year dt) (String "-" (pad2 (month dt) (String "-" (pad2 (day dt)
    (String "T" (pad2 (hour dt) (String ":" (pad2 (minute dt)
      (String ":" (pad2 (second dt) k))))))))))%char.

Definition is_digit (c : ascii) : bool :=
  let n := nat_of_ascii c in (48 <=? n)%nat && (n <=? 57)%nat.

(** [str(n)] for an integer. *)
Definition str_of_int (n : Z) : string :=
  NilZero.string_of_int (Z.to_int n).

(** [dt.strftime("%Y-%m-%dT%H:%M:%S.000Z")].  The C library prints
    [%Y]; glibc prints the year as a plain number, without leading zeros
    (year 999 gives [999-...]), while [%m], [%d], [%H], [%M] and [%S] have
    two digits. *)
Definition strftime_iso_ms_z (dt : datetime) : string :=
  str_of_int (year dt) ++ md_hms dt ".000Z".

(** The offset of a time zone as [isoformat] prints it. *)
Definition format_offset (zone : tz) : string :=
  match zone with
  | utc => "+00:00"
  | fixed_offset m =>
      String (if m <? 0 then "-"%char else "+"%char)
        (pad2 (Z.abs m / 60) (String ":"%char (pad2 (Z.abs m mod 60) "")))
  end.

(** [dt.isoformat()]: the year has four digits, the microseconds are
    printed only when they are not zero, and an aware datetime carries
    its offset. *)
Definition isoformat (dt : datetime) : string :=
  ymd_hms dt
    ((if microsecond dt =? 0 then ""
      else String "."%char (pad6 (microsecond dt) ""))
     ++ match tzinfo dt with None => "" | Some zone => format_offset zone end).

(** The white space [int] skips at both ends of its argument. *)
Definition is_int_space (c : ascii) : bool :=
  let n := nat_of_ascii c in
  ((9 <=? n)%nat && (n <=? 13)%nat) || (n =? 32)%nat
  || (n =? 133)%nat || (n =? 160)%nat.

Fixpoint skip_int_space (s : string) : string :=
  match s with
  | String c rest => if is_int_space c then skip_int_space rest else s
  | EmptyString => EmptyString
  end.

Fixpoint all_int_space (s : string) : bool :=
  match s with
  | EmptyString => true
  | String c rest => is_int_space c && all_int_space rest
  end.

(** The digits of a decimal literal after its first digit: a digit, or
    an underscore followed by a digit, and white space only after the
    last digit.  Returns the value and the number of digits. *)
Fixpoint int_of_digits (acc count : Z) (s : string) : option (Z * Z) :=
  match s with
  | EmptyString => Some (acc, count)
  | String c rest =>
      if is_digit c
      then int_of_digits (acc * 10 + (Z.of_nat (nat_of_ascii c) - 48))
                         (count + 1) rest
      else if Ascii.eqb c "_" then
        match rest with
        | String c' rest' =>
            if is_digit c'
            then int_of_digits (acc * 10 + (Z.of_nat (nat_of_ascii c') - 48))
                               (count + 1) rest'
            else None
        | EmptyString => None
        end
      else if all_int_space s then Some (acc, count)
      else None
  end.

(** [sys.get_int_max_str_digits()], as the interpreter starts. *)
Definition int_max_str_digits : Z := 4300.

(** [int(s)]: white space at both ends is skipped, a sign may come
    first, underscores may separate digits; [ValueError] for any other
    text and for more than 4300 digits. *)
Definition int_of_str (s : string) : result Z :=
  let s := skip_int_space s in
  let '(negative, s) :=
    match s with
    | String "+"%char rest => (false, rest)
    | String "-"%char rest => (true, rest)
    | _ => (false, s)
    end in
  match s with
  | String c rest =>
      if is_digit c
      then match int_of_digits (Z.of_nat (nat_of_ascii c) - 48) 1 rest with
           | Some (n, count) =>
               if count <=? int_max_str_digits
               then Ok (if negative then - n else n)
               else Raise ValueError
           | None => Raise ValueError
           end
      else Raise ValueError
  | EmptyString => Raise ValueError
  end.

(** [s.lower()]: the letters A to Z and the capital letters from U+00C0
    to U+00DE (the sign U+00D7 is no letter). *)
Definition lower_char (c : ascii) : ascii :=
  let n := nat_of_ascii c in
  if ((65 <=? n)%nat && (n <=? 90)%nat)
     || ((192 <=? n)%nat && (n <=? 222)%nat && negb (n =? 215)%nat)
  then ascii_of_nat (n + 32) else c.

Fixpoint lower (s : string) : string :=
  match s with
  | EmptyString => EmptyString
  | String c rest => String (lower_char c) (lower rest)
  end.

(** [range(lo, hi)]. *)
Definition range (lo hi : Z) : list Z :=
  map (fun i => lo + Z.of_nat i) (seq 0 (Z.to_nat (hi - lo))).

(** [sub in s]. *)
Fixpoint str_contains (sub s : string) : bool :=
  match s with
  | EmptyString => match sub with EmptyString => true | _ => false end
  | String _ rest => String.prefix sub s || str_contains sub rest
  end.

(** [c.isspace()], which is also what [\s] matches and [strip] removes:
    tab to carriage return, the four separators U+001C to U+001F, the
    space, U+0085 and the no-break space U+00A0. *)
Definition is_space (c : ascii) : bool :=
  let n := nat_of_ascii c in
  ((9 <=? n)%nat && (n <=? 13)%nat) || (n =? 32)%nat
  || ((28 <=? n)%nat && (n <=? 31)%nat)
  || (n =? 133)%nat || (n =? 160)%nat.

Fixpoint lstrip (s : string) : string :=
  match s with
  | String c rest => if is_space c then lstrip rest else s
  | EmptyString => EmptyString
  end.

Fixpoint rstrip (s : string) : string :=
  match s with
  | EmptyString => EmptyString
  | String c rest =>
      match rstrip rest with
      | EmptyString => if is_space c then EmptyString else String c EmptyString
      | r => String c r
      end
  end.

(** [s.strip()]. *)
Definition strip (s : string) : string := rstrip (lstrip s).

Fixpoint str_filter (keep : ascii -> bool) (s : string) : string :=
  match s with
  | EmptyString => EmptyString
  | String c rest =>
      if keep c then String c (str_filter keep rest) else str_filter keep rest
  end.

(** ** [datetime.strptime] for numeric date formats

    The formats the programs pass are made of [%d], [%m], [%Y], [%y] and
    literal separators.  Each directive stands for the pattern the
    library compiles it to, tried in the library's order, and the whole
    text has to be consumed. *)

Inductive directive : Type :=
| Dir_d | Dir_m | Dir_Y | Dir_y
| Dir_lit (c : ascii).

Fixpoint directives (fmt : string) : list directive :=
  match fmt with
  | EmptyString => []
  | String "%"%char (String c rest) =>
      (if Ascii.eqb c "d" then Dir_d
       else if Ascii.eqb c "m" then Dir_m
       else if Ascii.eqb c "Y" then Dir_Y
       else if Ascii.eqb c "y" then Dir_y
       else Dir_lit c) :: directives rest
  | String c rest => Dir_lit c :: directives rest
  end.

Definition digit_val (c : ascii) : option Z :=
  if is_digit c then Some (Z.of_nat (nat_of_ascii c) - 48) else None.

Definition orelse {A} (a b : option A) : option A :=
  match a with Some _ => a | None => b end.

(** A field of one or two digits with a value in [[lo, hi]]: the
    two-digit reading is tried first, then the one-digit reading (which
    the library restricts to [1]..[9]). *)
Definition one_or_two_digits (hi : Z) (s : string)
    (k : Z -> string -> option (Z * Z * Z)) : option (Z * Z * Z) :=
  orelse
    (match s with
     | String c1 (String c2 rest) =>
         match digit_val c1, digit_val c2 with
         | Some a, Some b =>
             let v := a * 10 + b in
             if (1 <=? v) && (v <=? hi) then k v rest else None
         | _, _ => None
         end
     | _ => None
     end)
    (match s with
     | String c1 rest =>
         match digit_val c1 with
         | Some a => if 1 <=? a then k a rest else None
         | None => None
         end
     | _ => None
     end).

Fixpoint digits_exactly (n : nat) (acc : Z) (s : string) : option (Z * string) :=
  match n with
  | O => Some (acc, s)
  | S n' =>
      match s with
      | String c rest =>
          match digit_val c with
          | Some a => digits_exactly n' (acc * 10 + a) rest
          | None => None
          end
      | EmptyString => None
      end
  end.

(** Returns (year, month, day) when the text matches the format. *)
Fixpoint strp_match (ds : list directive) (s : string) (y m d : Z)
  : option (Z * Z * Z) :=
  match ds with
  | [] => match s with EmptyString => Some (y, m, d) | _ => None end
  | Dir_lit c :: ds' =>
      match s with
      | String c' rest => if Ascii.eqb c c' then strp_match ds' rest y m d else None
      | EmptyString => None
      end
  | Dir_d :: ds' =>
      one_or_two_digits 31 s (fun v rest => strp_match ds' rest y m v)
  | Dir_m :: ds' =>
      one_or_two_digits 12 s (fun v rest => strp_match ds' rest y v d)
  | Dir_Y :: ds' =>
      match digits_exactly 4 0 s with
      | Some (v, rest) => strp_match ds' rest v m d
      | None => None
      end
  | Dir_y :: ds' =>
      match digits_exactly 2 0 s with
      | Some (v, rest) =>
          strp_match ds' rest (if v <=? 68 then v + 2000 else v + 1900) m d
      | None => None
      end
  end.

(** [datetime.strptime(text, fmt)]: a naive datetime at midnight. *)
Definition strptime (text fmt : string) : result datetime :=
  match strp_match (directives fmt) text 1900 1 1 with
  | Some (y, m, d) => datetime_new y m d None
  | None => Raise ValueError
  end.

End Py.

(* ===================================================================== *)
(** * AnkerGames/ankergames.py                                            *)
(* ===================================================================== *)

Module AnkerGames.
Import Py.
Local Open Scope Z_scope.
Local Open Scope py_scope.

Definition BASE_URL : string := "https://ankergames.net".
Definition GAMES_LIST_URL : string := BASE_URL ++ "/games-list".

Record DownloadItem : Type := mk_DownloadItem {
  title : string;
  uris : list string;
  uploadDate : string;
  fileSize : string;
  repackLinkSource : string
}.

Definition to_iso_utc (dt : datetime) : result string :=
  dt <- match tzinfo dt with
        | None => Ok (replace_tzinfo dt (Some utc))
        | Some zone => astimezone_utc dt zone
        end ;;
  Ok (strftime_iso_ms_z dt).

Definition _days_in_month (year month : Z) : result Z :=
  next_month <-
    (if month =? 12
     then datetime_new (year + 1) 1 1 (Some utc)
     else datetime_new year (month + 1) 1 (Some utc)) ;;
  this_month <- datetime_new year month 1 (Some utc) ;;
  Ok (days (datetime_diff next_month this_month)).

Definition subtract_months (dt : datetime) (months : Z) : result datetime :=
  let year := Py.year dt in
  let month := Py.month dt in
  let day := Py.day dt in
  let month_index := (year * 12 + (month - 1)) - months in
  let new_year := month_index / 12 in
  let new_month := month_index mod 12 + 1 in
  max_day <- _days_in_month new_year new_month ;;
  let new_day := Z.min day max_day in
  replace_ymd dt new_year new_month new_day.

(** What the browser shows of one game page.  The locator-driven helpers
    ([extract_title], [extract_file_size]) are taken by their outcome; the
    two regular expressions of [extract_last_updated_iso] by the digits
    they capture in the lower-cased page source. *)
Record Page : Type := mk_Page {
  goto : result unit;
  extract_title : result string;
  last_updated_months : option string;
  published_months : option string;
  extract_file_size : option string;
  download_now_href : option string;
  utc_now : datetime
}.

Definition extract_last_updated_iso (page : Page) : result (option string) :=
  match last_updated_months page with
  | Some g1 =>
      months <- int_of_str g1 ;;
      dt <- subtract_months (utc_now page) months ;;
      iso <- to_iso_utc dt ;;
      Ok (Some iso)
  | None =>
      match published_months page with
      | Some g1 =>
          months <- int_of_str g1 ;;
          dt <- subtract_months (utc_now page) months ;;
          iso <- to_iso_utc dt ;;
          Ok (Some iso)
      | None => Ok None
      end
  end.

(** The last step of [extract_download_link]: the [href] of the final
    anchor with its white space removed, when there is one. *)
Definition extract_download_link (page : Page) : option string :=
  match download_now_href page with
  | Some href =>
      if str_truthy href
      then Some (str_filter (fun c => negb (is_space c)) href)
      else None
  | None => None
  end.

Definition scrape_game (page : Page) (game_url : string)
  : result DownloadItem :=
  _ <- goto page ;;
  title <- extract_title page ;;
  upload_iso <- extract_last_updated_iso page ;;
  let file_size := extract_file_size page in
  let download_uri := extract_download_link page in
  let title := if str_truthy title then title else "" in
  let upload_iso := if opt_truthy upload_iso
                    then match upload_iso with Some s => s | None => "" end
                    else "" in
  let file_size := if opt_truthy file_size
                   then match file_size with Some s => s | None => "" end
                   else "" in
  let uris := match download_uri with
              | Some u => if str_truthy u then [u] else []
              | None => []
              end in
  Ok (mk_DownloadItem title uris upload_iso file_size game_url).

(** [links[:limit]]. *)
Definition slice_to (limit : Z) (links : list string) : list string :=
  if 0 <=? limit then firstn (Z.to_nat limit) links
  else firstn (List.length links - Z.to_nat (- limit))%nat links.

(** The site as the browser context serves it. *)
Record Site : Type := mk_Site {
  get_game_links : result (list string);
  new_page : string -> Page
}.

(** The loop of [main]: an item is kept whenever [scrape_game] returned
    one (a dataclass instance is always truthy), and a page that raised is
    reported and skipped. *)
Fixpoint scrape_all (site : Site) (links : list string) : list DownloadItem :=
  match links with
  | [] => []
  | url :: rest =>
      match scrape_game (new_page site url) url with
      | Ok item => item :: scrape_all site rest
      | Raise _ => scrape_all site rest
      end
  end.

(** [main(limit, output_path)]: the [downloads] written to the file. *)
Definition main (site : Site) (limit : option Z) : result (list DownloadItem) :=
  links <- get_game_links site ;;
  let links := match limit with
               | Some l => slice_to l links
               | None => links
               end in
  Ok (scrape_all site links).

(** The loop of [get_game_links] over the [href] attributes of the
    anchors the grid shows, in page order: an anchor without [href] is
    passed over, a site-relative address is completed with [BASE_URL], and
    an address is kept when it lies under [BASE_URL/game/] and was not
    kept before. *)
Fixpoint get_game_links_loop (hrefs : list (option string))
    (links : list string) : list string :=
  match hrefs with
  | [] => links
  | href :: rest =>
      if negb (opt_truthy href) then get_game_links_loop rest links
      else
        match href with
        | None => get_game_links_loop rest links
        | Some href =>
            let href := if String.prefix "/" href then BASE_URL ++ href
                        else href in
            if String.prefix (BASE_URL ++ "/game/") href
               && negb (existsb (String.eqb href) links)
            then get_game_links_loop rest (links ++ [href])
            else get_game_links_loop rest links
        end
  end.

End AnkerGames.

(* ===================================================================== *)
(** * RepackGames/RepackGames.py                                          *)
(* ===================================================================== *)

Module RepackGames.
Import Py.
Local Open Scope Z_scope.

(** The dictionary [parse_game_info] returns; [uploadDate] holds whatever
    [parse_date_info] returned, [None] included. *)
Record game : Type := mk_game {
  title : string;
  uris : list string;
  fileSize : string;
  uploadDate : option string;
  repackLinkSource : string
}.

(** ** What BeautifulSoup finds in a page *)

(** An [a] tag of class [gp-download-buttons] or [enjoy-css]:
    [context_text] is the upper-cased text of its parent and of up to four
    preceding siblings, joined with spaces. *)
Record Button : Type := mk_Button {
  context_text : string;
  href : option string
}.

(** The [div.wrap-content] block: the text of its [div.article-btn]; for
    each [article.article] of [div.articles-content] the [href] under its
    [h2.article-title]; for each [li] of [ul.modern-articles] its first
    [href]; for each [article] all of its [href]s. *)
Record WrapContent : Type := mk_WrapContent {
  article_btn : option string;
  articles_content : option (list (option string));
  modern_articles : option (list (option string));
  all_articles : list (list string)
}.

Record Soup : Type := mk_Soup {
  wrap_content : option WrapContent;
  article_title : option string;      (* h1.article-title.entry-title *)
  game_info : option string;          (* div.game-info *)
  time_article : option string;       (* div.time-article.updated *)
  download_buttons : list Button;     (* buttons_gp + buttons_enjoy *)
  pagenavi_pages : option string      (* div.wp-pagenavi span.pages *)
}.

(** ** Effects: the event log and the state of the parser object *)

Inductive event : Type :=
| EAcquire                                   (* semaphore slot taken *)
| ERelease                                   (* semaphore slot given back *)
| ESleep (ms : Z)                            (* asyncio.sleep *)
| EGet (url : string) (timeout_ms : Z)       (* session.get *)
| EProgress (description : string)           (* progress.add_task / update *)
| EGameError (game_url : string) (e : exn)   (* print in parse_game_info *)
| ECategoryError (category_name : string) (e : exn)  (* console.print *)
| ESummary (total : Z)                       (* the closing console.print *)
| ESave (filename : string) (downloads : list game).

Record state : Type := mk_state {
  log : list event;
  games_data : list game;
  total_games_parsed : Z
}.

Definition M (A : Type) : Type := state -> result A * state.

Definition ret {A} (a : A) : M A := fun s => (Ok a, s).

Definition bind {A B} (c : M A) (k : A -> M B) : M B :=
  fun s =>
    match c s with
    | (Ok a, s') => k a s'
    | (Raise e, s') => (Raise e, s')
    end.

Definition lift {A} (r : result A) : M A := fun s => (r, s).

(** [try: c  except Exception as e: h e]. *)
Definition try_except {A} (c : M A) (h : exn -> M A) : M A :=
  fun s =>
    match c s with
    | (Ok a, s') => (Ok a, s')
    | (Raise e, s') => h e s'
    end.

(** [try: c  finally: f], for an [f] that does not raise. *)
Definition finally {A} (c : M A) (f : M unit) : M A :=
  fun s =>
    match c s with
    | (r, s') => (r, snd (f s'))
    end.

Definition emit (e : event) : M unit :=
  fun s => (Ok tt, mk_state (log s ++ [e]) (games_data s) (total_games_parsed s)).

Declare Scope repack_scope.
Delimit Scope repack_scope with repack.
Notation "x <- c ;; k" := (bind c (fun x => k))
  (at level 61, c at next level, right associativity) : repack_scope.
Notation "c ;; k" := (bind c (fun _ => k))
  (at level 61, right associativity) : repack_scope.
Local Open Scope repack_scope.

(** [asyncio.gather] with [return_exceptions=True]: every task runs, in
    the order of the list, and an exception becomes that task's result. *)
Fixpoint gather {A} (tasks : list (M A)) : M (list (result A)) :=
  match tasks with
  | [] => ret []
  | t :: ts =>
      fun s =>
        match t s with
        | (r, s') =>
            match gather ts s' with
            | (Ok rs, s'') => (Ok (r :: rs), s'')
            | (Raise e, s'') => (Raise e, s'')
            end
        end
  end.

(** The collaborators of a run: the HTML parser, the regular-expression
    engine ([re.search] with or without [re.IGNORECASE], returning groups 1
    and 2 of the first match), the HTTP session (whose answer may depend on
    everything that happened before) and the clock. *)
Class World : Type := mk_World {
  BeautifulSoup : string -> result Soup;
  re_search : string -> bool -> string -> option (string * string);
  session_get : list event -> string -> result string;
  datetime_now : list event -> datetime
}.

Record RepackGamesParser : Type := mk_parser {
  base_url : string;
  max_concurrent : Z;
  categories : list (string * string)
}.

(** [RepackGamesParser.__init__]: [max_concurrent] defaults to 160. *)
Definition new_parser (max_concurrent : option Z) : RepackGamesParser :=
  mk_parser "https://repack-games.com"
    (match max_concurrent with Some n => n | None => 160 end)
    [ ("Action", "https://repack-games.com/category/action-games/");
      ("Anime", "https://repack-games.com/category/anime-games/");
      ("Adventure", "https://repack-games.com/category/adventure-games/");
      ("Building", "https://repack-games.com/category/building-games/");
      ("3D COMICS", "https://repack-games.com/category/3d-comics/");
      ("EXPLORATION", "https://repack-games.com/category/exploration/");
      ("EMULATOR GAMES", "https://repack-games.com/category/emulator-games/");
      ("MULTIPLAYER", "https://repack-games.com/category/multiplayer-games/");
      ("OPEN WORLD", "https://repack-games.com/category/open-world-game/");
      ("VR-GAMES", "https://repack-games.com/category/vr-games/");
      ("FIGHTING", "https://repack-games.com/category/fighting-games/");
      ("NUDITY", "https://repack-games.com/category/nudity/");
      ("HORROR", "https://repack-games.com/category/horror-games/");
      ("RACING", "https://repack-games.com/category/racing-game/");
      ("SHOOTER", "https://repack-games.com/category/shooting-games/");
      ("RPG", "https://repack-games.com/category/rpg-pc-games/");
      ("PUZZLE", "https://repack-games.com/category/puzzle/");
      ("SPORT", "https://repack-games.com/category/sport-game/");
      ("SURVIVAL", "https://repack-games.com/category/survival-games/");
      ("SIMULATION", "https://repack-games.com/category/simulation-game/");
      ("STRATEGY", "https://repack-games.com/category/strategy-games/");
      ("SCI-FI", "https://repack-games.com/category/sci-fi-games/") ].

Section Parser.
Context {W : World}.

(** ** get_page_content *)

Definition http_get (url : string) : M string :=
  fun s =>
    (session_get (log s) url,
     mk_state (log s ++ [EGet url 12000]) (games_data s) (total_games_parsed s)).

(** The [for attempt in range(3)] loop.  Leaving the loop without a
    [return] makes the function return [None]. *)
Fixpoint attempts (url : string) (todo : list Z) : M (option string) :=
  match todo with
  | [] => ret None
  | attempt :: rest =>
      try_except
        (emit (ESleep 10) ;;
         text <- http_get url ;;
         ret (Some text))
        (fun _ =>
           if attempt <? 2
           then emit (ESleep 150) ;; attempts url rest
           else ret None)
  end.

Definition get_page_content (url : string) : M (option string) :=
  emit EAcquire ;;
  finally (attempts url (range 0 3)) (emit ERelease).

(** ** is_404_page *)

Definition is_404_page (html_content : option string) : result bool :=
  if negb (opt_truthy html_content) then Ok true
  else
    match html_content with
    | None => Ok true
    | Some html =>
        rbind (BeautifulSoup html) (fun soup =>
          match wrap_content soup with
          | Some wc =>
              match article_btn wc with
              | Some text => if str_contains "Error 404" text then Ok true else Ok false
              | None => Ok false
              end
          | None => Ok false
          end)
    end.

(** ** parse_file_size *)

Definition size_patterns : list string :=
  [ "Game size:\s*([0-9.]+\s*[KMGT]B\+?)";
    "Size:\s*([0-9.]+\s*[KMGT]B\+?)";
    "([0-9.]+\s*[KMGT]B\+?)" ].

(** The characters [re.sub(r'[^0-9.KMGTB+ ]', '', size)] keeps. *)
Definition size_char (c : ascii) : bool :=
  is_digit c ||
  existsb (Ascii.eqb c) [".";"K";"M";"G";"T";"B";"+";" "]%char.

Fixpoint parse_file_size_loop (info_text : string) (patterns : list string)
  : string :=
  match patterns with
  | [] => "Unknown"
  | pattern :: rest =>
      match re_search pattern true info_text with
      | Some (g1, _) =>
          let size := strip g1 in
          let size := strip (str_filter size_char size) in
          if str_truthy size then size
          else parse_file_size_loop info_text rest
      | None => parse_file_size_loop info_text rest
      end
  end.

Definition parse_file_size (game_info : option string) : string :=
  match game_info with
  | None => "Unknown"
  | Some info_text => parse_file_size_loop info_text size_patterns
  end.

(** ** parse_date_info *)

Definition date_patterns : list string :=
  [ "(?:UPDATED|PUBLISHED)\s+O[nm]\s*-\s*(\d{1,2}[-/]\d{1,2}[-/]\d{4})";
    "(?:UPDATED|PUBLISHED)\s*:\s*(\d{1,2}[-/]\d{1,2}[-/]\d{4})";
    "(?:UPDATED|PUBLISHED)\s+(\d{1,2}[-/]\d{1,2}[-/]\d{4})";
    "(\d{1,2}[-/]\d{1,2}[-/]\d{4})" ].

Definition date_formats : list string :=
  [ "%d-%m-%Y"; "%d/%m/%Y"; "%m/%d/%Y"; "%d-%m-%y"; "%d/%m/%y" ].

(** The century adjustment applied to a parsed date. *)
Definition adjust_year (parsed_date : datetime) : result datetime :=
  if year parsed_date <? 30
  then replace_year parsed_date (year parsed_date + 2000)
  else if year parsed_date <? 100
  then (if year parsed_date <? 50
        then replace_year parsed_date (year parsed_date + 2000)
        else replace_year parsed_date (year parsed_date + 1900))
  else Ok parsed_date.

(** The loop over the date formats: a [ValueError] moves on to the next
    format, the first format that parses ends the loop. *)
Fixpoint try_date_formats (date_str : string) (formats : list string)
  : result (option string) :=
  match formats with
  | [] => Ok None
  | date_format :: rest =>
      match rbind (strptime date_str date_format) adjust_year with
      | Ok parsed_date => Ok (Some (isoformat parsed_date ++ ".000Z"))
      | Raise ValueError => try_date_formats date_str rest
      | Raise e => Raise e
      end
  end.

Fixpoint search_date_patterns (info_text : string) (patterns : list string)
  : result (option string) :=
  match patterns with
  | [] => Ok None
  | pattern :: rest =>
      match re_search pattern true info_text with
      | Some (date_str, _) =>
          rbind (try_date_formats date_str date_formats) (fun upload_date =>
            if opt_truthy upload_date then Ok upload_date
            else search_date_patterns info_text rest)
      | None => search_date_patterns info_text rest
      end
  end.

Definition relative_patterns : list string :=
  [ "(\d+)\s+(year|years)\s+ago";
    "(\d+)\s+(month|months)\s+ago";
    "(\d+)\s+(week|weeks)\s+ago";
    "(\d+)\s+(day|days)\s+ago";
    "(\d+)\s+(hour|hours)\s+ago";
    "(\d+)\s+(minute|minutes)\s+ago";
    "(\d+)\s+(second|seconds)\s+ago" ].

(** The [timedelta] chosen from the unit; [None] stands for the
    [continue] of the last branch. *)
Definition relative_delta (unit_ : string) (value : Z) : option timedelta :=
  if str_contains "year" unit_ then Some (timedelta_new 0 (value * 365) 0 0 0)
  else if str_contains "month" unit_ then Some (timedelta_new 0 (value * 30) 0 0 0)
  else if str_contains "week" unit_ then Some (timedelta_new value 0 0 0 0)
  else if str_contains "day" unit_ then Some (timedelta_new 0 value 0 0 0)
  else if str_contains "hour" unit_ then Some (timedelta_new 0 0 value 0 0)
  else if str_contains "minute" unit_ then Some (timedelta_new 0 0 0 value 0)
  else if str_contains "second" unit_ then Some (timedelta_new 0 0 0 0 value)
  else None.

Fixpoint search_relative_patterns (time_text : string) (now : datetime)
    (upload_date : option string) (patterns : list string)
  : result (option string) :=
  match patterns with
  | [] => Ok upload_date
  | pattern :: rest =>
      match re_search pattern true time_text with
      | Some (g1, g2) =>
          rbind (int_of_str g1) (fun value =>
            let unit_ := lower g2 in
            match relative_delta unit_ value with
            | Some delta =>
                rbind (datetime_sub now delta) (fun calculated_date =>
                  Ok (Some (isoformat calculated_date ++ ".000Z")))
            | None => search_relative_patterns time_text now upload_date rest
            end)
      | None => search_relative_patterns time_text now upload_date rest
      end
  end.

Definition parse_date_info (soup : Soup) (now : datetime)
  : result (option string) :=
  rbind
    (match game_info soup with
     | Some info_text => search_date_patterns info_text date_patterns
     | None => Ok None
     end)
    (fun upload_date =>
       if negb (opt_truthy upload_date) then
         match time_article soup with
         | Some text =>
             search_relative_patterns (strip text) now upload_date
               relative_patterns
         | None => Ok upload_date
         end
       else Ok upload_date).

(** ** extract_download_links *)

Definition append_href (button : Button) (download_links : list string)
  : list string :=
  match href button with
  | Some h =>
      if str_truthy h && negb (existsb (String.eqb h) download_links)
      then download_links ++ [h]
      else download_links
  | None => download_links
  end.

Fixpoint download_links_loop (buttons : list Button)
    (is_torrent_section : bool) (download_links : list string)
  : list string :=
  match buttons with
  | [] => download_links
  | button :: rest =>
      if str_contains "TORRENT" (context_text button) then
        if negb is_torrent_section
        then download_links_loop rest true download_links
        else download_links_loop rest false (append_href button download_links)
      else download_links_loop rest false (append_href button download_links)
  end.

Definition extract_download_links (soup : Soup) : list string :=
  download_links_loop (download_buttons soup) false [].

(** ** extract_game_links_from_category *)

Definition is_game_href (h : string) : bool :=
  String.prefix "https://repack-games.com/" h
  && negb (str_contains "/category/" h)
  && negb (str_contains "/author/" h).

Definition keep_game_hrefs (hrefs : list (option string)) : list string :=
  flat_map (fun o =>
              match o with
              | Some h => if is_game_href h then [h] else []
              | None => []
              end) hrefs.

(** The first link of an article that qualifies under the third method. *)
Fixpoint first_game_href (links : list string) : list string :=
  match links with
  | [] => []
  | h :: rest =>
      if is_game_href h && negb (str_contains "/?p=" h) then [h]
      else first_game_href rest
  end.

Definition extract_game_links_from_category (soup : Soup) : list string :=
  match wrap_content soup with
  | None => []
  | Some wc =>
      let game_links :=
        match articles_content wc with
        | Some articles => keep_game_hrefs articles
        | None => []
        end in
      let game_links :=
        match game_links with
        | [] =>
            match modern_articles wc with
            | Some articles => keep_game_hrefs articles
            | None => game_links
            end
        | _ => game_links
        end in
      match game_links with
      | [] => flat_map first_game_href (all_articles wc)
      | _ => game_links
      end
  end.

(** ** get_total_pages_from_pagination *)

Definition get_total_pages_from_pagination (soup : Soup) : result (option Z) :=
  match pagenavi_pages soup with
  | Some text =>
      match re_search "Page \d+ of (\d+)" false text with
      | Some (g1, _) => rbind (int_of_str g1) (fun n => Ok (Some n))
      | None => Ok None
      end
  | None => Ok None
  end.

(** ** parse_game_info *)

Definition clock : M datetime :=
  fun s => (Ok (datetime_now (log s)), s).

Definition count_parsed_game : M unit :=
  fun s => (Ok tt, mk_state (log s) (games_data s) (total_games_parsed s + 1)).

Definition parse_game_info (game_url : string) : M (option game) :=
  try_except
    (html_content <- get_page_content game_url ;;
     match html_content with
     | None => ret None
     | Some html =>
         if negb (str_truthy html) then ret None
         else
           soup <- lift (BeautifulSoup html) ;;
           let title :=
             match article_title soup with
             | Some text => strip text
             | None => "Unknown Title"
             end in
           let file_size := parse_file_size (game_info soup) in
           now <- clock ;;
           upload_date <- lift (parse_date_info soup now) ;;
           let download_links := extract_download_links soup in
           match download_links with
           | [] => ret None
           | _ =>
               count_parsed_game ;;
               ret (Some (mk_game title download_links file_size
                                  upload_date game_url))
           end
     end)
    (fun e => emit (EGameError game_url e) ;; ret None).

(** The results of a [gather] that are dictionaries. *)
Fixpoint valid_games (game_results : list (result (option game))) : list game :=
  match game_results with
  | [] => []
  | Ok (Some g) :: rest => g :: valid_games rest
  | _ :: rest => valid_games rest
  end.

(** ** parse_category_page_and_games *)

Definition page_url (category_url : string) (page : Z) : string :=
  if page =? 1 then category_url
  else category_url ++ "page/" ++ str_of_int page ++ "/".

Definition parse_category_page_and_games
    (category_name category_url : string) (page : Z) : M (list game) :=
  let url := page_url category_url page in
  html_content <- get_page_content url ;;
  dead <- lift (is_404_page html_content) ;;
  if dead then ret []
  else
    soup <- lift (match html_content with
                  | Some html => BeautifulSoup html
                  | None => Raise TypeError
                  end) ;;
    let game_links := extract_game_links_from_category soup in
    match game_links with
    | [] => ret []
    | _ =>
        game_results <- gather (map parse_game_info game_links) ;;
        ret (valid_games game_results)
    end.

(** ** parse_category_with_pagination *)

Definition progress_description (category_name : string)
    (completed_pages max_pages : Z) : string :=
  "Processing category: " ++ category_name ++ " ("
    ++ str_of_int completed_pages ++ "/" ++ str_of_int max_pages ++ ")".

(** The [for coro in asyncio.as_completed(page_tasks)] loop, the pages
    completing in the order of the list.  A page that raised is skipped
    without being counted. *)
Fixpoint pages_loop (category_name : string) (max_pages : Z)
    (page_tasks : list (M (list game)))
    (all_games : list game) (completed_pages : Z) : M (list game * Z) :=
  match page_tasks with
  | [] => ret (all_games, completed_pages)
  | coro :: rest =>
      outcome <- try_except
                   (result <- coro ;;
                    emit (EProgress (progress_description category_name
                                       (completed_pages + 1) max_pages)) ;;
                    ret (Some result))
                   (fun _ => ret None) ;;
      match outcome with
      | Some result =>
          pages_loop category_name max_pages rest
                     (all_games ++ result) (completed_pages + 1)
      | None =>
          pages_loop category_name max_pages rest all_games completed_pages
      end
  end.

Definition parse_category_with_pagination
    (category_name category_url : string) : M (list game) :=
  emit (EProgress ("Processing category: " ++ category_name)) ;;
  html_content <- get_page_content category_url ;;
  if negb (opt_truthy html_content) then
    emit (EProgress ("[red]Failed category: " ++ category_name ++ "[/red]")) ;;
    ret []
  else
    soup <- lift (match html_content with
                  | Some html => BeautifulSoup html
                  | None => Raise TypeError
                  end) ;;
    total_pages <- lift (get_total_pages_from_pagination soup) ;;
    let max_pages :=
      match total_pages with
      | Some n => if n =? 0 then 999 else n
      | None => 999
      end in
    emit (EProgress (progress_description category_name 0 max_pages)) ;;
    let games_from_page := extract_game_links_from_category soup in
    all_games <-
      match games_from_page with
      | [] => ret []
      | _ =>
          game_results <- gather (map parse_game_info games_from_page) ;;
          ret (valid_games game_results)
      end ;;
    emit (EProgress (progress_description category_name 1 max_pages)) ;;
    done <-
      (if 1 <? max_pages
       then pages_loop category_name max_pages
              (map (parse_category_page_and_games category_name category_url)
                   (range 2 (max_pages + 1)))
              all_games 1
       else ret (all_games, 1)) ;;
    emit (EProgress (progress_description category_name (snd done) max_pages)) ;;
    ret (fst done).

(** ** parse_all_categories *)

Definition extend_games_data (result : list game) : M unit :=
  fun s => (Ok tt, mk_state (log s) (games_data s ++ result)
                            (total_games_parsed s)).

(** The loop over [enumerate(results)]: a list is appended to
    [self.games_data], an exception is printed with its category. *)
Fixpoint collect_results (names : list string)
    (results : list (result (list game))) : M unit :=
  match results, names with
  | [], _ => ret tt
  | Ok result :: rest, names =>
      extend_games_data result ;; collect_results (tl names) rest
  | Raise e :: rest, names =>
      emit (ECategoryError (hd "" names) e) ;; collect_results (tl names) rest
  end.

Definition current_games_data : M (list game) :=
  fun s => (Ok (games_data s), s).

Definition parse_all_categories (self : RepackGamesParser) : M unit :=
  results <- gather (map (fun c => parse_category_with_pagination (fst c) (snd c))
                         (categories self)) ;;
  collect_results (map fst (categories self)) results ;;
  data <- current_games_data ;;
  emit (ESummary (Z.of_nat (List.length data))).

(** ** save_to_json and run

    The write of the file is taken to go through here; what [run] does
    when it does not is [run_with] below. *)

Definition save_to_json (filename : string) : M unit :=
  data <- current_games_data ;;
  emit (ESave filename data).

Definition run (self : RepackGamesParser) : M unit :=
  try_except
    (parse_all_categories self ;;
     save_to_json "repackgames.json")
    (fun _ =>
       data <- current_games_data ;;
       match data with
       | [] => ret tt
       | _ => save_to_json "error_repack_games_data.json"
       end).

(** ** save_to_json and run when a file cannot be written

    [aiofiles.open] and [f.write] raise when the file system refuses the
    file.  [write] tells what writing the records to a file name does;
    [save_to_json] and [run] above are the case in which every write goes
    through. *)

Definition save_to_json_with (write : string -> list game -> result unit)
    (filename : string) : M unit :=
  data <- current_games_data ;;
  lift (write filename data) ;;
  emit (ESave filename data).

Definition run_with (write : string -> list game -> result unit)
    (self : RepackGamesParser) : M unit :=
  try_except
    (parse_all_categories self ;;
     save_to_json_with write "repackgames.json")
    (fun _ =>
       data <- current_games_data ;;
       match data with
       | [] => ret tt
       | _ => save_to_json_with write "error_repack_games_data.json"
       end).

(** A parser object straight after [__init__]. *)
Definition initial_state : state := mk_state [] [] 0.

(** The downloads a whole run of [main] leaves in [self.games_data]. *)
Definition main_output : list game :=
  games_data (snd (run (new_parser (Some 160)) initial_state)).

(** ** The fetches as the event loop interleaves them

    Every network call of the crawler is made by [get_page_content], and
    many calls are in progress at once.  A fetch task is followed through
    the suspension points of [get_page_content]; the event loop picks
    which task moves next.  [sem_value] is the counter of
    [asyncio.Semaphore]: a task waiting at [async with self.semaphore]
    moves on only when the counter is positive. *)

Inductive pc : Type :=
| Waiting                         (* at [async with], no slot yet *)
| Jitter (attempt : Z)            (* slot held, before [sleep(0.01)] *)
| Request (attempt : Z)           (* slot held, before [session.get] *)
| Backoff (attempt : Z)           (* slot held, before [sleep(0.15)] *)
| Returned (r : option string).   (* slot given back *)

Record task : Type := mk_task {
  task_url : string;
  task_pc : pc
}.

Record config : Type := mk_config {
  sem_value : Z;
  tasks : list task;
  net_log : list event
}.

(** One move of one task. *)
Definition task_step (t : task) (sem : Z) (l : list event)
  : task * Z * list event :=
  let url := task_url t in
  match task_pc t with
  | Waiting =>
      if 0 <? sem
      then (mk_task url (Jitter 0), sem - 1, (l ++ [EAcquire])%list)
      else (t, sem, l)
  | Jitter attempt =>
      (mk_task url (Request attempt), sem, (l ++ [ESleep 10])%list)
  | Request attempt =>
      match session_get l url with
      | Ok text =>
          (mk_task url (Returned (Some text)), sem + 1,
           (l ++ [EGet url 12000; ERelease])%list)
      | Raise _ =>
          if attempt <? 2
          then (mk_task url (Backoff attempt), sem, (l ++ [EGet url 12000])%list)
          else (mk_task url (Returned None), sem + 1,
                (l ++ [EGet url 12000; ERelease])%list)
      end
  | Backoff attempt =>
      (mk_task url (Jitter (attempt + 1)), sem, (l ++ [ESleep 150])%list)
  | Returned _ => (t, sem, l)
  end.

Fixpoint step_nth (i : nat) (ts : list task) (sem : Z) (l : list event)
  : list task * Z * list event :=
  match ts with
  | [] => ([], sem, l)
  | t :: rest =>
      match i with
      | O => let '(t', sem', l') := task_step t sem l in (t' :: rest, sem', l')
      | S i' =>
          let '(rest', sem', l') := step_nth i' rest sem l in
          (t :: rest', sem', l')
      end
  end.

(** What the event loop does next: start a fetch of [url], or resume the
    [i]-th task. *)
Inductive choice : Type :=
| Spawn (url : string)
| Resume (i : nat).

Definition sched_step (c : config) (ch : choice) : config :=
  match ch with
  | Spawn url =>
      mk_config (sem_value c) (tasks c ++ [mk_task url Waiting]) (net_log c)
  | Resume i =>
      let '(ts, sem, l) := step_nth i (tasks c) (sem_value c) (net_log c) in
      mk_config sem ts l
  end.

Definition run_schedule (schedule : list choice) (c : config) : config :=
  fold_left sched_step schedule c.

(** The semaphore as [__init__] creates it, before any fetch. *)
Definition sched_init (self : RepackGamesParser) : config :=
  mk_config (max_concurrent self) [] [].

Definition holds_slot (t : task) : bool :=
  match task_pc t with
  | Jitter _ | Request _ | Backoff _ => true
  | Waiting | Returned _ => false
  end.

(** The number of fetches between acquiring and releasing a slot. *)
Definition in_flight (c : config) : Z :=
  Z.of_nat (List.length (filter holds_slot (tasks c))).

End Parser.
End RepackGames.

(* ===================================================================== *)
(** * Notions of the specification                                        *)
(* ===================================================================== *)

Module Spec.
Import Py.

(** A text follows a template when it has its length, a digit wherever
    the template has [d], and the template's character elsewhere. *)
Fixpoint follows (template s : string) : bool :=
  match template, s with
  | EmptyString, EmptyString => true
  | String t template', String c s' =>
      (if Ascii.eqb t "d" then is_digit c else Ascii.eqb t c)
      && follows template' s'
  | _, _ => false
  end.

(** An ISO-8601 UTC timestamp with millisecond precision and a trailing
    [Z]. *)
Definition is_iso8601_ms_z (s : string) : bool :=
  follows "dddd-dd-ddTdd:dd:dd.dddZ" s.



(** The absolute month index of a datetime. *)
Definition month_index (dt : datetime) : Z :=
  (year dt * 12 + (month dt - 1))%Z.

(** How often a source URL occurs among records. *)
Definition count_source (url : string) (gs : list RepackGames.game) : nat :=
  List.length
    (filter (fun g => String.eqb (RepackGames.repackLinkSource g) url) gs).

(** The lists among the results of a [gather], concatenated in order. *)
Fixpoint concat_ok {A} (results : list (result (list A))) : list A :=
  match results with
  | [] => []
  | Ok l :: rest => l ++ concat_ok rest
  | Raise _ :: rest => concat_ok rest
  end.

(** The occurrences of a source URL summed over the categories that
    returned a list. *)
Fixpoint sum_sources (url : string)
    (results : list (result (list RepackGames.game))) : nat :=
  match results with
  | [] => 0
  | Ok l :: rest => count_source url l + sum_sources url rest
  | Raise _ :: rest => sum_sources url rest
  end.

(** Every character of a text passes a test. *)
Fixpoint str_forall (p : ascii -> bool) (s : string) : bool :=
  match s with
  | EmptyString => true
  | String c rest => p c && str_forall p rest
  end.

(** The second, fourth, sixth ... element of a list. *)
Fixpoint every_second {A} (l : list A) : list A :=
  match l with
  | _ :: x :: rest => x :: every_second rest
  | _ => []
  end.

(** Whether a month is one [_days_in_month] can measure: both its first
    day and the first day of the month after it are dates of the
    calendar. *)
Definition measurable_month (y m : Z) : bool :=
  ((1 <=? y) && (y <=? 9999) && (1 <=? m) && (m <=? 12)
   && negb ((y =? 9999) && (m =? 12)))%Z.

(** Whether [_days_in_month] hands the constructor of [datetime] a number
    that is no C [int]: the year after [y] for December, [y] or the month
    after [m] otherwise. *)
Definition overflowing_month (y m : Z) : bool :=
  if (m =? 12)%Z then negb (fits_int (y + 1))
  else negb (fits_int y && fits_int (m + 1)).

(** Whether the page of a link can be scraped. *)
Definition scrapes (site : AnkerGames.Site) (url : string) : bool :=
  match AnkerGames.scrape_game (AnkerGames.new_page site url) url with
  | Ok _ => true
  | Raise _ => false
  end.

Import RepackGames.
Local Open Scope Z_scope.

(** The events of [n] attempts on one URL: 10 ms before every attempt,
    150 ms more before the second and the third, 12 s for each request. *)
Fixpoint attempt_trace (url : string) (n : nat) : list event :=
  match n with
  | O => []
  | S O => [ESleep 10; EGet url 12000]
  | S n' => attempt_trace url n' ++ [ESleep 150; ESleep 10; EGet url 12000]
  end.

(** An event of an attempt on [url]: a pause, or a request to [url]
    with the limit of 12 s. *)
Definition attempt_event (url : string) (e : event) : bool :=
  match e with
  | ESleep _ => true
  | EGet u t => String.eqb u url && (t =? 12000)
  | _ => false
  end.

(** What a fetch has appended to the log, by where it stands: nothing
    while it waits for a slot; the acquisition first and then only
    events of its attempts while it holds the slot; and once it has
    returned, the acquisition, one to three attempts and the release. *)
Definition fetch_history (t : task) (own : list event) : Prop :=
  match task_pc t with
  | Waiting => own = []
  | Jitter _ | Request _ | Backoff _ =>
      exists mid, own = EAcquire :: mid
                  /\ forallb (attempt_event (task_url t)) mid = true
  | Returned _ =>
      exists n, (1 <= n <= 3)%nat
                /\ own = (EAcquire :: attempt_trace (task_url t) n
                          ++ [ERelease])%list
  end.

(** The events of the attempts made before attempt number [k] is
    started. *)
Definition before_attempt (url : string) (k : nat) : list event :=
  match k with
  | O => []
  | S _ => (attempt_trace url k ++ [ESleep 150])%list
  end.

(** The history of a fetch in full: the attempts made so far are told
    by the attempt number of the point the fetch stands at. *)
Definition exact_history (t : task) (own : list event) : Prop :=
  match task_pc t with
  | Waiting => own = []
  | Jitter a =>
      0 <= a <= 2
      /\ own = EAcquire :: before_attempt (task_url t) (Z.to_nat a)
  | Request a =>
      0 <= a <= 2
      /\ own = (EAcquire :: before_attempt (task_url t) (Z.to_nat a)
                ++ [ESleep 10])%list
  | Backoff a =>
      0 <= a <= 1
      /\ own = EAcquire :: attempt_trace (task_url t) (S (Z.to_nat a))
  | Returned _ =>
      exists n, (1 <= n <= 3)%nat
                /\ own = (EAcquire :: attempt_trace (task_url t) n
                          ++ [ERelease])%list
  end.

(** Slots taken minus slots given back, over a log. *)
Fixpoint slot_balance (l : list event) : Z :=
  match l with
  | [] => 0
  | EAcquire :: rest => 1 + slot_balance rest
  | ERelease :: rest => slot_balance rest - 1
  | _ :: rest => slot_balance rest
  end.

Definition slot (t : task) : Z := if holds_slot t then 1 else 0.

Fixpoint slots (ts : list task) : Z :=
  match ts with
  | [] => 0
  | t :: rest => slot t + slots rest
  end.

(** Whether a log holds a request to [url]. *)
Definition fetched (url : string) (l : list event) : bool :=
  existsb (fun e => match e with
                    | EGet u t => String.eqb u url && (t =? 12000)
                    | _ => false
                    end) l.

(** The number of listing pages a category is taken to have. *)
Definition max_pages_of (total_pages : option Z) : Z :=
  match total_pages with
  | Some n => if n =? 0 then 999 else n
  | None => 999
  end.

(** A download button whose surroundings name a torrent. *)
Definition torrent (b : Button) : bool :=
  str_contains "TORRENT" (context_text b).

(** The records a task handed back. *)
Definition tally (r : result (list game)) : Z :=
  match r with
  | Ok gs => Z.of_nat (List.length gs)
  | Raise _ => 0
  end.

(** Whether a fetch has returned. *)
Definition returned (t : task) : bool :=
  match task_pc t with Returned _ => true | _ => false end.

(** A bound on the moves a fetch has left. *)
Definition moves_left (t : task) : Z :=
  match task_pc t with
  | Waiting => 9
  | Jitter attempt => 3 * Z.max 0 (2 - attempt) + 2
  | Request attempt => 3 * Z.max 0 (2 - attempt) + 1
  | Backoff attempt => 3 * Z.max 0 (1 - attempt) + 3
  | Returned _ => 0
  end.

Fixpoint total_moves_left (ts : list task) : Z :=
  match ts with
  | [] => 0
  | t :: rest => moves_left t + total_moves_left rest
  end.

(** The requests a log records. *)
Fixpoint requests_sent (l : list event) : Z :=
  match l with
  | [] => 0
  | EGet _ _ :: rest => 1 + requests_sent rest
  | _ :: rest => requests_sent rest
  end.

(** The requests a fetch may still send. *)
Definition requests_left (t : task) : Z :=
  match task_pc t with
  | Waiting => 3
  | Jitter attempt | Request attempt => Z.max 1 (3 - attempt)
  | Backoff attempt => Z.max 1 (2 - attempt)
  | Returned _ => 0
  end.

Fixpoint total_requests_left (ts : list task) : Z :=
  match ts with
  | [] => 0
  | t :: rest => requests_left t + total_requests_left rest
  end.

(** The requests a fetch has yet to send before it can return. *)
Definition requests_due (t : task) : Z :=
  match task_pc t with
  | Waiting | Jitter _ | Request _ => 1
  | Backoff _ | Returned _ => 0
  end.

Fixpoint total_requests_due (ts : list task) : Z :=
  match ts with
  | [] => 0
  | t :: rest => requests_due t + total_requests_due rest
  end.

(** A step of the crawler leaves [games_data] alone and only adds to the
    log. *)
Definition frame (s s' : state) : Prop :=
  games_data s' = games_data s /\ exists l, log s' = (log s ++ l)%list.

Section WithWorld.
Context {W : World}.

(** The events a step of the event loop appended to the log. *)
Definition new_events (c c' : config) : list event :=
  skipn (List.length (net_log c)) (net_log c').

(** The events the [i]-th fetch appended over a schedule that starts in
    [c]: those of the steps that resumed it. *)
Fixpoint own_events (i : nat) (schedule : list choice) (c : config)
  : list event :=
  match schedule with
  | [] => []
  | ch :: rest =>
      ((match ch with
        | Resume j =>
            if Nat.eqb j i then new_events c (sched_step c ch) else []
        | Spawn _ => []
        end) ++ own_events i rest (sched_step c ch))%list
  end.

(** A URL every request to which fails. *)
Definition always_fails (url : string) : Prop :=
  forall l, exists e, session_get l url = Raise e.

(** A URL that answers every request with an empty body. *)
Definition always_blank (url : string) : Prop :=
  forall l, session_get l url = Ok "".

(** The file size of a leaf page is unresolved when the page has no
    game-info block or none of the size patterns matches its text. *)
Definition size_unresolved (soup : Soup) : Prop :=
  match game_info soup with
  | None => True
  | Some info_text =>
      forall pattern, In pattern size_patterns ->
                      re_search pattern true info_text = None
  end.



(** A record read from the leaf page its source URL served. *)
Definition leaf_record (g : game) : Prop :=
  exists l l' html soup,
    session_get l (repackLinkSource g) = Ok html
    /\ BeautifulSoup html = Ok soup
    /\ RepackGames.title g = match article_title soup with
                             | Some text => strip text
                             | None => "Unknown Title"
                             end
    /\ fileSize g = parse_file_size (game_info soup)
    /\ parse_date_info soup (datetime_now l') = Ok (uploadDate g)
    /\ uris g = extract_download_links soup
    /\ uris g <> [].

(** The fetch of the first listing page of a category, as
    [parse_category_with_pagination] makes it. *)
Definition first_listing (name url : string) (s : state)
  : result (option string) * state :=
  get_page_content url
    (snd (emit (EProgress ("Processing category: " ++ name)) s)).

(** The category crawlers of a run, as [parse_all_categories] hands them
    to [gather]. *)
Definition category_tasks (self : RepackGamesParser) : list (M (list game)) :=
  map (fun c => parse_category_with_pagination (fst c) (snd c))
      (categories self).

End WithWorld.

End Spec.

(* ===================================================================== *)
(** * Concrete sites                                                      *)
(* ===================================================================== *)

Module Examples.
Import Py.
Local Open Scope Z_scope.

(** ** A RepackGames site whose Action and Anime listings link to the
    same game page

    Both listings carry the marker "Page 1 of 1" and one article; the game
    page has a title and one download button, and neither a game-info
    block nor a time block.  Every other address refuses the request. *)

Definition action_url : string := "https://repack-games.com/category/action-games/".
Definition anime_url : string := "https://repack-games.com/category/anime-games/".
Definition shared_game_url : string := "https://repack-games.com/shared-game/".

Definition listing_soup (marker : option string) : RepackGames.Soup :=
  RepackGames.mk_Soup
    (Some (RepackGames.mk_WrapContent None (Some [Some shared_game_url]) None []))
    None None None [] marker.

Definition leaf_soup : RepackGames.Soup :=
  RepackGames.mk_Soup None (Some "Shared Game") None None
    [RepackGames.mk_Button "DOWNLOAD LINKS" (Some "https://files.example/shared-game.zip")]
    None.

Definition not_found_soup : RepackGames.Soup :=
  RepackGames.mk_Soup
    (Some (RepackGames.mk_WrapContent (Some "Error 404 - Page not found") None None []))
    None None None [] None.

Definition empty_soup : RepackGames.Soup :=
  RepackGames.mk_Soup None None None None [] None.

(** The parser on the four documents the sites serve. *)
Definition example_BeautifulSoup (html : string) : result RepackGames.Soup :=
  if String.eqb html "listing, page 1 of 1" then Ok (listing_soup (Some "Page 1 of 1"))
  else if String.eqb html "listing, no marker" then Ok (listing_soup None)
  else if String.eqb html "game page" then Ok leaf_soup
  else if String.eqb html "error 404 page" then Ok not_found_soup
  else Ok empty_soup.

(** The one text the examples hand to the regular-expression engine. *)
Definition example_re_search (pattern : string) (ignorecase : bool)
    (text : string) : option (string * string) :=
  if String.eqb pattern "Page \d+ of (\d+)" && String.eqb text "Page 1 of 1"
  then Some ("1", "")
  else None.

Definition example_now (l : list RepackGames.event) : datetime :=
  mk_datetime 2025 1 10 12 0 0 123456 None.

Definition shared_leaf_get (l : list RepackGames.event) (url : string)
  : result string :=
  if String.eqb url action_url || String.eqb url anime_url
  then Ok "listing, page 1 of 1"
  else if String.eqb url shared_game_url then Ok "game page"
  else Raise (ClientError "404, message='Not Found'").

Definition shared_leaf_world : RepackGames.World :=
  RepackGames.mk_World example_BeautifulSoup example_re_search
                       shared_leaf_get example_now.

(** The record both listings of the first site lead to. *)
Definition shared_record : RepackGames.game :=
  RepackGames.mk_game "Shared Game" ["https://files.example/shared-game.zip"]
                      "Unknown" None shared_game_url.

(** ** A RepackGames category without a page-count marker

    Pages 1 to 4 of the Action category are listings without a marker;
    every further page of the category is the site's "Error 404" page. *)

Definition probing_get (l : list RepackGames.event) (url : string)
  : result string :=
  if String.eqb url action_url
     || String.eqb url (action_url ++ "page/2/")
     || String.eqb url (action_url ++ "page/3/")
     || String.eqb url (action_url ++ "page/4/")
  then Ok "listing, no marker"
  else if String.prefix action_url url then Ok "error 404 page"
  else if String.eqb url shared_game_url then Ok "game page"
  else Raise (ClientError "404, message='Not Found'").

Definition probing_world : RepackGames.World :=
  RepackGames.mk_World example_BeautifulSoup example_re_search
                       probing_get example_now.

(** The log of the Action category on that site. *)
Definition probing_log : list RepackGames.event :=
  RepackGames.log
    (snd (@RepackGames.parse_category_with_pagination probing_world
            "Action" action_url RepackGames.initial_state)).

(** ** An AnkerGames site with one game page that shows a title only *)

Definition bare_game_url : string := "https://ankergames.net/game/bare".

Definition bare_page : AnkerGames.Page :=
  AnkerGames.mk_Page (Ok tt) (Ok "Bare Game") None None None None
    (mk_datetime 2025 1 10 12 0 0 123456 (Some utc)).

Definition bare_site : AnkerGames.Site :=
  AnkerGames.mk_Site (Ok [bare_game_url]) (fun _ => bare_page).

(** ** A RepackGames site whose Anime listing breaks the HTML parser

    The Action listing is the one of the first site; the document the
    Anime category serves makes [BeautifulSoup] raise. *)

Definition faulty_BeautifulSoup (html : string) : result RepackGames.Soup :=
  if String.eqb html "broken listing"
  then Raise (RuntimeError "parser fault")
  else example_BeautifulSoup html.

Definition faulty_get (l : list RepackGames.event) (url : string)
  : result string :=
  if String.eqb url anime_url then Ok "broken listing"
  else shared_leaf_get l url.

Definition faulty_world : RepackGames.World :=
  RepackGames.mk_World faulty_BeautifulSoup example_re_search
                       faulty_get example_now.

(** ** A game page that only tells its age

    The page has a time block reading "3 days ago" and nothing else; the
    engine finds the fourth relative pattern in it. *)

Definition aged_soup : RepackGames.Soup :=
  RepackGames.mk_Soup None None None (Some "3 days ago") [] None.

Definition aged_re_search (pattern : string) (ignorecase : bool)
    (text : string) : option (string * string) :=
  if String.eqb pattern "(\d+)\s+(day|days)\s+ago"
     && String.eqb text "3 days ago"
  then Some ("3", "days")
  else None.

Definition aged_world : RepackGames.World :=
  RepackGames.mk_World example_BeautifulSoup aged_re_search
                       shared_leaf_get example_now.

(** ** A game page dated in its game-info block *)

Definition dated_soup : RepackGames.Soup :=
  RepackGames.mk_Soup None None (Some "UPDATED On - 18-04-2025")
                      None [] None.

Definition dated_re_search (pattern : string) (ignorecase : bool)
    (text : string) : option (string * string) :=
  if String.eqb pattern
       "(?:UPDATED|PUBLISHED)\s+O[nm]\s*-\s*(\d{1,2}[-/]\d{1,2}[-/]\d{4})"
     && String.eqb text "UPDATED On - 18-04-2025"
  then Some ("18-04-2025", "")
  else None.

Definition dated_world : RepackGames.World :=
  RepackGames.mk_World example_BeautifulSoup dated_re_search
                       shared_leaf_get example_now.

(** ** An AnkerGames page updated six months ago, with a size and a link *)

Definition full_page : AnkerGames.Page :=
  AnkerGames.mk_Page (Ok tt) (Ok "Full Game V 1.5.0") (Some "6") None
    (Some "40.0 GB") (Some "https://files.example/full game.zip ")
    (mk_datetime 2025 1 10 12 0 0 123456 (Some utc)).

(** ** An AnkerGames page last updated 12301 months ago, in the year 999 *)

Definition ancient_page : AnkerGames.Page :=
  AnkerGames.mk_Page (Ok tt) (Ok "Ancient Game") (Some "12301") None None None
    (mk_datetime 2025 1 10 12 0 0 123456 (Some utc)).

(** ** An AnkerGames site with a page last updated 99999 months ago

    The listing links to that page and to the page that shows a title
    only. *)

Definition stale_game_url : string := "https://ankergames.net/game/stale".

Definition stale_page : AnkerGames.Page :=
  AnkerGames.mk_Page (Ok tt) (Ok "Stale Game") (Some "99999") None None None
    (mk_datetime 2025 1 10 12 0 0 123456 (Some utc)).

Definition stale_site : AnkerGames.Site :=
  AnkerGames.mk_Site (Ok [stale_game_url; bare_game_url])
    (fun url => if String.eqb url stale_game_url then stale_page
                else bare_page).

(** The item [scrape_game] builds from the page updated six months ago. *)
Definition full_item : AnkerGames.DownloadItem :=
  AnkerGames.mk_DownloadItem "Full Game V 1.5.0"
    ["https://files.example/fullgame.zip"] "2024-07-10T12:00:00.000Z"
    "40.0 GB" "https://ankergames.net/game/full".

(** ** The anchors of an AnkerGames grid

    A site-relative address, the same address in full, an address of
    another site, an anchor without [href] and a second game. *)
Definition grid_hrefs : list (option string) :=
  [Some "/game/alpha"; Some "https://ankergames.net/game/alpha";
   Some "https://elsewhere.example/game/alpha"; None; Some "/game/beta"].

(** ** A game page with three torrent buttons *)

Definition torrent_soup : RepackGames.Soup :=
  RepackGames.mk_Soup None (Some "Torrent Game") None None
    [RepackGames.mk_Button "TORRENT" (Some "magnet:first");
     RepackGames.mk_Button "TORRENT MIRROR" (Some "magnet:second");
     RepackGames.mk_Button "TORRENT" (Some "magnet:third")]
    None.

(** ** A RepackGames site whose Action listing answers with an empty body *)

Definition blank_get (l : list RepackGames.event) (url : string)
  : result string :=
  if String.eqb url action_url then Ok "" else shared_leaf_get l url.

Definition blank_world : RepackGames.World :=
  RepackGames.mk_World example_BeautifulSoup example_re_search
                       blank_get example_now.

(** ** A RepackGames category whose first listing reads "Page 1 of 3"

    The first page links to the shared game page; pages 2 and 3 refuse
    the request. *)

Definition paged_BeautifulSoup (html : string) : result RepackGames.Soup :=
  if String.eqb html "listing, page 1 of 3"
  then Ok (listing_soup (Some "Page 1 of 3"))
  else example_BeautifulSoup html.

Definition paged_re_search (pattern : string) (ignorecase : bool)
    (text : string) : option (string * string) :=
  if String.eqb pattern "Page \d+ of (\d+)" && String.eqb text "Page 1 of 3"
  then Some ("3", "")
  else None.

Definition paged_get (l : list RepackGames.event) (url : string)
  : result string :=
  if String.eqb url action_url then Ok "listing, page 1 of 3"
  else shared_leaf_get l url.

Definition paged_world : RepackGames.World :=
  RepackGames.mk_World paged_BeautifulSoup paged_re_search
                       paged_get example_now.

(** ** Two fetches interleaved: the first returns while the second is
    about to send its request *)

Definition interleaved_fetches : list RepackGames.choice :=
  [RepackGames.Spawn action_url; RepackGames.Spawn anime_url;
   RepackGames.Resume 0; RepackGames.Resume 1; RepackGames.Resume 0;
   RepackGames.Resume 0; RepackGames.Resume 1].

(** ** Two fetches started, the first one resumed once *)

Definition two_fetches : list RepackGames.choice :=
  [RepackGames.Spawn action_url; RepackGames.Spawn anime_url;
   RepackGames.Resume 0].

(** ** Two datetimes *)

Definition end_of_march : datetime :=
  mk_datetime 2024 3 31 8 30 15 250000 (Some utc).

Definition short_year_date : datetime :=
  mk_datetime 24 4 18 0 0 0 0 None.

End Examples.

(* ===================================================================== *)
(** * Facts about the Python runtime pieces                               *)
(* ===================================================================== *)

Module PyFacts.
Import Py.
Local Open Scope Z_scope.

Lemma is_leap_spec y :
  _is_leap y = true <-> (y mod 4 = 0 /\ (y mod 100 <> 0 \/ y mod 400 = 0)).
Proof.
  unfold _is_leap.
  rewrite andb_true_iff, orb_true_iff, negb_true_iff, !Z.eqb_eq, Z.eqb_neq.
  tauto.
Qed.

Lemma days_before_year_succ y :
  _days_before_year (y + 1) - _days_before_year y
  = 365 + (if _is_leap y then 1 else 0).
Proof.
  unfold _days_before_year. cbv zeta.
  replace (y + 1 - 1) with y by lia.
  destruct (_is_leap y) eqn:L.
  - apply is_leap_spec in L. Z.div_mod_to_equations. lia.
  - assert (~ (y mod 4 = 0 /\ (y mod 100 <> 0 \/ y mod 400 = 0))) as N.
    { intro H. apply is_leap_spec in H. congruence. }
    Z.div_mod_to_equations. lia.
Qed.

Lemma days_in_month_cal_bounds y m :
  1 <= m <= 12 -> 28 <= _days_in_month_cal y m <= 31.
Proof.
  intros Hm. unfold _days_in_month_cal.
  assert (m = 1 \/ m = 2 \/ m = 3 \/ m = 4 \/ m = 5 \/ m = 6 \/ m = 7 \/
          m = 8 \/ m = 9 \/ m = 10 \/ m = 11 \/ m = 12) as E by lia.
  repeat (destruct E as [E | E]); subst m; simpl;
    destruct (_is_leap y); simpl; lia.
Qed.

Lemma check_date_fields_true y m d :
  check_date_fields y m d = true <->
  (1 <= y <= 9999 /\ 1 <= m <= 12 /\ 1 <= d <= _days_in_month_cal y m).
Proof.
  unfold check_date_fields, MINYEAR, MAXYEAR.
  rewrite !andb_true_iff, !Z.leb_le. tauto.
Qed.

Lemma check_first_of_month y m :
  1 <= y <= 9999 -> 1 <= m <= 12 -> check_date_fields y m 1 = true.
Proof.
  intros Hy Hm. apply check_date_fields_true.
  pose proof (days_in_month_cal_bounds y m Hm). lia.
Qed.

Lemma check_date_fields_fit y m d :
  check_date_fields y m d = true ->
  fits_int y && fits_int m && fits_int d = true.
Proof.
  intros C. apply check_date_fields_true in C as (Hy & Hm & Hd).
  pose proof (days_in_month_cal_bounds y m Hm).
  unfold fits_int, INT_MIN, INT_MAX.
  rewrite !andb_true_iff, !Z.leb_le. lia.
Qed.

Lemma datetime_new_ok y m d t :
  check_date_fields y m d = true ->
  datetime_new y m d t = Ok (mk_datetime y m d 0 0 0 0 t).
Proof.
  intros C. unfold datetime_new.
  now rewrite (check_date_fields_fit _ _ _ C), C.
Qed.

Lemma datetime_new_inv y m d t dt :
  datetime_new y m d t = Ok dt ->
  check_date_fields y m d = true /\ dt = mk_datetime y m d 0 0 0 0 t.
Proof.
  unfold datetime_new.
  destruct (negb _); [discriminate |].
  destruct (check_date_fields y m d); [| discriminate].
  now intros [= <-].
Qed.

Lemma replace_ymd_ok dt y m d :
  check_date_fields y m d = true ->
  replace_ymd dt y m d
  = Ok (mk_datetime y m d (hour dt) (minute dt) (second dt)
                    (microsecond dt) (tzinfo dt)).
Proof.
  intros C. unfold replace_ymd.
  now rewrite (check_date_fields_fit _ _ _ C), C.
Qed.

Lemma replace_ymd_inv dt y m d dt' :
  replace_ymd dt y m d = Ok dt' ->
  check_date_fields y m d = true
  /\ dt' = mk_datetime y m d (hour dt) (minute dt) (second dt)
                       (microsecond dt) (tzinfo dt).
Proof.
  unfold replace_ymd.
  destruct (negb _); [discriminate |].
  destruct (check_date_fields y m d); [| discriminate].
  now intros [= <-].
Qed.

Lemma midnight_diff_days y m d t y' m' d' t' :
  days (datetime_diff (mk_datetime y m d 0 0 0 0 t)
                      (mk_datetime y' m' d' 0 0 0 0 t'))
  = _ymd2ord y m d - _ymd2ord y' m' d'.
Proof.
  unfold datetime_diff, timedelta_of_us, datetime_us, toordinal. simpl.
  replace (_ymd2ord y m d * us_per_day + 0 + 0
           - (_ymd2ord y' m' d' * us_per_day + 0 + 0))
    with ((_ymd2ord y m d - _ymd2ord y' m' d') * us_per_day) by ring.
  apply Z.div_mul. unfold us_per_day, us_per_second. lia.
Qed.

Lemma days_before_next_month y m :
  1 <= m <= 11 ->
  _days_before_month y (m + 1) - _days_before_month y m
  = _days_in_month_cal y m.
Proof.
  intros Hm. unfold _days_before_month, _days_in_month_cal.
  assert (m = 1 \/ m = 2 \/ m = 3 \/ m = 4 \/ m = 5 \/ m = 6 \/ m = 7 \/
          m = 8 \/ m = 9 \/ m = 10 \/ m = 11) as E by lia.
  repeat (destruct E as [E | E]); subst m; simpl;
    destruct (_is_leap y); reflexivity.
Qed.

Lemma digit_char_is_digit d : 0 <= d <= 9 -> is_digit (digit_char d) = true.
Proof.
  intros H.
  assert (d = 0 \/ d = 1 \/ d = 2 \/ d = 3 \/ d = 4 \/ d = 5 \/ d = 6 \/
          d = 7 \/ d = 8 \/ d = 9) as E by lia.
  repeat (destruct E as [E | E]); subst d; reflexivity.
Qed.

Lemma digit_char_not_d c : is_digit c = true -> Ascii.eqb "d" c = false.
Proof.
  intros H. apply Ascii.eqb_neq. intros <-. discriminate.
Qed.

(** A two-digit field under the template [dd]. *)
Lemma follows_pad2 n template k :
  0 <= n <= 99 ->
  Spec.follows (String "d" (String "d" template)) (pad2 n k)
  = Spec.follows template k.
Proof.
  intros H. unfold pad2. cbn [Spec.follows].
  rewrite Ascii.eqb_refl.
  rewrite !digit_char_is_digit by (Z.div_mod_to_equations; lia).
  reflexivity.
Qed.

Lemma follows_pad4 n template k :
  0 <= n <= 9999 ->
  Spec.follows (String "d" (String "d" (String "d" (String "d" template))))
               (pad4 n k)
  = Spec.follows template k.
Proof.
  intros H. unfold pad4.
  rewrite follows_pad2 by (Z.div_mod_to_equations; lia).
  apply follows_pad2. Z.div_mod_to_equations; lia.
Qed.

Lemma valid_datetime_fields dt :
  valid_datetime dt = true ->
  1 <= year dt <= 9999 /\ 1 <= month dt <= 12 /\ 1 <= day dt <= 31
  /\ 0 <= hour dt <= 23 /\ 0 <= minute dt <= 59 /\ 0 <= second dt <= 59
  /\ 0 <= microsecond dt <= 999999.
Proof.
  unfold valid_datetime, check_date_fields, check_time_fields, MINYEAR, MAXYEAR.
  rewrite !andb_true_iff, !Z.leb_le. intros H.
  assert (1 <= month dt <= 12) as Hm by lia.
  pose proof (days_in_month_cal_bounds (year dt) (month dt) Hm). lia.
Qed.

Lemma follows_literal c template k :
  Ascii.eqb c "d" = false ->
  Spec.follows (String c template) (String c k) = Spec.follows template k.
Proof.
  intros H. cbn [Spec.follows]. rewrite H, Ascii.eqb_refl. reflexivity.
Qed.

Lemma ymd_hms_ms_z_shape dt :
  valid_datetime dt = true ->
  Spec.is_iso8601_ms_z (ymd_hms dt ".000Z") = true.
Proof.
  intros H. apply valid_datetime_fields in H.
  unfold Spec.is_iso8601_ms_z, ymd_hms.
  rewrite follows_pad4 by lia.
  repeat (rewrite follows_literal by reflexivity;
          rewrite follows_pad2 by lia).
  reflexivity.
Qed.




Lemma In_range lo hi i : lo <= i < hi -> In i (range lo hi).
Proof.
  intros H. unfold range. apply in_map_iff.
  exists (Z.to_nat (i - lo)). split; [lia |]. apply in_seq. lia.
Qed.





End PyFacts.

(* ===================================================================== *)
(** * Properties of AnkerGames                                            *)
(* ===================================================================== *)

Module AnkerFacts.
Import Py PyFacts.
Local Open Scope Z_scope.

(** The subtraction of two first-of-month dates in [_days_in_month] gives
    the calendar length of the month, as long as the following month is
    still a date. *)
Lemma anker_days_in_month y m :
  1 <= y <= 9999 -> 1 <= m <= 12 -> (y < 9999 \/ m < 12) ->
  AnkerGames._days_in_month y m = Ok (_days_in_month_cal y m).
Proof.
  intros Hy Hm Hlast. unfold AnkerGames._days_in_month.
  destruct (m =? 12) eqn:E.
  - apply Z.eqb_eq in E. subst m.
    rewrite !datetime_new_ok by (apply check_first_of_month; lia).
    unfold rbind. rewrite midnight_diff_days. f_equal.
    unfold _ymd2ord, _days_before_month, _days_in_month_cal. simpl.
    pose proof (days_before_year_succ y) as S.
    destruct (_is_leap y); lia.
  - apply Z.eqb_neq in E.
    rewrite !datetime_new_ok by (apply check_first_of_month; lia).
    unfold rbind. rewrite midnight_diff_days. f_equal.
    unfold _ymd2ord.
    pose proof (days_before_next_month y m ltac:(lia)). lia.
Qed.

(** C10 (amended): for every valid datetime [dt] and every [m >= 0] such
    that the month [m] months before [dt] lies between January of year 1
    and November of year 9999, [subtract_months dt m] returns a datetime
    whose absolute month index is [m] less than that of [dt], whose day is
    the smaller of [dt]'s day and the length of the resulting month, and
    whose hour, minute, second, microsecond and tzinfo are those of
    [dt]. *)
Theorem subtract_months_in_calendar (dt : datetime) (m : Z) :
  valid_datetime dt = true ->
  0 <= m ->
  12 <= Spec.month_index dt - m < 9999 * 12 + 11 ->
  exists dt',
    AnkerGames.subtract_months dt m = Ok dt'
    /\ Spec.month_index dt' = Spec.month_index dt - m
    /\ day dt' = Z.min (day dt) (_days_in_month_cal (year dt') (month dt'))
    /\ hour dt' = hour dt /\ minute dt' = minute dt
    /\ second dt' = second dt /\ microsecond dt' = microsecond dt
    /\ tzinfo dt' = tzinfo dt.
Proof.
  intros Hv Hm Hrange.
  unfold Spec.month_index in *.
  unfold AnkerGames.subtract_months. cbv zeta.
  set (idx := year dt * 12 + (month dt - 1) - m) in *.
  assert (1 <= idx / 12 <= 9999) as Hy by (Z.div_mod_to_equations; lia).
  assert (1 <= idx mod 12 + 1 <= 12) as Hmo by (Z.div_mod_to_equations; lia).
  assert (idx / 12 < 9999 \/ idx mod 12 + 1 < 12) as Hlast
      by (Z.div_mod_to_equations; lia).
  rewrite (anker_days_in_month _ _ Hy Hmo Hlast). unfold rbind.
  unfold valid_datetime in Hv. apply andb_true_iff in Hv as [Hd _].
  apply check_date_fields_true in Hd as (_ & _ & Hday).
  pose proof (days_in_month_cal_bounds (idx / 12) (idx mod 12 + 1) Hmo) as B.
  rewrite replace_ymd_ok by (apply check_date_fields_true; lia).
  eexists. split; [reflexivity |]. simpl.
  repeat split; try reflexivity.
  Z.div_mod_to_equations; lia.
Qed.


(** C10, a run of the theorem: one month before 31 March 2025 is
    28 February 2025, at the same time of day. *)
Lemma subtract_months_in_calendar_witness :
  (valid_datetime (mk_datetime 2025 3 31 12 30 45 0 (Some utc)) = true
   /\ 0 <= 1
   /\ 12 <= Spec.month_index (mk_datetime 2025 3 31 12 30 45 0 (Some utc)) - 1
         < 9999 * 12 + 11)
  /\ exists dt',
       AnkerGames.subtract_months
         (mk_datetime 2025 3 31 12 30 45 0 (Some utc)) 1 = Ok dt'
       /\ Spec.month_index dt'
          = Spec.month_index (mk_datetime 2025 3 31 12 30 45 0 (Some utc)) - 1
       /\ day dt' = Z.min (day (mk_datetime 2025 3 31 12 30 45 0 (Some utc)))
                          (_days_in_month_cal (year dt') (month dt'))
       /\ hour dt' = hour (mk_datetime 2025 3 31 12 30 45 0 (Some utc))
       /\ minute dt' = minute (mk_datetime 2025 3 31 12 30 45 0 (Some utc))
       /\ second dt' = second (mk_datetime 2025 3 31 12 30 45 0 (Some utc))
       /\ microsecond dt'
          = microsecond (mk_datetime 2025 3 31 12 30 45 0 (Some utc))
       /\ tzinfo dt' = tzinfo (mk_datetime 2025 3 31 12 30 45 0 (Some utc)).
Proof.
  assert (valid_datetime (mk_datetime 2025 3 31 12 30 45 0 (Some utc)) = true)
    as Hv by reflexivity.
  assert (0 <= 1) as Hm by lia.
  assert (12 <= Spec.month_index (mk_datetime 2025 3 31 12 30 45 0 (Some utc)) - 1
             < 9999 * 12 + 11) as Hr
    by (unfold Spec.month_index; simpl; lia).
  split; [auto |].
  exact (subtract_months_in_calendar
           (mk_datetime 2025 3 31 12 30 45 0 (Some utc)) 1 Hv Hm Hr).
Defined.

Example subtract_months_end_of_march :
  AnkerGames.subtract_months (mk_datetime 2025 3 31 12 30 45 0 (Some utc)) 1
  = Ok (mk_datetime 2025 2 28 12 30 45 0 (Some utc)).
Proof. reflexivity. Qed.

(** December 9999 is left out of the theorem: [_days_in_month] asks for
    the first day of year 10000 there. *)
Example subtract_months_last_month :
  AnkerGames.subtract_months (mk_datetime 9999 12 31 0 0 0 0 (Some utc)) 0
  = Raise ValueError.
Proof. reflexivity. Qed.

(** C10 as stated fails: 24300 months before 15 January 2025 is a month of
    year 0, which [datetime] refuses, so no datetime is returned. *)
Lemma subtract_months_before_year_one :
  valid_datetime (mk_datetime 2025 1 15 12 0 0 0 (Some utc)) = true
  /\ 0 <= 24300
  /\ AnkerGames.subtract_months
       (mk_datetime 2025 1 15 12 0 0 0 (Some utc)) 24300 = Raise ValueError
  /\ ~ (exists dt',
          AnkerGames.subtract_months
            (mk_datetime 2025 1 15 12 0 0 0 (Some utc)) 24300 = Ok dt').
Proof.
  split; [reflexivity |]. split; [lia |]. split; [reflexivity |].
  intros [dt' H]. vm_compute in H. discriminate.
Qed.

(** ** The records of [main] *)

Lemma subtract_months_valid dt m dt' :
  valid_datetime dt = true ->
  AnkerGames.subtract_months dt m = Ok dt' ->
  valid_datetime dt' = true.
Proof.
  intros Hv. unfold AnkerGames.subtract_months. cbv zeta.
  destruct (AnkerGames._days_in_month _ _) as [max_day | e]; [| discriminate].
  unfold rbind. intros R. apply replace_ymd_inv in R as [C ->].
  unfold valid_datetime in *. cbn [year month day hour minute second microsecond].
  apply andb_true_iff in Hv as [_ Ht]. now rewrite C, Ht.
Qed.

(** On a naive datetime and on one in UTC, [to_iso_utc] prints the
    fields as they are. *)
Lemma to_iso_utc_utc dt :
  tzinfo dt = None \/ tzinfo dt = Some utc ->
  AnkerGames.to_iso_utc dt
  = Ok (str_of_int (year dt) ++ md_hms dt ".000Z").
Proof.
  unfold AnkerGames.to_iso_utc. intros [T | T]; rewrite T; reflexivity.
Qed.




(** What [scrape_game] puts in the fields of the item it returns. *)
Lemma scrape_game_fields page url item :
  AnkerGames.scrape_game page url = Ok item ->
  AnkerGames.repackLinkSource item = url
  /\ AnkerGames.uris item
     = match AnkerGames.extract_download_link page with
       | Some u => if str_truthy u then [u] else []
       | None => []
       end
  /\ AnkerGames.fileSize item
     = match AnkerGames.extract_file_size page with
       | Some size => size
       | None => ""
       end
  /\ exists upload_iso,
       AnkerGames.extract_last_updated_iso page = Ok upload_iso
       /\ AnkerGames.uploadDate item
          = match upload_iso with Some iso => iso | None => "" end.
Proof.
  unfold AnkerGames.scrape_game.
  destruct (AnkerGames.goto page) as [[] | e]; [| discriminate]. cbn [rbind].
  destruct (AnkerGames.extract_title page) as [t | e]; [| discriminate].
  cbn [rbind].
  destruct (AnkerGames.extract_last_updated_iso page) as [u | e] eqn:U;
    [| discriminate].
  cbn [rbind]. intros [= <-].
  cbn [AnkerGames.repackLinkSource AnkerGames.uris AnkerGames.fileSize
       AnkerGames.uploadDate].
  split; [reflexivity |]. split; [reflexivity |]. split.
  - destruct (AnkerGames.extract_file_size page) as [[| c size] |]; reflexivity.
  - exists u. split; [reflexivity |]. now destruct u as [[| c x] |].
Qed.

Lemma scrape_all_In site links item :
  In item (AnkerGames.scrape_all site links) <->
  exists url, In url links
              /\ AnkerGames.scrape_game (AnkerGames.new_page site url) url
                 = Ok item.
Proof.
  induction links as [| url rest IH]; cbn [AnkerGames.scrape_all].
  - split; [intros [] | intros (u & [] & _)].
  - destruct (AnkerGames.scrape_game (AnkerGames.new_page site url) url)
      as [it | e] eqn:E.
    + cbn [In]. rewrite IH. split.
      * intros [<- | (u & Hu & Eu)]; [exists url | exists u]; cbn; auto.
      * intros (u & [<- | Hu] & Eu); [left; congruence | right; eauto].
    + rewrite IH. split.
      * intros (u & Hu & Eu). exists u. cbn. auto.
      * intros (u & [<- | Hu] & Eu); [congruence | eauto].
Qed.

(** Every item [main] writes comes from a page [scrape_game] returned
    from. *)
Lemma main_items site limit items item :
  AnkerGames.main site limit = Ok items ->
  In item items ->
  exists url, AnkerGames.scrape_game (AnkerGames.new_page site url) url
              = Ok item.
Proof.
  unfold AnkerGames.main.
  destruct (AnkerGames.get_game_links site) as [links | e]; [| discriminate].
  cbn [rbind]. intros [= <-] H.
  apply scrape_all_In in H as (url & _ & E). eauto.
Qed.

End AnkerFacts.

(* ===================================================================== *)
(** * Properties of RepackGames                                           *)
(* ===================================================================== *)

Module RepackFacts.
Import Py RepackGames Spec.
Local Open Scope Z_scope.
Local Open Scope repack_scope.

Ltac destruct_get url t e G :=
  match goal with
  | |- context [session_get ?l url] =>
      destruct (session_get l url) as [t | e] eqn:G
  end.

(** Names the state an [emit] leaves and records that it only extends
    the log. *)
Ltac step_emit snew F :=
  match goal with
  | |- context [emit ?e ?st] =>
      pose (snew := mk_state (log st ++ [e]) (games_data st)
                             (total_games_parsed st));
      change (emit e st) with (@Ok unit tt, snew);
      assert (games_data snew = games_data st
              /\ exists l, log snew = (log st ++ l)%list) as F
        by (split; [reflexivity | unfold snew; cbn [log]; eauto]);
      clearbody snew; cbv iota beta
  end.

Section Facts.
Context {W : World}.

Lemma range_0_3 : range 0 3 = [0; 1; 2].
Proof. reflexivity. Qed.

Lemma get_page_content_spec url s :
  exists o n,
    get_page_content url s
    = (Ok o, mk_state (log s ++ EAcquire :: attempt_trace url n ++ [ERelease])
                      (games_data s) (total_games_parsed s))
    /\ (1 <= n <= 3)%nat
    /\ (o = None -> n = 3%nat)
    /\ (forall html, o = Some html -> exists l, session_get l url = Ok html)
    /\ (always_fails url -> o = None).
Proof.
  unfold get_page_content, bind, finally, emit. rewrite range_0_3.
  cbn [attempts]. unfold try_except, bind, emit, http_get, ret.
  cbn [log games_data total_games_parsed fst snd].
  destruct_get url t1 e1 G1;
    [ exists (Some t1), 1%nat
    | cbn;
      destruct_get url t2 e2 G2;
      [ exists (Some t2), 2%nat
      | cbn;
        destruct_get url t3 e3 G3;
        [ exists (Some t3), 3%nat | exists None, 3%nat ] ] ];
    cbn; rewrite <- !app_assoc; cbn;
    (split; [reflexivity |]);
    (split; [lia |]);
    (split; [congruence |]);
    (split;
     [ intros html [= <-]; eauto
     | try congruence; intros F;
       match goal with
       | G : session_get ?l url = Ok _ |- _ =>
           destruct (F l) as [e E]; congruence
       end ]).
Qed.


Lemma frame_refl s : frame s s.
Proof. split; [reflexivity | exists []; now rewrite app_nil_r]. Qed.

Lemma frame_trans s1 s2 s3 : frame s1 s2 -> frame s2 s3 -> frame s1 s3.
Proof.
  intros [G1 [l1 L1]] [G2 [l2 L2]]. split; [congruence |].
  exists (l1 ++ l2)%list. rewrite L2, L1. now rewrite app_assoc.
Qed.

Lemma frame_emit e s : frame s (snd (emit e s)).
Proof. split; [reflexivity | now exists [e]]. Qed.

Lemma frame_In e s s' : frame s s' -> In e (log s) -> In e (log s').
Proof. intros [_ [l L]] H. rewrite L. apply in_or_app. now left. Qed.

Lemma get_page_content_frame url s o s' :
  get_page_content url s = (o, s') -> frame s s'.
Proof.
  destruct (get_page_content_spec url s) as (o' & n & E & _).
  rewrite E. intros [= <- <-]. split; [reflexivity | cbn [log]; eauto].
Qed.

Lemma get_page_content_fetches url s o s' :
  get_page_content url s = (o, s') -> In (EGet url 12000) (log s').
Proof.
  destruct (get_page_content_spec url s) as (o' & n & E & Hn & _).
  rewrite E. intros [= <- <-]. cbn [log].
  apply in_or_app. right. right. apply in_or_app. left.
  destruct n as [| [| [| n]]]; cbn; try lia; auto 10.
  apply in_or_app. right. right. right. now left.
Qed.

Lemma parse_game_info_spec url s :
  exists o s',
    parse_game_info url s = (Ok o, s')
    /\ frame s s'
    /\ (forall g, o = Some g -> leaf_record g /\ repackLinkSource g = url)
    /\ (always_fails url -> o = None).
Proof.
  unfold parse_game_info, try_except, bind.
  destruct (get_page_content_spec url s) as (o & n & E & _ & _ & Hsome & Hfail).
  pose proof (get_page_content_frame _ _ _ _ E) as F.
  rewrite E. clear E.
  set (s1 := mk_state _ _ _) in *.
  destruct o as [html |].
  2:{ exists None, s1. unfold ret. repeat split; auto; try apply F; congruence. }
  assert (always_fails url -> False) as NF by (intros A; specialize (Hfail A); congruence).
  destruct (str_truthy html) eqn:T; cbn [negb].
  2:{ exists None, s1. unfold ret. repeat split; auto; try apply F; try congruence; tauto. }
  unfold lift, clock, count_parsed_game, ret, emit.
  destruct (BeautifulSoup html) as [soup | e] eqn:B.
  2:{ do 2 eexists. split; [reflexivity |]. split.
      - eapply frame_trans; [exact F |]. apply (frame_emit (EGameError url e)).
      - split; [congruence | tauto]. }
  destruct (parse_date_info soup (datetime_now (log s1))) as [d | e] eqn:D.
  2:{ do 2 eexists. split; [reflexivity |]. split.
      - eapply frame_trans; [exact F |]. apply (frame_emit (EGameError url e)).
      - split; [congruence | tauto]. }
  destruct (extract_download_links soup) as [| u us] eqn:L.
  { do 2 eexists. split; [reflexivity |]. split; [exact F |].
    split; [congruence | tauto]. }
  do 2 eexists. split; [reflexivity |]. split.
  { destruct F as [G [l Hl]]. split; [exact G | exists l; exact Hl]. }
  split; [| tauto].
  intros g [= <-]. split; [| reflexivity].
  destruct (Hsome html eq_refl) as [l Hl].
  exists l, (log s1), html, soup. cbn.
  rewrite L. repeat split; auto; congruence.
Qed.


Lemma gather_spec {A} (P : result A -> Prop) (tasks : list (M A)) :
  (forall t, In t tasks ->
     forall s r s', t s = (r, s') -> frame s s' /\ P r) ->
  forall s, exists rs s',
    gather tasks s = (Ok rs, s')
    /\ frame s s' /\ Forall P rs /\ List.length rs = List.length tasks.
Proof.
  induction tasks as [| t ts IH]; intros H s.
  - exists [], s. cbn. unfold ret.
    split; [reflexivity |]. split; [apply frame_refl |]. split; auto.
  - cbn [gather]. destruct (t s) as [r s1] eqn:E.
    destruct (H t (or_introl eq_refl) _ _ _ E) as [F1 Pr].
    destruct (IH (fun t' Ht' => H t' (or_intror Ht')) s1)
      as (rs & s2 & E2 & F2 & Prs & Len).
    rewrite E2. exists (r :: rs), s2.
    split; [reflexivity |]. split; [eauto using frame_trans |].
    split; [constructor; auto |]. cbn. now rewrite Len.
Qed.

Lemma valid_games_Forall (P : game -> Prop) results :
  Forall (fun r => forall g, r = Ok (Some g) -> P g) results ->
  Forall P (valid_games results).
Proof.
  induction 1 as [| r rs Hr _ IH]; cbn; auto.
  destruct r as [[g |] | e]; auto.
Qed.

(** The leaf pages of one listing, fetched and parsed together. *)
Lemma gather_games_spec links s :
  exists rs s',
    gather (map parse_game_info links) s = (Ok rs, s')
    /\ frame s s'
    /\ Forall leaf_record (valid_games rs).
Proof.
  destruct (gather_spec
              (fun r => forall g, r = Ok (Some g) -> leaf_record g)
              (map parse_game_info links)) with (s := s)
    as (rs & s' & E & F & Prs & _).
  - intros t Ht s0 r s0' E0. apply in_map_iff in Ht as (url & <- & _).
    destruct (parse_game_info_spec url s0) as (o & s1 & E1 & F1 & L1 & _).
    rewrite E1 in E0. injection E0 as <- <-. split; [exact F1 |].
    intros g [= ->]. now apply L1.
  - exists rs, s'. auto using valid_games_Forall.
Qed.

Lemma range_In lo hi p : In p (range lo hi) <-> lo <= p < hi.
Proof.
  unfold range. rewrite in_map_iff. split.
  - intros (i & <- & Hi). apply in_seq in Hi. lia.
  - intros H. exists (Z.to_nat (p - lo)). split; [lia |].
    apply in_seq. lia.
Qed.

Lemma parse_category_page_and_games_spec name url page s r s' :
  parse_category_page_and_games name url page s = (r, s') ->
  frame s s'
  /\ (forall gs, r = Ok gs -> Forall leaf_record gs)
  /\ In (EGet (page_url url page) 12000) (log s').
Proof.
  unfold parse_category_page_and_games. cbv zeta. unfold bind at 1.
  destruct (get_page_content (page_url url page) s) as [ro s1] eqn:E.
  pose proof (get_page_content_frame _ _ _ _ E) as F.
  pose proof (get_page_content_fetches _ _ _ _ E) as G.
  destruct (get_page_content_spec (page_url url page) s) as (o & n & E' & _).
  rewrite E in E'. injection E' as -> _.
  unfold bind, lift, ret.
  assert (forall r0, r0 = Ok [] \/ (exists e, r0 = Raise e) ->
            frame s s1 /\ (forall gs, r0 = Ok gs -> Forall leaf_record gs)
            /\ In (EGet (page_url url page) 12000) (log s1)) as Done.
  { intros r0 H0. split; [exact F |]. split; [| exact G].
    intros gs ->. destruct H0 as [[= ->] | [e [=]]]. constructor. }
  destruct (is_404_page o) as [[|] | e].
  1, 3: intros [= <- <-]; apply Done; eauto.
  destruct (match o with Some html => BeautifulSoup html | None => Raise TypeError end)
    as [soup | e].
  2: intros [= <- <-]; apply Done; eauto.
  destruct (extract_game_links_from_category soup) as [| link links].
  1: intros [= <- <-]; apply Done; eauto.
  destruct (gather_games_spec (link :: links) s1) as (rs & s2 & E2 & F2 & L2).
  rewrite E2. intros [= <- <-].
  split; [apply (frame_trans _ _ _ F F2) |].
  split; [intros gs [= <-]; exact L2 | eauto using frame_In].
Qed.


Lemma pages_loop_spec name max_pages url pages :
  forall all_games completed s,
  exists res s',
    pages_loop name max_pages
      (map (parse_category_page_and_games name url) pages)
      all_games completed s = (Ok res, s')
    /\ frame s s'
    /\ (Forall leaf_record all_games -> Forall leaf_record (fst res))
    /\ (forall p, In p pages -> In (EGet (page_url url p) 12000) (log s')).
Proof.
  induction pages as [| p ps IH]; intros all_games completed s.
  - exists (all_games, completed), s. cbn. unfold ret.
    split; [reflexivity |]. split; [apply frame_refl |]. split; tauto.
  - cbn [map pages_loop]. unfold bind at 1. unfold try_except, bind at 1.
    destruct (parse_category_page_and_games name url p s) as [r s1] eqn:E.
    destruct (parse_category_page_and_games_spec _ _ _ _ _ _ E) as (F & L & G).
    destruct r as [gs | e].
    + unfold bind, emit, ret.
      set (s2 := mk_state _ _ _).
      assert (frame s s2) as F2.
      { eapply frame_trans; [exact F |]. split; [reflexivity |].
        subst s2. cbn [log]. eauto. }
      destruct (IH (all_games ++ gs)%list (completed + 1) s2)
        as (res & s' & E' & F' & L' & G').
      rewrite E'. exists res, s'.
      split; [reflexivity |]. split; [eauto using frame_trans |].
      split.
      * intros A. apply L'. apply Forall_app. split; auto.
      * intros q [<- | Hq]; [| auto].
        apply (frame_In _ s2 s' F'). subst s2. cbn [log].
        apply in_or_app. now left.
    + unfold ret.
      destruct (IH all_games completed s1) as (res & s' & E' & F' & L' & G').
      rewrite E'. exists res, s'.
      split; [reflexivity |]. split; [eauto using frame_trans |].
      split; [exact L' |].
      intros q [<- | Hq]; [| auto]. eauto using frame_In.
Qed.

Lemma parse_category_with_pagination_spec name url s :
  exists r s',
    parse_category_with_pagination name url s = (r, s')
    /\ frame s s'
    /\ (forall gs, r = Ok gs -> Forall leaf_record gs)
    /\ (forall o s1, first_listing name url s = (Ok o, s1) ->
          opt_truthy o = false -> r = Ok [])
    /\ (forall html soup total s1,
          first_listing name url s = (Ok (Some html), s1) ->
          str_truthy html = true ->
          BeautifulSoup html = Ok soup ->
          get_total_pages_from_pagination soup = Ok total ->
          exists gs, r = Ok gs /\
          forall p, 2 <= p <= max_pages_of total ->
                    In (EGet (page_url url p) 12000) (log s')).
Proof.
  unfold parse_category_with_pagination, first_listing.
  unfold bind at 1. step_emit s0 F0. cbn [snd].
  unfold bind at 1.
  destruct (get_page_content url s0) as [ro s1] eqn:E.
  pose proof (get_page_content_frame _ _ _ _ E) as F1.
  destruct (get_page_content_spec url s0) as (o & n & E' & _).
  rewrite E in E'. injection E' as -> _.
  destruct (opt_truthy o) eqn:T; cbn [negb].
  2:{ unfold bind at 1. step_emit s2 F2. unfold ret.
      do 2 eexists. split; [reflexivity |].
      split; [eauto using frame_trans |].
      split; [intros gs [= <-]; constructor |].
      split; [reflexivity |].
      intros html soup total s1' [= -> _] Hh. cbn in T. congruence. }
  destruct o as [html |]; [| discriminate]. cbn in T.
  unfold bind at 1. unfold lift at 1.
  destruct (BeautifulSoup html) as [soup | e] eqn:B.
  2:{ do 2 eexists. split; [reflexivity |].
      split; [eauto using frame_trans |].
      split; [congruence |].
      split; [intros o' s1' [= <- _]; cbn; congruence |].
      intros html' soup' total s1' [= <- _]. congruence. }
  unfold bind at 1. unfold lift at 1.
  destruct (get_total_pages_from_pagination soup) as [total | e] eqn:TP.
  2:{ do 2 eexists. split; [reflexivity |].
      split; [eauto using frame_trans |].
      split; [congruence |].
      split; [intros o' s1' [= <- _]; cbn; congruence |].
      intros html' soup' total s1' [= <- _] _ B'. congruence. }
  fold (max_pages_of total).
  unfold bind at 1. step_emit s2 F2.
  unfold bind at 1.
  assert (exists gs1 s3,
            match extract_game_links_from_category soup with
            | [] => ret []
            | _ :: _ =>
                game_results <-
                  gather (map parse_game_info
                            (extract_game_links_from_category soup)) ;;
                ret (valid_games game_results)
            end s2 = (Ok gs1, s3)
            /\ frame s2 s3 /\ Forall leaf_record gs1)
    as (gs1 & s3 & E3 & F3 & L3).
  { destruct (extract_game_links_from_category soup) as [| link links].
    - exists [], s2. unfold ret. auto using frame_refl.
    - destruct (gather_games_spec (link :: links) s2)
        as (rs & s3 & E3 & F3 & L3).
      unfold bind, ret. rewrite E3. eauto. }
  rewrite E3. clear E3.
  unfold bind at 1. step_emit s4 F4.
  unfold bind at 1.
  assert (exists res s5,
            (if 1 <? max_pages_of total
             then pages_loop name (max_pages_of total)
                    (map (parse_category_page_and_games name url)
                         (range 2 (max_pages_of total + 1)))
                    gs1 1
             else ret (gs1, 1)) s4 = (Ok res, s5)
            /\ frame s4 s5
            /\ Forall leaf_record (fst res)
            /\ (forall p, 2 <= p <= max_pages_of total ->
                          In (EGet (page_url url p) 12000) (log s5)))
    as (res & s5 & E5 & F5 & L5 & G5).
  { destruct (1 <? max_pages_of total) eqn:C.
    - destruct (pages_loop_spec name (max_pages_of total) url
                  (range 2 (max_pages_of total + 1)) gs1 1 s4)
        as (res & s5 & E5 & F5 & L5 & G5).
      exists res, s5. split; [exact E5 |]. split; [exact F5 |].
      split; [auto |]. intros p Hp. apply G5. apply range_In. lia.
    - exists (gs1, 1), s4. unfold ret. split; [reflexivity |].
      split; [apply frame_refl |]. split; [exact L3 |].
      apply Z.ltb_ge in C. intros p Hp. lia. }
  rewrite E5. clear E5.
  unfold bind at 1. step_emit s6 F6. unfold ret.
  do 2 eexists. split; [reflexivity |].
  split; [eauto 10 using frame_trans |].
  split; [intros gs [= <-]; exact L5 |].
  split; [intros o' s1' [= <- _]; cbn; congruence |].
  intros html' soup' total' s1' [= <- _] _ B' TP'.
  assert (soup' = soup) as -> by congruence.
  assert (total' = total) as -> by congruence.
  eexists. split; [reflexivity |].
  intros p Hp. eauto using frame_In.
Qed.


(** ** The fields of a leaf record *)

Lemma strptime_midnight text fmt d :
  strptime text fmt = Ok d ->
  valid_datetime d = true /\ microsecond d = 0 /\ tzinfo d = None.
Proof.
  unfold strptime.
  destruct (strp_match _ _ _ _ _) as [[[y m] dd] |]; [| discriminate].
  intros N. apply PyFacts.datetime_new_inv in N as [C ->].
  unfold valid_datetime. cbn. now rewrite C.
Qed.

Lemma replace_year_midnight d y d' :
  valid_datetime d = true /\ microsecond d = 0 /\ tzinfo d = None ->
  replace_year d y = Ok d' ->
  valid_datetime d' = true /\ microsecond d' = 0 /\ tzinfo d' = None.
Proof.
  intros (Hv & Hu & Ht). unfold replace_year.
  intros R. apply PyFacts.replace_ymd_inv in R as [C ->].
  unfold valid_datetime in *. cbn.
  apply andb_true_iff in Hv as [_ Hv]. now rewrite C, Hv.
Qed.

Lemma adjust_year_midnight d d' :
  valid_datetime d = true /\ microsecond d = 0 /\ tzinfo d = None ->
  adjust_year d = Ok d' ->
  valid_datetime d' = true /\ microsecond d' = 0 /\ tzinfo d' = None.
Proof.
  intros H. unfold adjust_year.
  destruct (year d <? 30); [eauto using replace_year_midnight |].
  destruct (year d <? 100); [| now intros [= <-]].
  destruct (year d <? 50); eauto using replace_year_midnight.
Qed.

(** Without microseconds and without a time zone, [isoformat] stops at
    the seconds. *)
Lemma isoformat_midnight d :
  microsecond d = 0 -> tzinfo d = None ->
  isoformat d ++ ".000Z" = ymd_hms d ".000Z".
Proof.
  intros Hu Ht. unfold isoformat. rewrite Hu, Ht. reflexivity.
Qed.

Lemma try_date_formats_shape date_str formats x :
  try_date_formats date_str formats = Ok (Some x) ->
  is_iso8601_ms_z x = true.
Proof.
  induction formats as [| f rest IH]; cbn [try_date_formats]; [discriminate |].
  destruct (strptime date_str f) as [d |[]] eqn:P; cbn [rbind]; auto;
    try discriminate.
  destruct (adjust_year d) as [d' |[]] eqn:A; auto; try discriminate.
  clear IH. intros H.
  assert (x = isoformat d' ++ ".000Z") as -> by congruence. clear H.
  destruct (adjust_year_midnight d d' (strptime_midnight _ _ _ P) A)
    as (Hv & Hu & Ht).
  rewrite isoformat_midnight by assumption.
  now apply PyFacts.ymd_hms_ms_z_shape.
Qed.

Lemma search_date_patterns_shape info_text patterns r :
  search_date_patterns info_text patterns = Ok r ->
  r = None \/ exists x, r = Some x /\ is_iso8601_ms_z x = true.
Proof.
  induction patterns as [| pat rest IH]; cbn [search_date_patterns].
  - intros [= <-]. now left.
  - destruct (re_search pat true info_text) as [[date_str g2] |]; [| exact IH].
    destruct (try_date_formats date_str date_formats) as [u | e] eqn:T;
      [| discriminate].
    cbn [rbind]. destruct (opt_truthy u) eqn:O; [| exact IH].
    intros [= <-]. destruct u as [x |]; [| discriminate].
    right. exists x. split; [reflexivity |].
    eapply try_date_formats_shape; eauto.
Qed.

Lemma search_relative_patterns_shape time_text now upload_date patterns r :
  search_relative_patterns time_text now upload_date patterns = Ok r ->
  r = upload_date
  \/ exists delta calculated_date,
       datetime_sub now delta = Ok calculated_date
       /\ r = Some (isoformat calculated_date ++ ".000Z").
Proof.
  induction patterns as [| pat rest IH]; cbn [search_relative_patterns].
  - intros [= <-]. now left.
  - destruct (re_search pat true time_text) as [[g1 g2] |]; [| exact IH].
    destruct (int_of_str g1) as [value | e]; [| discriminate]. cbn [rbind].
    destruct (relative_delta (lower g2) value) as [delta |]; [| exact IH].
    destruct (datetime_sub now delta) as [calc | e] eqn:S; [| discriminate].
    cbn [rbind]. intros [= <-]. right. eauto.
Qed.

Lemma parse_date_info_shape soup now r :
  parse_date_info soup now = Ok r ->
  r = None
  \/ (exists x, r = Some x /\ is_iso8601_ms_z x = true)
  \/ (exists delta calculated_date,
        datetime_sub now delta = Ok calculated_date
        /\ r = Some (isoformat calculated_date ++ ".000Z")).
Proof.
  unfold parse_date_info.
  destruct (match game_info soup with
            | Some info_text => search_date_patterns info_text date_patterns
            | None => Ok None
            end) as [u | e] eqn:G; [| discriminate].
  assert (u = None \/ exists x, u = Some x /\ is_iso8601_ms_z x = true) as Hu.
  { destruct (game_info soup) as [info_text |].
    - eapply search_date_patterns_shape; eauto.
    - injection G as <-. now left. }
  cbn [rbind].
  destruct Hu as [-> | (x & -> & Hx)].
  - cbn [opt_truthy negb].
    destruct (time_article soup) as [text |]; [| intros [= <-]; now left].
    intros H. apply search_relative_patterns_shape in H as [-> | H]; auto.
  - destruct x as [| c x]; [discriminate |]. cbn [opt_truthy str_truthy negb].
    intros [= <-]. right. left. eauto.
Qed.

(** *** What [parse_date_info] returns, source by source *)







Lemma parse_file_size_loop_unknown info_text patterns :
  (forall pattern, In pattern patterns ->
                   re_search pattern true info_text = None) ->
  parse_file_size_loop info_text patterns = "Unknown".
Proof.
  induction patterns as [| pat rest IH]; intros H; cbn [parse_file_size_loop].
  - reflexivity.
  - rewrite (H pat (or_introl eq_refl)). apply IH.
    intros q Hq. apply H. now right.
Qed.

Lemma parse_file_size_unresolved soup :
  size_unresolved soup -> parse_file_size (game_info soup) = "Unknown".
Proof.
  unfold size_unresolved, parse_file_size.
  destruct (game_info soup) as [info_text |]; [| reflexivity].
  apply parse_file_size_loop_unknown.
Qed.

Lemma collect_results_spec results :
  forall names s, exists s',
    collect_results names results s = (Ok tt, s')
    /\ games_data s' = (games_data s ++ concat_ok results)%list
    /\ exists l, log s' = (log s ++ l)%list.
Proof.
  induction results as [| r rs IH]; intros names s.
  - exists s. cbn. unfold ret. rewrite !app_nil_r.
    repeat split. exists []. now rewrite app_nil_r.
  - destruct r as [gs | e]; cbn [collect_results concat_ok].
    + unfold bind, extend_games_data.
      destruct (IH (tl names) (mk_state (log s) (games_data s ++ gs)
                                        (total_games_parsed s)))
        as (s' & E & G & L).
      rewrite E. exists s'. cbn in G, L.
      split; [reflexivity |]. split; [now rewrite G, app_assoc | exact L].
    + unfold bind, emit.
      destruct (IH (tl names)
                  (mk_state (log s ++ [ECategoryError (hd "" names) e])
                            (games_data s) (total_games_parsed s)))
        as (s' & E & G & [l L]).
      rewrite E. exists s'. cbn in G, L.
      split; [reflexivity |]. split; [exact G |].
      rewrite L, <- app_assoc. eauto.
Qed.

Lemma gather_categories_spec self s :
  exists results s1,
    gather (category_tasks self) s = (Ok results, s1)
    /\ frame s s1
    /\ Forall (fun r => forall gs, r = Ok gs -> Forall leaf_record gs) results
    /\ List.length results = List.length (categories self).
Proof.
  destruct (gather_spec
              (fun r => forall gs, r = Ok gs -> Forall leaf_record gs)
              (category_tasks self)) with (s := s)
    as (rs & s1 & E & F & P & Len).
  - intros t Ht s0 r s0' E0. apply in_map_iff in Ht as ([name url] & <- & _).
    destruct (parse_category_with_pagination_spec name url s0)
      as (r1 & s1 & E1 & F1 & L1 & _).
    cbn [fst snd] in E0. rewrite E1 in E0. injection E0 as <- <-. auto.
  - exists rs, s1. unfold category_tasks in Len. rewrite length_map in Len. auto.
Qed.

Lemma parse_all_categories_spec self s :
  exists results s1 s',
    gather (category_tasks self) s = (Ok results, s1)
    /\ parse_all_categories self s = (Ok tt, s')
    /\ games_data s' = (games_data s ++ concat_ok results)%list
    /\ (exists l, log s' = (log s ++ l)%list).
Proof.
  destruct (gather_categories_spec self s) as (rs & s1 & E & [G [l1 L1]] & _).
  unfold parse_all_categories. fold (category_tasks self).
  unfold bind at 1. rewrite E.
  unfold bind at 1.
  destruct (collect_results_spec rs (map fst (categories self)) s1)
    as (s2 & E2 & G2 & [l2 L2]).
  rewrite E2. unfold bind, current_games_data, emit.
  exists rs, s1. eexists. split; [reflexivity |]. split; [reflexivity |].
  cbn [games_data log]. split; [congruence |].
  rewrite L2, L1, <- !app_assoc. eauto.
Qed.

Lemma run_spec self s :
  exists results s1 s',
    gather (category_tasks self) s = (Ok results, s1)
    /\ run self s = (Ok tt, s')
    /\ games_data s' = (games_data s ++ concat_ok results)%list
    /\ (exists l, log s' = (log s ++ l ++ [ESave "repackgames.json" (games_data s')])%list).
Proof.
  destruct (parse_all_categories_spec self s)
    as (rs & s1 & s2 & E & E2 & G2 & [l2 L2]).
  unfold run, try_except, bind at 1. rewrite E2.
  unfold save_to_json, bind, current_games_data, emit.
  exists rs, s1. eexists. split; [exact E |]. split; [reflexivity |].
  cbn [games_data log]. split; [exact G2 |].
  exists l2. now rewrite L2, <- app_assoc.
Qed.

(** Every record a run leaves in [games_data] was read from a leaf page. *)
Lemma run_output_leaf_records self g :
  In g (games_data (snd (run self initial_state))) -> leaf_record g.
Proof.
  destruct (run_spec self initial_state) as (rs & s1 & s' & E & R & G & _).
  rewrite R. cbn [snd]. rewrite G. cbn [games_data initial_state app].
  destruct (gather_categories_spec self initial_state)
    as (rs' & s1' & E' & _ & P & _).
  rewrite E in E'. injection E' as <- <-.
  clear - P. induction P as [| r rs Hr _ IH]; cbn; [tauto |].
  destruct r as [gs | e]; [| exact IH].
  rewrite in_app_iff. intros [H | H]; [| auto].
  specialize (Hr gs eq_refl). rewrite Forall_forall in Hr. auto.
Qed.

Lemma fetched_In url l : fetched url l = true -> In (EGet url 12000) l.
Proof.
  unfold fetched. rewrite existsb_exists. intros (e & He & H).
  destruct e; try discriminate.
  apply andb_true_iff in H as [Hu Ht].
  apply String.eqb_eq in Hu. apply Z.eqb_eq in Ht. now subst.
Qed.

(** ** The claims on the crawler *)

Lemma count_source_app url a b :
  count_source url (a ++ b)
  = (count_source url a + count_source url b)%nat.
Proof.
  unfold count_source. now rewrite filter_app, length_app.
Qed.

Lemma count_source_concat_ok url results :
  count_source url (concat_ok results) = sum_sources url results.
Proof.
  induction results as [| [gs | e] rest IH]; cbn [concat_ok sum_sources];
    [reflexivity | | exact IH].
  now rewrite count_source_app, IH.
Qed.

(** C1 (amended): the Run Orchestrator appends the record lists of the
    categories that returned one, in category order, to its result and
    removes nothing: a source URL occurs in the final record set once for
    every crawl path that produced a record for it. *)
Theorem orchestrator_keeps_every_occurrence
    (self : RepackGamesParser) (s : state) :
  exists results s1 s',
    gather (category_tasks self) s = (Ok results, s1)
    /\ parse_all_categories self s = (Ok tt, s')
    /\ games_data s' = (games_data s ++ concat_ok results)%list
    /\ forall url,
         count_source url (games_data s')
         = (count_source url (games_data s) + sum_sources url results)%nat.
Proof.
  destruct (parse_all_categories_spec self s) as (rs & s1 & s' & E & P & G & _).
  exists rs, s1, s'. repeat (split; [assumption |]).
  intros url. now rewrite G, count_source_app, count_source_concat_ok.
Qed.

Lemma dead_page_yields_nothing name url page s o s' :
  get_page_content (page_url url page) s = (Ok o, s') ->
  is_404_page o = Ok true ->
  parse_category_page_and_games name url page s = (Ok [], s').
Proof.
  intros E D. unfold parse_category_page_and_games. cbv zeta.
  unfold bind at 1. rewrite E. unfold bind at 1, lift at 1. rewrite D.
  reflexivity.
Qed.

(** C2 (amended): when a category's first listing page carries no
    page-count marker, the Category Crawler takes 999 as the number of
    pages and requests every page from 2 to 999, whatever the pages before
    it contain; a page that matches the not-found predicate contributes no
    record and does not end the probing. *)
Theorem probing_requests_every_page
    (name url : string) (s : state) (html : string) (soup : Soup)
    (s1 : state) :
  first_listing name url s = (Ok (Some html), s1) ->
  str_truthy html = true ->
  BeautifulSoup html = Ok soup ->
  get_total_pages_from_pagination soup = Ok None ->
  exists gs s',
    parse_category_with_pagination name url s = (Ok gs, s')
    /\ (forall p, 2 <= p <= 999 ->
                  In (EGet (page_url url p) 12000) (log s'))
    /\ (forall page s0 o s0',
          get_page_content (page_url url page) s0 = (Ok o, s0') ->
          is_404_page o = Ok true ->
          parse_category_page_and_games name url page s0 = (Ok [], s0')).
Proof.
  intros E T B P.
  destruct (parse_category_with_pagination_spec name url s)
    as (r & s' & R & _ & _ & _ & C).
  destruct (C html soup None s1 E T B P) as (gs & -> & G).
  exists gs, s'. split; [exact R |]. split; [exact G |].
  intros page s0 o s0'. apply dead_page_yields_nothing.
Qed.

Lemma failing_listing_yields_nothing name url page s :
  always_fails (page_url url page) ->
  exists s', parse_category_page_and_games name url page s = (Ok [], s').
Proof.
  intros A.
  destruct (get_page_content_spec (page_url url page) s)
    as (o & n & E & _ & _ & _ & F).
  rewrite (F A) in E. eexists.
  eapply dead_page_yields_nothing; [exact E | reflexivity].
Qed.

Lemma failing_category_yields_nothing name url s :
  always_fails url ->
  exists s', parse_category_with_pagination name url s = (Ok [], s').
Proof.
  intros A.
  destruct (parse_category_with_pagination_spec name url s)
    as (r & s' & R & _ & _ & N & _).
  destruct (get_page_content_spec url
              (snd (emit (EProgress ("Processing category: " ++ name)) s)))
    as (o & n & E & _ & _ & _ & F).
  rewrite (F A) in E. rewrite (N None _ E eq_refl) in R. eauto.
Qed.

(** C5: for every URL [get_page_content] makes between one and three
    requests inside one semaphore slot, each with a 12 s timeout and 10 ms
    after the start or the previous back-off, with a 150 ms back-off before
    the second and the third; it always returns, and returns [None] only
    after three requests.  When every request to the URL fails it returns
    [None], and the Category Crawler yields no record and raises nothing,
    whether the URL is the category's first listing page, a further
    listing page or a leaf page. *)
Theorem fetcher_retries_then_gives_up (url : string) (s : state) :
  exists o n,
    get_page_content url s
    = (Ok o, mk_state (log s ++ EAcquire :: attempt_trace url n ++ [ERelease])
                      (games_data s) (total_games_parsed s))
    /\ (1 <= n <= 3)%nat
    /\ (o = None -> n = 3%nat)
    /\ (always_fails url ->
        o = None
        /\ (forall name s0, exists s0',
              parse_category_with_pagination name url s0 = (Ok [], s0'))
        /\ (forall name category_url page s0,
              page_url category_url page = url ->
              exists s0',
                parse_category_page_and_games name category_url page s0
                = (Ok [], s0'))
        /\ (forall s0, exists s0', parse_game_info url s0 = (Ok None, s0'))).
Proof.
  destruct (get_page_content_spec url s) as (o & n & E & Hn & Hnone & _ & F).
  exists o, n. repeat (split; [assumption |]).
  intros A. split; [auto |]. split; [| split].
  - intros name s0. now apply failing_category_yields_nothing.
  - intros name category_url page s0 <-.
    now apply failing_listing_yields_nothing.
  - intros s0.
    destruct (parse_game_info_spec url s0) as (o' & s0' & E' & _ & _ & F').
    rewrite (F' A) in E'. eauto.
Qed.

Lemma collect_results_reports results :
  forall names s i e,
    nth_error results i = Some (Raise e) ->
    In (ECategoryError (nth i names "") e)
       (log (snd (collect_results names results s))).
Proof.
  induction results as [| r rs IH]; intros names s i e H.
  - destruct i; discriminate.
  - assert (forall k, nth (S k) names "" = nth k (tl names) "") as Tl.
    { intros k. destruct names; [destruct k |]; reflexivity. }
    destruct i as [| i]; cbn [nth_error] in H.
    + injection H as ->. cbn [collect_results]. unfold bind, emit.
      destruct (collect_results_spec rs (tl names)
                  (mk_state (log s ++ [ECategoryError (hd "" names) e])
                            (games_data s) (total_games_parsed s)))
        as (s' & E & _ & [l L]).
      rewrite E. cbn [snd]. rewrite L. cbn [log].
      apply in_or_app. left. apply in_or_app. right.
      destruct names; now left.
    + rewrite Tl. destruct r as [gs | e0]; cbn [collect_results];
        unfold bind, extend_games_data, emit; apply IH; exact H.
Qed.

Lemma concat_ok_In {A} (results : list (result (list A))) gs (g : A) :
  In (Ok gs) results -> In g gs -> In g (concat_ok results).
Proof.
  induction results as [| r rs IH]; intros H Hg; [destruct H |].
  destruct H as [-> | H]; cbn [concat_ok].
  - apply in_or_app. now left.
  - destruct r; [apply in_or_app; right |]; auto.
Qed.

(** C6: the Orchestrator collects one result per category, an exception
    included; it appends every list to the final records and reports every
    exception with the name of its category; it never raises, and neither
    does the run around it.  A category whose first listing page could not
    be fetched returns the empty list. *)
Theorem category_failures_are_isolated
    (self : RepackGamesParser) (s : state) :
  exists results s1 s',
    gather (category_tasks self) s = (Ok results, s1)
    /\ List.length results = List.length (categories self)
    /\ parse_all_categories self s = (Ok tt, s')
    /\ (forall gs g, In (Ok gs) results -> In g gs -> In g (games_data s'))
    /\ (forall i e,
          nth_error results i = Some (Raise e) ->
          In (ECategoryError (nth i (map fst (categories self)) "") e)
             (log s'))
    /\ (exists s'', run self s = (Ok tt, s'')
                    /\ games_data s'' = games_data s')
    /\ (forall name url s0 o s0',
          first_listing name url s0 = (Ok o, s0') ->
          opt_truthy o = false ->
          exists s0'', parse_category_with_pagination name url s0
                       = (Ok [], s0'')).
Proof.
  destruct (gather_categories_spec self s) as (rs & s1 & E & _ & _ & Len).
  destruct (parse_all_categories_spec self s)
    as (rs' & s1' & s' & E' & P & G & _).
  rewrite E in E'. injection E' as <- <-.
  exists rs, s1, s'. repeat (split; [assumption |]).
  split; [| split; [| split]].
  - intros gs g Hgs Hg. rewrite G. apply in_or_app. right.
    eapply concat_ok_In; eauto.
  - intros i e H.
    pose proof (collect_results_reports rs (map fst (categories self)) s1 i e H)
      as R.
    revert P. unfold parse_all_categories. fold (category_tasks self).
    unfold bind at 1. rewrite E. unfold bind at 1.
    destruct (collect_results (map fst (categories self)) rs s1)
      as [[[] | e0] s2]; cbn [snd] in R.
    + unfold bind, current_games_data, emit. intros [= <-]. cbn [log].
      apply in_or_app. now left.
    + discriminate.
  - destruct (run_spec self s) as (rs' & s1' & s'' & E' & R & G' & _).
    rewrite E in E'. injection E' as <- <-.
    exists s''. split; [exact R | congruence].
  - intros name url s0 o s0' F T.
    destruct (parse_category_with_pagination_spec name url s0)
      as (r & s0'' & R & _ & _ & N & _).
    rewrite (N o s0' F T) in R. eauto.
Qed.

(** C9: [is_404_page] answers [True] on [None] and on the empty text, so
    a listing page whose fetch returned nothing is handled as a not-found
    page is: [parse_category_page_and_games] returns the empty list and
    raises nothing. *)
Theorem absent_content_is_dead :
  is_404_page None = Ok true
  /\ is_404_page (Some "") = Ok true
  /\ (forall html_content,
        opt_truthy html_content = false ->
        is_404_page html_content = Ok true)
  /\ (forall name url page s o s',
        get_page_content (page_url url page) s = (Ok o, s') ->
        opt_truthy o = false ->
        parse_category_page_and_games name url page s = (Ok [], s'))
  /\ (forall name url page s o s',
        get_page_content (page_url url page) s = (Ok o, s') ->
        is_404_page o = Ok true ->
        parse_category_page_and_games name url page s = (Ok [], s')).
Proof.
  assert (forall html_content,
            opt_truthy html_content = false ->
            is_404_page html_content = Ok true) as D.
  { intros h T. unfold is_404_page. now rewrite T. }
  split; [reflexivity |]. split; [reflexivity |]. split; [exact D |].
  split.
  - intros name url page s o s' E T.
    eapply dead_page_yields_nothing; eauto.
  - intros name url page s o s'. apply dead_page_yields_nothing.
Qed.

End Facts.
End RepackFacts.

Module SchedFacts.
Import Py RepackGames Spec.
Local Open Scope Z_scope.

Section Facts.
Context {W : World}.

Lemma slot_balance_app l1 l2 :
  slot_balance (l1 ++ l2) = slot_balance l1 + slot_balance l2.
Proof.
  induction l1 as [| e l1 IH]; cbn [app slot_balance]; [lia |].
  destruct e; lia.
Qed.

Lemma in_flight_slots c : in_flight c = slots (tasks c).
Proof.
  unfold in_flight. induction (tasks c) as [| t ts IH]; [reflexivity |].
  cbn [filter slots]. unfold slot. destruct (holds_slot t); cbn [List.length]; lia.
Qed.

Lemma slots_app ts1 ts2 : slots (ts1 ++ ts2) = slots ts1 + slots ts2.
Proof. induction ts1 as [| t ts1 IH]; cbn [app slots]; lia. Qed.

Lemma task_step_slots t sem l t' sem' l' :
  task_step t sem l = (t', sem', l') ->
  sem' + slot t' = sem + slot t
  /\ (0 <= sem -> 0 <= sem')
  /\ slot_balance l' - slot t' = slot_balance l - slot t.
Proof.
  unfold task_step. destruct t as [url p]. cbn [task_url task_pc].
  destruct p as [| a | a | a | r].
  - destruct (0 <? sem) eqn:C; intros [= <- <- <-];
      rewrite ?slot_balance_app; cbn; apply Z.ltb_lt in C || apply Z.ltb_ge in C; lia.
  - intros [= <- <- <-]. rewrite slot_balance_app. cbn. lia.
  - destruct (session_get l url); [| destruct (a <? 2)];
      intros [= <- <- <-]; rewrite slot_balance_app; cbn; lia.
  - intros [= <- <- <-]. rewrite slot_balance_app. cbn. lia.
  - intros [= <- <- <-]. lia.
Qed.

Lemma step_nth_slots i : forall ts sem l ts' sem' l',
  step_nth i ts sem l = (ts', sem', l') ->
  sem' + slots ts' = sem + slots ts
  /\ (0 <= sem -> 0 <= sem')
  /\ slot_balance l' - slots ts' = slot_balance l - slots ts.
Proof.
  induction i as [| i IH]; intros [| t ts] sem l ts' sem' l'; cbn [step_nth].
  - intros [= <- <- <-]. lia.
  - destruct (task_step t sem l) as [[t1 sem1] l1] eqn:E.
    intros [= <- <- <-]. apply task_step_slots in E. cbn [slots]. lia.
  - intros [= <- <- <-]. lia.
  - destruct (step_nth i ts sem l) as [[ts1 sem1] l1] eqn:E.
    intros [= <- <- <-]. apply IH in E. cbn [slots]. lia.
Qed.

Lemma sched_step_invariant c ch :
  let c' := sched_step c ch in
  sem_value c' + slots (tasks c') = sem_value c + slots (tasks c)
  /\ (0 <= sem_value c -> 0 <= sem_value c')
  /\ slot_balance (net_log c') - slots (tasks c')
     = slot_balance (net_log c) - slots (tasks c).
Proof.
  destruct ch as [url | i]; cbn [sched_step].
  - cbn [sem_value tasks net_log]. rewrite slots_app. cbn. lia.
  - destruct (step_nth i (tasks c) (sem_value c) (net_log c))
      as [[ts sem] l] eqn:E.
    cbn [sem_value tasks net_log]. now apply step_nth_slots in E.
Qed.

Lemma run_schedule_invariant schedule : forall c,
  let c' := run_schedule schedule c in
  sem_value c' + slots (tasks c') = sem_value c + slots (tasks c)
  /\ (0 <= sem_value c -> 0 <= sem_value c')
  /\ slot_balance (net_log c') - slots (tasks c')
     = slot_balance (net_log c) - slots (tasks c).
Proof.
  induction schedule as [| ch rest IH]; intros c; cbn [run_schedule fold_left].
  - lia.
  - pose proof (sched_step_invariant c ch) as S. cbv zeta in S.
    specialize (IH (sched_step c ch)). cbv zeta in IH.
    unfold run_schedule in IH. lia.
Qed.

Lemma attempt_trace_balance url n : slot_balance (attempt_trace url n) = 0.
Proof.
  induction n as [| n IH]; [reflexivity |].
  destruct n as [| n]; [reflexivity |].
  change (attempt_trace url (S (S n)))
    with (attempt_trace url (S n) ++ [ESleep 150; ESleep 10; EGet url 12000])%list.
  rewrite slot_balance_app, IH. reflexivity.
Qed.

Lemma get_page_content_balance url s :
  slot_balance (log (snd (get_page_content url s))) = slot_balance (log s).
Proof.
  destruct (RepackFacts.get_page_content_spec url s) as (o & n & E & _).
  rewrite E. cbn [snd log].
  rewrite slot_balance_app. cbn [slot_balance].
  rewrite slot_balance_app, attempt_trace_balance. cbn. lia.
Qed.

(** A fetch that the event loop runs on its own goes through the events
    of [get_page_content] and returns what it returns. *)
Lemma solo_fetch_agrees url s sem :
  0 < sem ->
  exists o s',
    get_page_content url s = (Ok o, s')
    /\ run_schedule (repeat (Resume 0) 9)
                    (mk_config sem [mk_task url Waiting] (log s))
       = mk_config sem [mk_task url (Returned o)] (log s').
Proof.
  intros Hsem. apply Z.ltb_lt in Hsem.
  unfold get_page_content, bind, finally, emit.
  rewrite RepackFacts.range_0_3.
  cbn [attempts]. unfold try_except, bind, emit, http_get, ret.
  cbn [log games_data total_games_parsed fst snd].
  cbn [repeat run_schedule fold_left].
  unfold sched_step at 9. cbn [tasks sem_value net_log step_nth].
  unfold task_step at 1. cbn [task_url task_pc]. rewrite Hsem.
  unfold sched_step at 8. cbn [tasks sem_value net_log step_nth].
  unfold task_step at 1. cbn [task_url task_pc].
  unfold sched_step at 7. cbn [tasks sem_value net_log step_nth].
  unfold task_step at 1. cbn [task_url task_pc].
  RepackFacts.destruct_get url t1 e1 G1.
  { do 2 eexists. split; [reflexivity |]. cbn.
    rewrite <- !app_assoc. cbn. f_equal. ring. }
  cbn - [Z.add Z.sub app].
  RepackFacts.destruct_get url t2 e2 G2.
  { do 2 eexists. split; [reflexivity |]. cbn.
    rewrite <- !app_assoc. cbn. f_equal. ring. }
  cbn - [Z.add Z.sub app].
  RepackFacts.destruct_get url t3 e3 G3.
  { do 2 eexists. split; [reflexivity |]. cbn.
    rewrite <- !app_assoc. cbn.
    rewrite <- !app_assoc in G3. cbn in G3. rewrite G3.
    f_equal. ring. }
  do 2 eexists. split; [reflexivity |]. cbn.
  rewrite <- !app_assoc. cbn.
  rewrite <- !app_assoc in G3. cbn in G3. rewrite G3.
  f_equal. ring.
Qed.

Lemma step_nth_at i : forall ts sem l t,
  nth_error ts i = Some t ->
  step_nth i ts sem l
  = ((firstn i ts ++ fst (fst (task_step t sem l)) :: skipn (S i) ts)%list,
     snd (fst (task_step t sem l)), snd (task_step t sem l)).
Proof.
  induction i as [| i IH]; intros [| t0 ts] sem l t H; try discriminate.
  - injection H as <-. cbn [step_nth firstn skipn app].
    now destruct (task_step t0 sem l) as [[t' sem'] l'].
  - cbn [nth_error] in H. cbn [step_nth]. rewrite (IH ts sem l t H).
    reflexivity.
Qed.

Lemma step_nth_none i : forall ts sem l,
  nth_error ts i = None -> step_nth i ts sem l = (ts, sem, l).
Proof.
  induction i as [| i IH]; intros [| t0 ts] sem l H; try discriminate;
    try reflexivity.
  cbn [nth_error] in H. cbn [step_nth]. now rewrite (IH ts sem l H).
Qed.

Lemma nth_error_replaced {A} i : forall (ts : list A) t t',
  nth_error ts i = Some t ->
  nth_error (firstn i ts ++ t' :: skipn (S i) ts)%list i = Some t'.
Proof.
  induction i as [| i IH]; intros [| t0 ts] t t' H; try discriminate.
  - reflexivity.
  - cbn [nth_error] in H. cbn. eauto.
Qed.

Lemma firstn_nth_skipn {A} i : forall (ts : list A) t,
  nth_error ts i = Some t ->
  ts = (firstn i ts ++ t :: skipn (S i) ts)%list.
Proof.
  induction i as [| i IH]; intros [| t0 ts] t H; try discriminate.
  - now injection H as <-.
  - cbn [nth_error] in H. cbn. f_equal. auto.
Qed.

Lemma attempt_trace_next url k :
  (before_attempt url k ++ [ESleep 10; EGet url 12000])%list
  = attempt_trace url (S k).
Proof.
  destruct k as [| k]; [reflexivity |].
  unfold before_attempt. rewrite <- app_assoc. reflexivity.
Qed.

Lemma attempt_trace_events url n :
  forallb (attempt_event url) (attempt_trace url n) = true.
Proof.
  induction n as [| n IH]; [reflexivity |].
  destruct n as [| n].
  - cbn. now rewrite String.eqb_refl.
  - change (attempt_trace url (S (S n)))
      with (attempt_trace url (S n)
            ++ [ESleep 150; ESleep 10; EGet url 12000])%list.
    rewrite forallb_app, IH. cbn. now rewrite String.eqb_refl.
Qed.

Lemma before_attempt_events url k :
  forallb (attempt_event url) (before_attempt url k) = true.
Proof.
  destruct k as [| k]; [reflexivity |]. unfold before_attempt.
  rewrite forallb_app, attempt_trace_events. reflexivity.
Qed.

Lemma exact_history_fetch_history t own :
  exact_history t own -> fetch_history t own.
Proof.
  unfold exact_history, fetch_history.
  destruct (task_pc t) as [| a | a | a | r]; auto.
  - intros [_ ->]. eexists. split; [reflexivity |].
    apply before_attempt_events.
  - intros [_ ->]. eexists. split; [reflexivity |].
    rewrite forallb_app, before_attempt_events. reflexivity.
  - intros [_ ->]. eexists. split; [reflexivity |].
    apply attempt_trace_events.
Qed.

(** One move of a task: what it appends and where it goes. *)
Lemma task_step_history t sem l own :
  exact_history t own ->
  exists evs,
    snd (task_step t sem l) = (l ++ evs)%list
    /\ exact_history (fst (fst (task_step t sem l))) (own ++ evs)
    /\ (forall k u d, nth_error evs k = Some (EGet u d) ->
                      k = 0%nat /\ holds_slot t = true).
Proof.
  destruct t as [url p]. unfold exact_history, task_step, holds_slot.
  cbn [task_url task_pc].
  destruct p as [| a | a | a | r].
  - intros ->. destruct (0 <? sem).
    + exists [EAcquire]. cbn [fst snd task_pc task_url app].
      split; [reflexivity |]. split; [split; [lia | reflexivity] |].
      intros [| [| k]] u d; discriminate.
    + exists []. cbn [fst snd task_pc]. rewrite app_nil_r.
      split; [reflexivity |]. split; [reflexivity |].
      intros [| k] u d; discriminate.
  - intros [Ha ->]. exists [ESleep 10]. cbn [fst snd task_pc task_url].
    split; [reflexivity |]. split; [split; [lia | reflexivity] |].
    intros [| [| k]] u d; discriminate.
  - intros [Ha ->].
    assert (exists n : nat,
              (1 <= n <= 3)%nat
              /\ ((EAcquire :: before_attempt url (Z.to_nat a)
                   ++ [ESleep 10]) ++ [EGet url 12000; ERelease])%list
                 = (EAcquire :: attempt_trace url n ++ [ERelease])%list)
      as Done.
    { exists (S (Z.to_nat a)). split; [lia |].
      rewrite <- attempt_trace_next. cbn [app].
      rewrite <- !app_assoc. reflexivity. }
    assert (forall (k : nat) u d (tail : list event),
              nth_error (EGet url 12000 :: tail) k = Some (EGet u d) ->
              tail = [] \/ tail = [ERelease] ->
              k = 0%nat /\ true = true) as Pos.
    { intros [| [| [| k]]] u d tail H [-> | ->]; try discriminate; auto. }
    destruct (session_get l url) as [text | e].
    + exists [EGet url 12000; ERelease]. cbn [fst snd task_pc task_url].
      split; [reflexivity |]. split.
      * destruct Done as (n & Hn & E). eauto.
      * intros k u d H. eapply Pos; eauto.
    + destruct (a <? 2) eqn:C.
      * apply Z.ltb_lt in C.
        exists [EGet url 12000]. cbn [fst snd task_pc task_url].
        split; [reflexivity |]. split.
        -- split; [lia |]. rewrite <- attempt_trace_next. cbn [app].
           rewrite <- !app_assoc. reflexivity.
        -- intros k u d H. eapply Pos; eauto.
      * exists [EGet url 12000; ERelease]. cbn [fst snd task_pc task_url].
        split; [reflexivity |]. split.
        -- destruct Done as (n & Hn & E). eauto.
        -- intros k u d H. eapply Pos; eauto.
  - intros [Ha ->]. exists [ESleep 150]. cbn [fst snd task_pc task_url].
    split; [reflexivity |]. split.
    + split; [lia |].
      replace (Z.to_nat (a + 1)) with (S (Z.to_nat a)) by lia.
      unfold before_attempt. cbn [app]. reflexivity.
    + intros [| [| k]] u d; discriminate.
  - intros H. exists []. cbn [fst snd task_pc]. rewrite !app_nil_r.
    split; [reflexivity |]. split; [exact H |].
    intros [| k] u d; discriminate.
Qed.

Lemma own_events_app i s1 : forall s2 c,
  own_events i (s1 ++ s2) c
  = (own_events i s1 c ++ own_events i s2 (run_schedule s1 c))%list.
Proof.
  induction s1 as [| ch s1 IH]; intros s2 c; [reflexivity |].
  cbn [app own_events run_schedule fold_left]. rewrite IH.
  unfold run_schedule. now rewrite app_assoc.
Qed.

Lemma run_schedule_app s1 s2 c :
  run_schedule (s1 ++ s2) c = run_schedule s2 (run_schedule s1 c).
Proof. unfold run_schedule. apply fold_left_app. Qed.

Lemma new_events_app evs (c c' : config) :
  net_log c' = (net_log c ++ evs)%list -> new_events c c' = evs.
Proof.
  intros E. unfold new_events. rewrite E.
  rewrite skipn_app, skipn_all, Nat.sub_diag. reflexivity.
Qed.

Lemma nth_error_replaced_other {A} j : forall (ts : list A) t t' i,
  nth_error ts j = Some t ->
  i <> j ->
  nth_error (firstn j ts ++ t' :: skipn (S j) ts)%list i = nth_error ts i.
Proof.
  induction j as [| j IH]; intros [| t0 ts] t t' i Hj N; try discriminate.
  - destruct i; [contradiction | reflexivity].
  - destruct i; [reflexivity |]. cbn [nth_error] in Hj.
    cbn. apply (IH ts t); congruence.
Qed.

(** The state of one move of the event loop. *)
Lemma sched_step_resume c j t :
  nth_error (tasks c) j = Some t ->
  tasks (sched_step c (Resume j))
  = (firstn j (tasks c)
     ++ fst (fst (task_step t (sem_value c) (net_log c)))
     :: skipn (S j) (tasks c))%list
  /\ net_log (sched_step c (Resume j))
     = snd (task_step t (sem_value c) (net_log c)).
Proof.
  intros Hj. cbn [sched_step]. rewrite (step_nth_at j _ _ _ _ Hj).
  cbn [tasks net_log]. auto.
Qed.

Lemma sched_step_idle c j :
  nth_error (tasks c) j = None ->
  tasks (sched_step c (Resume j)) = tasks c
  /\ net_log (sched_step c (Resume j)) = net_log c.
Proof.
  intros Hj. cbn [sched_step]. rewrite (step_nth_none j _ _ _ Hj).
  cbn [tasks net_log]. auto.
Qed.

Lemma histories_hold (c0 : config) (schedule : list choice) :
  tasks c0 = [] ->
  forall i,
    match nth_error (tasks (run_schedule schedule c0)) i with
    | Some t => exact_history t (own_events i schedule c0)
    | None => own_events i schedule c0 = []
    end.
Proof.
  intros Empty.
  induction schedule as [| ch sch IH] using rev_ind; intros i.
  - cbn. rewrite Empty. now destruct i.
  - rewrite run_schedule_app, own_events_app.
    set (c := run_schedule sch c0) in *.
    cbn [run_schedule fold_left own_events]. rewrite app_nil_r.
    specialize (IH i).
    destruct ch as [url | j].
    + rewrite app_nil_r. cbn [sched_step tasks].
      destruct (nth_error (tasks c) i) as [t |] eqn:Hi.
      * rewrite nth_error_app1 by (apply nth_error_Some; congruence).
        now rewrite Hi.
      * apply nth_error_None in Hi.
        destruct (Nat.eq_dec i (List.length (tasks c))) as [-> | N].
        -- rewrite nth_error_app2, Nat.sub_diag by lia. cbn. exact IH.
        -- rewrite (proj2 (nth_error_None _ _)); [exact IH |].
           rewrite length_app. cbn. lia.
    + destruct (nth_error (tasks c) j) as [t |] eqn:Hj.
      * destruct (sched_step_resume c j t Hj) as [Et El]. rewrite Et.
        destruct (Nat.eqb_spec j i) as [-> | N].
        -- rewrite Hj in IH.
           destruct (task_step_history t (sem_value c) (net_log c) _ IH)
             as (evs & L & H & _).
           rewrite (nth_error_replaced i _ t _ Hj).
           rewrite (new_events_app evs); [exact H |].
           now rewrite El.
        -- rewrite app_nil_r.
           rewrite (nth_error_replaced_other j _ t) by congruence. exact IH.
      * destruct (sched_step_idle c j Hj) as [Et El]. rewrite Et.
        destruct (Nat.eqb_spec j i) as [-> | N]; [| now rewrite app_nil_r].
        rewrite (new_events_app []); [now rewrite app_nil_r |].
        now rewrite El, app_nil_r.
Qed.

Lemma slot_nonneg t : 0 <= slot t <= 1.
Proof. unfold slot. destruct (holds_slot t); lia. Qed.

Lemma slots_nonneg ts : 0 <= slots ts.
Proof.
  induction ts as [| t ts IH]; cbn [slots]; [lia |].
  pose proof (slot_nonneg t). lia.
Qed.

Lemma slots_nth ts : forall j t,
  nth_error ts j = Some t -> slot t <= slots ts.
Proof.
  induction ts as [| t0 ts IH]; intros [| j] t H; try discriminate;
    cbn [slots].
  - injection H as <-. pose proof (slots_nonneg ts). lia.
  - cbn [nth_error] in H. pose proof (IH j t H). pose proof (slot_nonneg t0).
    lia.
Qed.

(** Every request of the log was sent while at least one slot and at
    most the ceiling were taken. *)
Lemma requests_under_slots (self : RepackGamesParser)
    (schedule : list choice) :
  0 <= max_concurrent self ->
  forall k u d,
    nth_error (net_log (run_schedule schedule (sched_init self))) k
    = Some (EGet u d) ->
    1 <= slot_balance
           (firstn k (net_log (run_schedule schedule (sched_init self))))
      <= max_concurrent self.
Proof.
  intros Hmax.
  induction schedule as [| ch sch IH] using rev_ind; intros k u d.
  - cbn. destruct k; discriminate.
  - rewrite run_schedule_app.
    pose proof (run_schedule_invariant sch (sched_init self)) as I.
    pose proof (histories_hold (sched_init self) sch eq_refl) as Hist.
    cbv zeta in I.
    set (c := run_schedule sch (sched_init self)) in *.
    cbn [sched_init sem_value tasks net_log slots slot_balance] in I.
    cbn [run_schedule fold_left].
    destruct ch as [url | j]; [cbn [sched_step net_log]; apply IH |].
    destruct (nth_error (tasks c) j) as [t |] eqn:Hj.
    2:{ destruct (sched_step_idle c j Hj) as [_ ->]. apply IH. }
    destruct (sched_step_resume c j t Hj) as [_ ->].
    specialize (Hist j). rewrite Hj in Hist.
    destruct (task_step_history t (sem_value c) (net_log c) _ Hist)
      as (evs & -> & _ & Pos).
    destruct (Nat.lt_ge_cases k (List.length (net_log c))) as [Lt | Ge].
    + rewrite nth_error_app1 by exact Lt.
      rewrite firstn_app.
      replace (k - List.length (net_log c))%nat with 0%nat by lia.
      cbn [firstn]. rewrite app_nil_r. apply IH.
    + rewrite nth_error_app2 by exact Ge. intros H.
      destruct (Pos _ _ _ H) as [K Hold].
      assert (k = List.length (net_log c)) as -> by lia.
      rewrite firstn_app, Nat.sub_diag, firstn_all. cbn [firstn].
      rewrite app_nil_r.
      pose proof (slots_nth _ _ _ Hj) as S. unfold slot in S.
      rewrite Hold in S. lia.
Qed.

(** C4: at every point of every interleaving of fetches, the fetches that
    hold a slot of the semaphore are at most as many as the ceiling the
    parser was built with, 160 by default: the counter of the semaphore
    and the fetches in flight add up to the ceiling, and the slots taken
    minus the slots given back so far is the number of fetches in flight.
    Every request in the log was sent while at least one slot and at most
    the ceiling were taken.  Every fetch has, of its own, appended nothing
    while it waits for a slot; the acquisition first and then only pauses
    and requests for its address while it holds the slot; and, once it
    has returned, exactly the acquisition, one to three attempts and the
    release.  [get_page_content] appends that same sequence and returns
    normally on every path, and a fetch the event loop runs on its own
    does what [get_page_content] does. *)
Theorem in_flight_within_ceiling (self : RepackGamesParser)
    (schedule : list choice) :
  0 <= max_concurrent self ->
  let c := run_schedule schedule (sched_init self) in
  in_flight c <= max_concurrent self
  /\ sem_value c + in_flight c = max_concurrent self
  /\ slot_balance (net_log c) = in_flight c
  /\ max_concurrent (new_parser None) = 160
  /\ (forall url s,
        slot_balance (log (snd (get_page_content url s)))
        = slot_balance (log s))
  /\ (forall k u d,
        nth_error (net_log c) k = Some (EGet u d) ->
        1 <= slot_balance (firstn k (net_log c)) <= max_concurrent self)
  /\ (forall i t,
        nth_error (tasks c) i = Some t ->
        fetch_history t (own_events i schedule (sched_init self)))
  /\ (forall url s,
        exists o n,
          get_page_content url s
          = (Ok o,
             mk_state (log s ++ EAcquire :: attempt_trace url n ++ [ERelease])
                      (games_data s) (total_games_parsed s))
          /\ (1 <= n <= 3)%nat)
  /\ (forall url s sem,
        0 < sem ->
        exists o s',
          get_page_content url s = (Ok o, s')
          /\ run_schedule (repeat (Resume 0) 9)
                          (mk_config sem [mk_task url Waiting] (log s))
             = mk_config sem [mk_task url (Returned o)] (log s')).
Proof.
  intros Hmax c.
  pose proof (run_schedule_invariant schedule (sched_init self)) as I.
  cbv zeta in I. fold c in I. rewrite in_flight_slots.
  cbn [sched_init sem_value tasks net_log slots slot_balance] in I.
  split; [lia |]. split; [lia |]. split; [lia |]. split; [reflexivity |].
  split; [apply get_page_content_balance |].
  split; [exact (requests_under_slots self schedule Hmax) |].
  split.
  { intros i t Hi. apply exact_history_fetch_history.
    pose proof (histories_hold (sched_init self) schedule eq_refl i) as H.
    fold c in H. now rewrite Hi in H. }
  split.
  { intros url s.
    destruct (RepackFacts.get_page_content_spec url s) as (o & n & E & N & _).
    eauto. }
  intros url s sem. apply solo_fetch_agrees.
Qed.

End Facts.
End SchedFacts.

(* ===================================================================== *)
(** * The records of the final output, in both programs                   *)
(* ===================================================================== *)

Module RecordFacts.
Import Py Spec.
Local Open Scope Z_scope.

(** C3 (amended): every record in the final output of the RepackGames
    crawler has a non-empty sequence of download URIs, a leaf page without
    a download link giving no record.  The AnkerGames scraper keeps an
    item for every game page it could scrape: its URI sequence holds the
    download link when one was found and is empty otherwise. *)
Theorem records_and_download_links :
  (forall (W : RepackGames.World) self g,
     In g (RepackGames.games_data
             (snd (RepackGames.run self RepackGames.initial_state))) ->
     RepackGames.uris g <> [])
  /\ (forall site limit items item,
        AnkerGames.main site limit = Ok items ->
        In item items ->
        exists url,
          AnkerGames.scrape_game (AnkerGames.new_page site url) url = Ok item
          /\ AnkerGames.uris item
             = match AnkerGames.extract_download_link
                       (AnkerGames.new_page site url) with
               | Some u => if str_truthy u then [u] else []
               | None => []
               end)
  /\ (forall site links url item,
        In url links ->
        AnkerGames.scrape_game (AnkerGames.new_page site url) url = Ok item ->
        In item (AnkerGames.scrape_all site links)).
Proof.
  split; [| split].
  - intros W self g H.
    destruct (RepackFacts.run_output_leaf_records self g H)
      as (l & l' & html & soup & _ & _ & _ & _ & _ & _ & N).
    exact N.
  - intros site limit items item M H.
    destruct (AnkerFacts.main_items site limit items item M H) as [url E].
    exists url. split; [exact E |].
    now apply AnkerFacts.scrape_game_fields in E.
  - intros site links url item Hu E. apply AnkerFacts.scrape_all_In. eauto.
Qed.


(** C8 (amended): for a record of the RepackGames output whose file size
    could not be read from the leaf page, [fileSize] is the text
    [Unknown]; for an item of the AnkerGames output whose file size could
    not be read from the page, [fileSize] is the empty string. *)
Theorem unresolved_size_sentinels :
  (forall (W : RepackGames.World) self g,
     In g (RepackGames.games_data
             (snd (RepackGames.run self RepackGames.initial_state))) ->
     exists l html soup,
       RepackGames.session_get l (RepackGames.repackLinkSource g) = Ok html
       /\ RepackGames.BeautifulSoup html = Ok soup
       /\ RepackGames.fileSize g
          = RepackGames.parse_file_size (RepackGames.game_info soup)
       /\ (size_unresolved soup -> RepackGames.fileSize g = "Unknown"))
  /\ (forall site limit items item,
        AnkerGames.main site limit = Ok items ->
        In item items ->
        exists url,
          AnkerGames.scrape_game (AnkerGames.new_page site url) url = Ok item
          /\ (AnkerGames.extract_file_size (AnkerGames.new_page site url)
              = None ->
              AnkerGames.fileSize item = "")).
Proof.
  split.
  - intros W self g H.
    destruct (RepackFacts.run_output_leaf_records self g H)
      as (l & l' & html & soup & G & B & _ & F & _).
    exists l, html, soup. repeat (split; [assumption |]).
    intros U. rewrite F. now apply RepackFacts.parse_file_size_unresolved.
  - intros site limit items item M H.
    destruct (AnkerFacts.main_items site limit items item M H) as [url E].
    exists url. split; [exact E |].
    apply AnkerFacts.scrape_game_fields in E as (_ & _ & F & _).
    intros N. now rewrite F, N.
Qed.

End RecordFacts.

(* ===================================================================== *)
(** * Runs on the concrete sites                                          *)
(* ===================================================================== *)

Module Runs.
Import Py Spec.
Local Open Scope Z_scope.

Example shared_leaf_output :
  @RepackGames.main_output Examples.shared_leaf_world
  = [Examples.shared_record; Examples.shared_record].
Proof. vm_compute. reflexivity. Qed.

(** C1 as stated fails: the Action and the Anime listing link to the same
    game page, and the final record set of the run holds two records with
    that source URL. *)
Lemma shared_leaf_survives_twice :
  count_source Examples.shared_game_url
               (@RepackGames.main_output Examples.shared_leaf_world) = 2%nat
  /\ ~ NoDup (map RepackGames.repackLinkSource
                  (@RepackGames.main_output Examples.shared_leaf_world)).
Proof.
  split; [vm_compute; reflexivity |].
  intros H. vm_compute in H.
  inversion H as [| x l Hn _]. apply Hn. now left.
Qed.

(** C2 as stated fails: pages 1 to 4 of the category are listings without
    a marker, page 5 matches the not-found predicate, and pages 6 and 999
    are requested all the same. *)
Lemma probing_goes_past_the_dead_page :
  @RepackGames.get_total_pages_from_pagination Examples.probing_world
    (Examples.listing_soup None) = Ok None
  /\ Forall (fun p =>
               Examples.probing_get [] (RepackGames.page_url Examples.action_url p)
               = Ok "listing, no marker")
            [1; 2; 3; 4]
  /\ @RepackGames.is_404_page Examples.probing_world
       (Some "listing, no marker") = Ok false
  /\ Examples.probing_get [] (RepackGames.page_url Examples.action_url 5)
     = Ok "error 404 page"
  /\ @RepackGames.is_404_page Examples.probing_world
       (Some "error 404 page") = Ok true
  /\ In (RepackGames.EGet (RepackGames.page_url Examples.action_url 6) 12000)
        Examples.probing_log
  /\ In (RepackGames.EGet (RepackGames.page_url Examples.action_url 999) 12000)
        Examples.probing_log
  /\ ~ (forall p,
          In (RepackGames.EGet (RepackGames.page_url Examples.action_url p)
                               12000) Examples.probing_log ->
          1 <= p <= 5).
Proof.
  assert (In (RepackGames.EGet (RepackGames.page_url Examples.action_url 6)
                               12000) Examples.probing_log) as Six.
  { apply RepackFacts.fetched_In. vm_compute. reflexivity. }
  split; [reflexivity |].
  split; [repeat constructor |].
  split; [reflexivity |].
  split; [reflexivity |].
  split; [reflexivity |].
  split; [exact Six |].
  split; [apply RepackFacts.fetched_In; vm_compute; reflexivity |].
  intros H. specialize (H 6 Six). lia.
Qed.

(** C2, a run of the theorem on that site. *)
Lemma probing_requests_every_page_witness :
  (@first_listing Examples.probing_world "Action" Examples.action_url
      RepackGames.initial_state
    = (Ok (Some "listing, no marker"),
       snd (@first_listing Examples.probing_world "Action"
              Examples.action_url RepackGames.initial_state))
   /\ str_truthy "listing, no marker" = true
   /\ @RepackGames.BeautifulSoup Examples.probing_world "listing, no marker"
      = Ok (Examples.listing_soup None)
   /\ @RepackGames.get_total_pages_from_pagination Examples.probing_world
        (Examples.listing_soup None) = Ok None)
  /\ exists gs s',
       @RepackGames.parse_category_with_pagination Examples.probing_world
         "Action" Examples.action_url RepackGames.initial_state = (Ok gs, s')
       /\ (forall p, 2 <= p <= 999 ->
             In (RepackGames.EGet (RepackGames.page_url Examples.action_url p)
                                  12000) (RepackGames.log s'))
       /\ (forall page s0 o s0',
             @RepackGames.get_page_content Examples.probing_world
               (RepackGames.page_url Examples.action_url page) s0 = (Ok o, s0') ->
             @RepackGames.is_404_page Examples.probing_world o = Ok true ->
             @RepackGames.parse_category_page_and_games Examples.probing_world
               "Action" Examples.action_url page s0 = (Ok [], s0')).
Proof.
  assert (@first_listing Examples.probing_world "Action" Examples.action_url
            RepackGames.initial_state
          = (Ok (Some "listing, no marker"),
             snd (@first_listing Examples.probing_world "Action"
                    Examples.action_url RepackGames.initial_state))) as H1
    by (vm_compute; reflexivity).
  assert (str_truthy "listing, no marker" = true) as H2 by reflexivity.
  assert (@RepackGames.BeautifulSoup Examples.probing_world "listing, no marker"
          = Ok (Examples.listing_soup None)) as H3 by reflexivity.
  assert (@RepackGames.get_total_pages_from_pagination Examples.probing_world
            (Examples.listing_soup None) = Ok None) as H4 by reflexivity.
  split; [auto |].
  exact (@RepackFacts.probing_requests_every_page Examples.probing_world
           "Action" Examples.action_url RepackGames.initial_state
           "listing, no marker" (Examples.listing_soup None) _ H1 H2 H3 H4).
Defined.

(** C3 as stated fails: the AnkerGames page shows no download link, and
    its item is written with an empty URI sequence. *)
Lemma bare_page_kept_without_links :
  AnkerGames.extract_download_link Examples.bare_page = None
  /\ AnkerGames.main Examples.bare_site None
     = Ok [AnkerGames.mk_DownloadItem "Bare Game" [] "" ""
                                      Examples.bare_game_url]
  /\ exists item,
       AnkerGames.main Examples.bare_site None = Ok [item]
       /\ AnkerGames.uris item = [].
Proof.
  split; [reflexivity |]. split; [reflexivity |].
  eexists. split; reflexivity.
Qed.

(** C4, a run of the theorem: two fetches are started and interleaved on
    the default parser; the first has returned and the second holds its
    slot. *)
Lemma in_flight_within_ceiling_witness :
  0 <= RepackGames.max_concurrent (RepackGames.new_parser None)
  /\ let c := @RepackGames.run_schedule Examples.shared_leaf_world
                Examples.interleaved_fetches
                (RepackGames.sched_init (RepackGames.new_parser None)) in
     RepackGames.in_flight c
     <= RepackGames.max_concurrent (RepackGames.new_parser None)
     /\ RepackGames.sem_value c + RepackGames.in_flight c
        = RepackGames.max_concurrent (RepackGames.new_parser None)
     /\ slot_balance (RepackGames.net_log c) = RepackGames.in_flight c
     /\ RepackGames.max_concurrent (RepackGames.new_parser None) = 160
     /\ (forall url s,
           slot_balance
             (RepackGames.log
                (snd (@RepackGames.get_page_content
                        Examples.shared_leaf_world url s)))
           = slot_balance (RepackGames.log s))
     /\ (forall k u d,
           nth_error (RepackGames.net_log c) k = Some (RepackGames.EGet u d) ->
           1 <= slot_balance (firstn k (RepackGames.net_log c))
             <= RepackGames.max_concurrent (RepackGames.new_parser None))
     /\ (forall i t,
           nth_error (RepackGames.tasks c) i = Some t ->
           fetch_history t
             (@own_events Examples.shared_leaf_world i
                Examples.interleaved_fetches
                (RepackGames.sched_init (RepackGames.new_parser None))))
     /\ (forall url s,
           exists o n,
             @RepackGames.get_page_content Examples.shared_leaf_world url s
             = (Ok o,
                RepackGames.mk_state
                  (RepackGames.log s
                   ++ RepackGames.EAcquire
                      :: attempt_trace url n ++ [RepackGames.ERelease])
                  (RepackGames.games_data s)
                  (RepackGames.total_games_parsed s))
             /\ (1 <= n <= 3)%nat)
     /\ (forall url s sem,
           0 < sem ->
           exists o s',
             @RepackGames.get_page_content Examples.shared_leaf_world url s
             = (Ok o, s')
             /\ @RepackGames.run_schedule Examples.shared_leaf_world
                  (repeat (RepackGames.Resume 0) 9)
                  (RepackGames.mk_config sem
                     [RepackGames.mk_task url RepackGames.Waiting]
                     (RepackGames.log s))
                = RepackGames.mk_config sem
                    [RepackGames.mk_task url (RepackGames.Returned o)]
                    (RepackGames.log s')).
Proof.
  assert (0 <= RepackGames.max_concurrent (RepackGames.new_parser None)) as H
    by (simpl; lia).
  split; [exact H |].
  exact (@SchedFacts.in_flight_within_ceiling Examples.shared_leaf_world
           (RepackGames.new_parser None) Examples.interleaved_fetches H).
Defined.

(** On that run the first fetch has appended its acquisition, one
    attempt and its release, and the second its acquisition and the pause
    before its request; the one request of the log was sent under two
    slots. *)
Example interleaved_histories :
  map RepackGames.task_pc
      (RepackGames.tasks
         (@RepackGames.run_schedule Examples.shared_leaf_world
            Examples.interleaved_fetches
            (RepackGames.sched_init (RepackGames.new_parser None))))
  = [RepackGames.Returned (Some "listing, page 1 of 1");
     RepackGames.Request 0]
  /\ @own_events Examples.shared_leaf_world 0 Examples.interleaved_fetches
       (RepackGames.sched_init (RepackGames.new_parser None))
     = [RepackGames.EAcquire; RepackGames.ESleep 10;
        RepackGames.EGet Examples.action_url 12000; RepackGames.ERelease]
  /\ @own_events Examples.shared_leaf_world 1 Examples.interleaved_fetches
       (RepackGames.sched_init (RepackGames.new_parser None))
     = [RepackGames.EAcquire; RepackGames.ESleep 10]
  /\ RepackGames.net_log
       (@RepackGames.run_schedule Examples.shared_leaf_world
          Examples.interleaved_fetches
          (RepackGames.sched_init (RepackGames.new_parser None)))
     = [RepackGames.EAcquire; RepackGames.EAcquire; RepackGames.ESleep 10;
        RepackGames.EGet Examples.action_url 12000; RepackGames.ERelease;
        RepackGames.ESleep 10].
Proof. repeat split; vm_compute; reflexivity. Qed.

(** With a ceiling of one slot the second fetch waits until the first has
    given the slot back. *)
Example one_slot_serialises :
  let c := @RepackGames.run_schedule Examples.shared_leaf_world
             [RepackGames.Spawn Examples.action_url;
              RepackGames.Spawn Examples.anime_url;
              RepackGames.Resume 0; RepackGames.Resume 1; RepackGames.Resume 1]
             (RepackGames.sched_init
                (RepackGames.mk_parser "" 1 [])) in
  map RepackGames.task_pc (RepackGames.tasks c)
  = [RepackGames.Jitter 0; RepackGames.Waiting]
  /\ RepackGames.sem_value c = 0
  /\ RepackGames.in_flight c = 1.
Proof. vm_compute. repeat split; reflexivity. Qed.

(** A URL that fails three times: the trace of the retries. *)
Example failing_fetch_trace :
  @RepackGames.get_page_content Examples.shared_leaf_world
    "https://repack-games.com/category/adventure-games/"
    RepackGames.initial_state
  = (Ok None,
     RepackGames.mk_state
       [RepackGames.EAcquire;
        RepackGames.ESleep 10;
        RepackGames.EGet "https://repack-games.com/category/adventure-games/" 12000;
        RepackGames.ESleep 150; RepackGames.ESleep 10;
        RepackGames.EGet "https://repack-games.com/category/adventure-games/" 12000;
        RepackGames.ESleep 150; RepackGames.ESleep 10;
        RepackGames.EGet "https://repack-games.com/category/adventure-games/" 12000;
        RepackGames.ERelease]
       [] 0).
Proof. vm_compute. reflexivity. Qed.

(** A category whose listing breaks the parser is reported, and the
    records of the other category are kept. *)
Example faulty_category_is_reported :
  @RepackGames.main_output Examples.faulty_world = [Examples.shared_record]
  /\ filter (fun e => match e with
                      | RepackGames.ECategoryError _ _ => true
                      | _ => false
                      end)
            (RepackGames.log
               (snd (@RepackGames.run Examples.faulty_world
                       (RepackGames.new_parser None)
                       RepackGames.initial_state)))
     = [RepackGames.ECategoryError "Anime" (RuntimeError "parser fault")].
Proof. split; vm_compute; reflexivity. Qed.


(** A date read from the game-info block has the timestamp shape. *)
Example dated_page_upload_date :
  @RepackGames.parse_date_info Examples.dated_world Examples.dated_soup
    (Examples.example_now [])
  = Ok (Some "2025-04-18T00:00:00.000Z")
  /\ is_iso8601_ms_z "2025-04-18T00:00:00.000Z" = true.
Proof. split; reflexivity. Qed.

(** A relative age keeps the microseconds of the clock in front of the
    appended [.000Z]; the text is not of the timestamp shape. *)
Example aged_page_upload_date :
  @RepackGames.parse_date_info Examples.aged_world Examples.aged_soup
    (Examples.example_now [])
  = Ok (Some "2025-01-07T12:00:00.123456.000Z")
  /\ is_iso8601_ms_z "2025-01-07T12:00:00.123456.000Z" = false.
Proof. split; reflexivity. Qed.

(** C8 as stated fails: the AnkerGames page shows no file size, and the
    [fileSize] of its item is the empty string, not [Unknown]. *)
Lemma bare_page_size_is_empty :
  AnkerGames.extract_file_size Examples.bare_page = None
  /\ exists item,
       AnkerGames.main Examples.bare_site None = Ok [item]
       /\ AnkerGames.fileSize item = ""
       /\ AnkerGames.fileSize item <> "Unknown".
Proof.
  split; [reflexivity |].
  eexists. split; [reflexivity |]. split; [reflexivity |]. discriminate.
Qed.

(** An AnkerGames page with every field: the date is six months before
    the clock, the link has lost its white space. *)
Example full_page_item :
  AnkerGames.scrape_game Examples.full_page "https://ankergames.net/game/full"
  = Ok (AnkerGames.mk_DownloadItem "Full Game V 1.5.0"
          ["https://files.example/fullgame.zip"]
          "2024-07-10T12:00:00.000Z" "40.0 GB"
          "https://ankergames.net/game/full").
Proof. reflexivity. Qed.

(** A date before the year 1000 is printed with a year of three digits;
    the text is not of the timestamp shape. *)
Example ancient_page_upload_date :
  AnkerGames.extract_last_updated_iso Examples.ancient_page
  = Ok (Some "999-12-10T12:00:00.000Z")
  /\ is_iso8601_ms_z "999-12-10T12:00:00.000Z" = false.
Proof. split; vm_compute; reflexivity. Qed.

(** A datetime of another time zone is converted before it is printed. *)
Example to_iso_utc_converts :
  AnkerGames.to_iso_utc (mk_datetime 2024 3 31 1 2 3 0 (Some (fixed_offset 330)))
  = Ok "2024-03-30T19:32:03.000Z"
  /\ AnkerGames.to_iso_utc
       (mk_datetime 1 1 1 0 0 0 0 (Some (fixed_offset 330)))
     = Raise OverflowError.
Proof. split; vm_compute; reflexivity. Qed.

End Runs.

(* ===================================================================== *)
(** * Further facts about texts and lists                                 *)
(* ===================================================================== *)

Module TextFacts.
Import Py Spec.

Lemma str_of_int_inj p q : str_of_int p = str_of_int q -> p = q.
Proof.
  unfold str_of_int. intros H.
  apply DecimalZ.to_int_inj.
  assert (forall z, Z.to_int z <> Decimal.Pos Decimal.Nil
                    /\ Z.to_int z <> Decimal.Neg Decimal.Nil) as NN.
  { intros [| x | x]; cbn; split; try discriminate;
      intros [= C]; now apply (DecimalPos.Unsigned.to_uint_nonnil x). }
  apply (f_equal NilZero.int_of_string) in H.
  rewrite !NilZero.isi in H by apply NN. congruence.
Qed.

Lemma existsb_eqb_false h links :
  existsb (String.eqb h) links = false <-> ~ In h links.
Proof.
  split.
  - intros E H. assert (existsb (String.eqb h) links = true) as T.
    { apply existsb_exists. exists h. split; [exact H | apply String.eqb_refl]. }
    congruence.
  - intros N. destruct (existsb (String.eqb h) links) eqn:E; [| reflexivity].
    apply existsb_exists in E as (x & Hx & Ex).
    apply String.eqb_eq in Ex. subst. contradiction.
Qed.

Lemma str_filter_forall p s : str_forall p (str_filter p s) = true.
Proof.
  induction s as [| c s IH]; cbn [str_filter]; [reflexivity |].
  destruct (p c) eqn:E; [| exact IH]. cbn [str_forall]. now rewrite E, IH.
Qed.

Lemma str_filter_empty p s :
  str_filter p s = "" <-> str_forall (fun c => negb (p c)) s = true.
Proof.
  induction s as [| c s IH]; cbn [str_filter str_forall]; [tauto |].
  destruct (p c); cbn [negb andb]; [split; discriminate | exact IH].
Qed.

End TextFacts.

(* ===================================================================== *)
(** * Further facts about ankergames.py                                   *)
(* ===================================================================== *)

Module AnkerExtras.
Import Py PyFacts Spec TextFacts.
Local Open Scope Z_scope.

Lemma check_date_fields_false y m d :
  ~ (1 <= y <= 9999 /\ 1 <= m <= 12 /\ 1 <= d <= _days_in_month_cal y m) ->
  check_date_fields y m d = false.
Proof.
  intros H. destruct (check_date_fields y m d) eqn:C; [| reflexivity].
  apply check_date_fields_true in C. contradiction.
Qed.

Lemma datetime_new_raises y m d t :
  check_date_fields y m d = false ->
  datetime_new y m d t
  = Raise (if fits_int y && fits_int m && fits_int d then ValueError
           else OverflowError).
Proof.
  intros C. unfold datetime_new. rewrite C.
  now destruct (fits_int y && fits_int m && fits_int d).
Qed.

Lemma fits_int_small n : -1000000 <= n <= 1000000 -> fits_int n = true.
Proof.
  intros H. unfold fits_int, INT_MIN, INT_MAX.
  rewrite andb_true_iff, !Z.leb_le. lia.
Qed.

Lemma days_in_month_char y m :
  AnkerGames._days_in_month y m
  = if measurable_month y m then Ok (_days_in_month_cal y m)
    else if overflowing_month y m then Raise OverflowError
    else Raise ValueError.
Proof.
  unfold measurable_month.
  destruct ((1 <=? y) && (y <=? 9999) && (1 <=? m) && (m <=? 12)
            && negb ((y =? 9999) && (m =? 12))) eqn:R.
  - rewrite !andb_true_iff, negb_true_iff, andb_false_iff, !Z.leb_le,
      !Z.eqb_neq in R.
    apply AnkerFacts.anker_days_in_month; lia.
  - assert (~ (1 <= y <= 9999 /\ 1 <= m <= 12 /\ (y < 9999 \/ m < 12))) as N.
    { intros (Hy & Hm & Hl).
      rewrite !andb_false_iff, negb_false_iff, andb_true_iff, !Z.leb_gt,
        !Z.eqb_eq in R. lia. }
    unfold AnkerGames._days_in_month, overflowing_month.
    destruct (m =? 12) eqn:E.
    + apply Z.eqb_eq in E. subst m.
      destruct (check_date_fields (y + 1) 1 1) eqn:C1.
      * rewrite (datetime_new_ok _ _ _ _ C1).
        apply check_date_fields_true in C1. cbn [rbind].
        rewrite datetime_new_raises by (apply check_date_fields_false; lia).
        rewrite !fits_int_small by lia. reflexivity.
      * rewrite (datetime_new_raises _ _ _ _ C1). cbn [rbind].
        rewrite (fits_int_small 1) by lia. rewrite !andb_true_r.
        now destruct (fits_int (y + 1)).
    + apply Z.eqb_neq in E.
      destruct (check_date_fields y (m + 1) 1) eqn:C1.
      * rewrite (datetime_new_ok _ _ _ _ C1).
        apply check_date_fields_true in C1. cbn [rbind].
        rewrite datetime_new_raises by (apply check_date_fields_false; lia).
        rewrite !fits_int_small by lia. reflexivity.
      * rewrite (datetime_new_raises _ _ _ _ C1). cbn [rbind].
        rewrite (fits_int_small 1) by lia. rewrite !andb_true_r.
        now destruct (fits_int y && fits_int (m + 1)).
Qed.

(** X1 ([_days_in_month]).  For a year from 1 to 9999 and a month from 1
    to 12, December 9999 apart, [_days_in_month] returns the calendar
    length of the month, a number from 28 to 31.  For every other year
    and month it raises: [OverflowError] when a number it hands to
    [datetime] is no C [int] (the year after [y] for December, [y] or
    [m + 1] otherwise), and [ValueError] in every other case. *)
Theorem days_in_month_defined (y m : Z) :
  (1 <= y <= 9999 /\ 1 <= m <= 12 /\ (y < 9999 \/ m < 12) ->
   AnkerGames._days_in_month y m = Ok (_days_in_month_cal y m)
   /\ 28 <= _days_in_month_cal y m <= 31)
  /\ (~ (1 <= y <= 9999 /\ 1 <= m <= 12 /\ (y < 9999 \/ m < 12)) ->
      AnkerGames._days_in_month y m
      = Raise (if overflowing_month y m then OverflowError else ValueError))
  /\ (overflowing_month y m = true <->
      (m = 12 /\ (y + 1 < -2147483648 \/ 2147483647 < y + 1))
      \/ (m <> 12 /\ (y < -2147483648 \/ 2147483647 < y
                       \/ m + 1 < -2147483648 \/ 2147483647 < m + 1))).
Proof.
  rewrite days_in_month_char. unfold measurable_month.
  split; [| split].
  - intros (Hy & Hm & Hl). split.
    + replace ((1 <=? y) && (y <=? 9999) && (1 <=? m) && (m <=? 12)
               && negb ((y =? 9999) && (m =? 12))) with true; [reflexivity |].
      symmetry.
      rewrite !andb_true_iff, negb_true_iff, andb_false_iff, !Z.leb_le,
        !Z.eqb_neq. lia.
    + now apply days_in_month_cal_bounds.
  - intros H.
    destruct ((1 <=? y) && (y <=? 9999) && (1 <=? m) && (m <=? 12)
              && negb ((y =? 9999) && (m =? 12))) eqn:R.
    + rewrite !andb_true_iff, negb_true_iff, andb_false_iff, !Z.leb_le,
        !Z.eqb_neq in R. exfalso. apply H. lia.
    + now destruct (overflowing_month y m).
  - unfold overflowing_month, fits_int, INT_MIN, INT_MAX.
    destruct (m =? 12) eqn:E;
      [apply Z.eqb_eq in E | apply Z.eqb_neq in E];
      rewrite negb_true_iff, ?andb_false_iff, !Z.leb_gt; lia.
Qed.

Lemma measurable_month_index idx :
  measurable_month (idx / 12) (idx mod 12 + 1) = true
  <-> 12 <= idx < 9999 * 12 + 11.
Proof.
  unfold measurable_month.
  rewrite !andb_true_iff, negb_true_iff, andb_false_iff, !Z.leb_le,
    !Z.eqb_neq.
  split; intros H; Z.div_mod_to_equations; lia.
Qed.

Lemma overflowing_month_index idx :
  overflowing_month (idx / 12) (idx mod 12 + 1)
  = (idx <? -25769803777) || (25769803775 <=? idx).
Proof.
  unfold overflowing_month, fits_int, INT_MIN, INT_MAX.
  destruct ((idx <? -25769803777) || (25769803775 <=? idx)) eqn:O.
  - apply orb_true_iff in O. rewrite Z.ltb_lt, Z.leb_le in O.
    destruct (idx mod 12 + 1 =? 12) eqn:E;
      [apply Z.eqb_eq in E | apply Z.eqb_neq in E];
      rewrite negb_true_iff, ?andb_false_iff, !Z.leb_gt;
      Z.div_mod_to_equations; lia.
  - apply orb_false_iff in O. rewrite Z.ltb_ge, Z.leb_gt in O.
    destruct (idx mod 12 + 1 =? 12) eqn:E;
      [apply Z.eqb_eq in E | apply Z.eqb_neq in E];
      rewrite negb_false_iff, ?andb_true_iff, !Z.leb_le;
      Z.div_mod_to_equations; lia.
Qed.

(** What [subtract_months] computes, on every valid datetime and every
    integer. *)
Lemma subtract_months_char dt m :
  valid_datetime dt = true ->
  AnkerGames.subtract_months dt m
  = let idx := month_index dt - m in
    if measurable_month (idx / 12) (idx mod 12 + 1)
    then Ok (mk_datetime (idx / 12) (idx mod 12 + 1)
               (Z.min (day dt)
                      (_days_in_month_cal (idx / 12) (idx mod 12 + 1)))
               (hour dt) (minute dt) (second dt) (microsecond dt)
               (tzinfo dt))
    else Raise (if (idx <? -25769803777) || (25769803775 <=? idx)
                then OverflowError else ValueError).
Proof.
  intros Hv. unfold AnkerGames.subtract_months, month_index. cbv zeta.
  set (idx := year dt * 12 + (month dt - 1) - m).
  rewrite days_in_month_char, overflowing_month_index.
  destruct (measurable_month (idx / 12) (idx mod 12 + 1)) eqn:M.
  2:{ now destruct ((idx <? -25769803777) || (25769803775 <=? idx)). }
  cbn [rbind].
  apply measurable_month_index in M.
  assert (1 <= idx mod 12 + 1 <= 12) as Hmo by (Z.div_mod_to_equations; lia).
  pose proof (days_in_month_cal_bounds (idx / 12) (idx mod 12 + 1) Hmo) as B.
  apply valid_datetime_fields in Hv.
  rewrite replace_ymd_ok; [reflexivity |].
  apply check_date_fields_true.
  split; [Z.div_mod_to_equations; lia |]. split; [exact Hmo | lia].
Qed.

(** X2 ([subtract_months]).  On a valid datetime [subtract_months]
    returns a valid datetime whose month index is the one of its argument
    less [months], exactly when that index lies between January of year 1
    and November 9999.  In every other case it raises: [ValueError] while
    the year it computes is still a C [int] (index from -25769803777 to
    25769803774), [OverflowError] beyond. *)
Theorem subtract_months_defined (dt : datetime) (m : Z) :
  valid_datetime dt = true ->
  (12 <= month_index dt - m < 9999 * 12 + 11 ->
   exists dt',
     AnkerGames.subtract_months dt m = Ok dt'
     /\ month_index dt' = month_index dt - m
     /\ valid_datetime dt' = true)
  /\ (-25769803777 <= month_index dt - m < 12
      \/ 9999 * 12 + 11 <= month_index dt - m < 25769803775 ->
      AnkerGames.subtract_months dt m = Raise ValueError)
  /\ (month_index dt - m < -25769803777
      \/ 25769803775 <= month_index dt - m ->
      AnkerGames.subtract_months dt m = Raise OverflowError).
Proof.
  intros Hv. rewrite (subtract_months_char dt m Hv). cbv zeta.
  split; [| split]; intros H.
  - rewrite (proj2 (measurable_month_index _) H).
    eexists. split; [reflexivity |]. split.
    + unfold month_index at 1. cbn [year month].
      Z.div_mod_to_equations; lia.
    + eapply AnkerFacts.subtract_months_valid; [exact Hv |].
      rewrite (subtract_months_char dt m Hv). cbv zeta.
      rewrite (proj2 (measurable_month_index _) H). reflexivity.
  - destruct (measurable_month _ _) eqn:M.
    { apply measurable_month_index in M. lia. }
    replace ((month_index dt - m <? -25769803777)
             || (25769803775 <=? month_index dt - m)) with false;
      [reflexivity |].
    symmetry. rewrite orb_false_iff, Z.ltb_ge, Z.leb_gt. lia.
  - destruct (measurable_month _ _) eqn:M.
    { apply measurable_month_index in M. lia. }
    replace ((month_index dt - m <? -25769803777)
             || (25769803775 <=? month_index dt - m)) with true;
      [reflexivity |].
    symmetry. rewrite orb_true_iff, Z.ltb_lt, Z.leb_le. lia.
Qed.

(** X3 ([subtract_months]).  Subtracting zero months from a valid
    datetime earlier than December 9999 returns that datetime unchanged. *)
Theorem subtract_zero_months (dt : datetime) :
  valid_datetime dt = true ->
  (year dt < 9999 \/ month dt < 12) ->
  AnkerGames.subtract_months dt 0 = Ok dt.
Proof.
  intros Hv Hl. rewrite (subtract_months_char dt 0 Hv). cbv zeta.
  pose proof Hv as Hf. apply valid_datetime_fields in Hf.
  unfold valid_datetime in Hv. apply andb_true_iff in Hv as [Hd _].
  apply check_date_fields_true in Hd.
  unfold month_index.
  assert ((year dt * 12 + (month dt - 1) - 0) / 12 = year dt) as ->
    by (Z.div_mod_to_equations; lia).
  assert ((year dt * 12 + (month dt - 1) - 0) mod 12 + 1 = month dt) as ->
    by (Z.div_mod_to_equations; lia).
  assert (measurable_month (year dt) (month dt) = true) as ->.
  { unfold measurable_month.
    rewrite !andb_true_iff, negb_true_iff, andb_false_iff, !Z.leb_le,
      !Z.eqb_neq. lia. }
  rewrite Z.min_l by lia. destruct dt; reflexivity.
Qed.

(** X4 ([subtract_months]).  Subtracting [a] months and then [b] months
    ends in the year and month, and at the time of day, of one subtraction
    of [a + b] months; the day is the smaller of the day after the first
    step and the day of the single subtraction, so it is never later. *)
Theorem subtract_months_in_two_steps (dt d1 d2 d3 : datetime) (a b : Z) :
  valid_datetime dt = true ->
  AnkerGames.subtract_months dt a = Ok d1 ->
  AnkerGames.subtract_months d1 b = Ok d2 ->
  AnkerGames.subtract_months dt (a + b) = Ok d3 ->
  year d2 = year d3 /\ month d2 = month d3
  /\ day d2 <= day d3
  /\ day d2 = Z.min (day d1) (day d3)
  /\ hour d2 = hour d3 /\ minute d2 = minute d3 /\ second d2 = second d3
  /\ microsecond d2 = microsecond d3 /\ tzinfo d2 = tzinfo d3.
Proof.
  intros Hv E1 E2 E3.
  pose proof (AnkerFacts.subtract_months_valid _ _ _ Hv E1) as Hv1.
  rewrite (subtract_months_char dt a Hv) in E1.
  rewrite (subtract_months_char d1 b Hv1) in E2.
  rewrite (subtract_months_char dt (a + b) Hv) in E3.
  cbv zeta in *.
  destruct (measurable_month _ _) eqn:M1 in E1; [| discriminate].
  destruct (measurable_month _ _) eqn:M2 in E2; [| discriminate].
  destruct (measurable_month _ _) eqn:M3 in E3; [| discriminate].
  injection E3 as <-. injection E2 as <-.
  assert (month_index d1 = month_index dt - a) as I1.
  { injection E1 as <-. unfold month_index at 1. cbn [year month].
    Z.div_mod_to_equations; lia. }
  assert (day d1 <= day dt /\ hour d1 = hour dt /\ minute d1 = minute dt
          /\ second d1 = second dt /\ microsecond d1 = microsecond dt
          /\ tzinfo d1 = tzinfo dt) as (Hd & Hh & Hmi & Hs & Hu & Ht).
  { injection E1 as <-. cbn. repeat split; try reflexivity. lia. }
  cbn [year month day hour minute second microsecond tzinfo].
  rewrite I1.
  replace (month_index dt - a - b) with (month_index dt - (a + b)) by ring.
  repeat split; try assumption; try reflexivity; lia.
Qed.

(** ** The listing of game pages *)

Lemma prefix_app a b c : String.prefix (a ++ b) (a ++ c) = String.prefix b c.
Proof.
  induction a as [| x a IH]; cbn; [reflexivity |].
  destruct (ascii_dec x x); [exact IH | contradiction].
Qed.

Lemma relative_game_href h :
  String.prefix "/game/" h = true ->
  (if String.prefix "/" h then AnkerGames.BASE_URL ++ h else h)
  = AnkerGames.BASE_URL ++ h
  /\ String.prefix (AnkerGames.BASE_URL ++ "/game/") (AnkerGames.BASE_URL ++ h)
     = true.
Proof.
  intros P. rewrite prefix_app. split; [| exact P].
  destruct h as [| c h]; [discriminate P |].
  cbn [String.prefix] in *.
  destruct (ascii_dec "/" c); [| discriminate P].
  now destruct h.
Qed.

Lemma absolute_game_href h :
  String.prefix (AnkerGames.BASE_URL ++ "/game/") h = true ->
  (if String.prefix "/" h then AnkerGames.BASE_URL ++ h else h) = h.
Proof.
  change (AnkerGames.BASE_URL ++ "/game/")
    with (String "h" "ttps://ankergames.net/game/").
  destruct h as [| c h]; [discriminate |].
  cbn [String.prefix].
  destruct (ascii_dec "h" c) as [<- |]; [| discriminate].
  intros _. destruct (ascii_dec "/" "h"); [discriminate | reflexivity].
Qed.

Lemma get_game_links_loop_spec hrefs : forall links,
  NoDup links ->
  Forall (fun l => String.prefix (AnkerGames.BASE_URL ++ "/game/") l = true)
         links ->
  NoDup (AnkerGames.get_game_links_loop hrefs links)
  /\ Forall (fun l => String.prefix (AnkerGames.BASE_URL ++ "/game/") l = true)
            (AnkerGames.get_game_links_loop hrefs links)
  /\ incl links (AnkerGames.get_game_links_loop hrefs links)
  /\ (forall h, In (Some h) hrefs ->
        String.prefix "/game/" h = true ->
        In (AnkerGames.BASE_URL ++ h)
           (AnkerGames.get_game_links_loop hrefs links))
  /\ (forall h, In (Some h) hrefs ->
        String.prefix (AnkerGames.BASE_URL ++ "/game/") h = true ->
        In h (AnkerGames.get_game_links_loop hrefs links)).
Proof.
  induction hrefs as [| o rest IH]; intros links N F;
    cbn [AnkerGames.get_game_links_loop].
  - repeat split; auto using incl_refl; intros h [].
  - assert (forall links',
              NoDup links' ->
              Forall (fun l => String.prefix (AnkerGames.BASE_URL ++ "/game/") l
                               = true) links' ->
              incl links links' ->
              (forall h, o = Some h ->
                 (String.prefix "/game/" h = true ->
                  In (AnkerGames.BASE_URL ++ h) links')
                 /\ (String.prefix (AnkerGames.BASE_URL ++ "/game/") h = true ->
                     In h links')) ->
              NoDup (AnkerGames.get_game_links_loop rest links')
              /\ Forall (fun l => String.prefix (AnkerGames.BASE_URL ++ "/game/") l
                                  = true)
                        (AnkerGames.get_game_links_loop rest links')
              /\ incl links (AnkerGames.get_game_links_loop rest links')
              /\ (forall h, In (Some h) (o :: rest) ->
                    String.prefix "/game/" h = true ->
                    In (AnkerGames.BASE_URL ++ h)
                       (AnkerGames.get_game_links_loop rest links'))
              /\ (forall h, In (Some h) (o :: rest) ->
                    String.prefix (AnkerGames.BASE_URL ++ "/game/") h = true ->
                    In h (AnkerGames.get_game_links_loop rest links'))) as Step.
    { intros links' N' F' I' Here.
      destruct (IH links' N' F') as (A & B & C & D & E).
      split; [exact A |]. split; [exact B |].
      split; [eapply incl_tran; eauto |]. split.
      - intros h [-> | Hh] P; [| now apply D].
        apply C. now apply (Here h eq_refl).
      - intros h [-> | Hh] P; [| now apply E].
        apply C. now apply (Here h eq_refl). }
    destruct o as [h |]; cbn [opt_truthy negb].
    2:{ apply Step; auto using incl_refl. intros h [=]. }
    destruct (str_truthy h) eqn:T; cbn [negb].
    2:{ apply Step; auto using incl_refl. intros h' [= <-].
        destruct h; [| discriminate T].
        split; intros P; vm_compute in P; discriminate P. }
    pose proof (relative_game_href h) as Rel.
    pose proof (absolute_game_href h) as Abs.
    cbv zeta.
    destruct (String.prefix (AnkerGames.BASE_URL ++ "/game/")
                (if String.prefix "/" h then AnkerGames.BASE_URL ++ h else h))
      eqn:P1; cbn [andb].
    2:{ apply Step; auto using incl_refl. intros h' [= <-]. split; intros P.
        - destruct (Rel P) as [R Q]. rewrite R in P1. congruence.
        - rewrite (Abs P) in P1. congruence. }
    destruct (existsb _ links) eqn:X; cbn [negb].
    + apply existsb_exists in X as (x & Hx & Ex). apply String.eqb_eq in Ex.
      subst x.
      apply Step; auto using incl_refl. intros h' [= <-]. split; intros P.
      * destruct (Rel P) as [R _]. rewrite R in Hx. exact Hx.
      * rewrite (Abs P) in Hx. exact Hx.
    + apply existsb_eqb_false in X.
      apply Step.
      * apply NoDup_app; [exact N | repeat constructor; intros [] | ].
        intros a Ha [<- | []]. contradiction.
      * apply Forall_app. split; [exact F | repeat constructor; exact P1].
      * apply incl_appl, incl_refl.
      * intros h' [= <-]. split; intros P; apply in_or_app; right; left.
        -- now destruct (Rel P).
        -- now apply Abs.
Qed.

(** X5 ([get_game_links]).  The links the loop of [get_game_links]
    collects are pairwise distinct and all start with
    "https://ankergames.net/game/"; every anchor whose address starts with
    "/game/" is collected with the site address put before it, and every
    anchor whose address already starts with the full prefix is collected
    as it is. *)
Theorem game_links_distinct_and_local (hrefs : list (option string)) :
  NoDup (AnkerGames.get_game_links_loop hrefs [])
  /\ Forall (fun l => String.prefix "https://ankergames.net/game/" l = true)
            (AnkerGames.get_game_links_loop hrefs [])
  /\ (forall h, In (Some h) hrefs ->
        String.prefix "/game/" h = true ->
        In ("https://ankergames.net" ++ h)
           (AnkerGames.get_game_links_loop hrefs []))
  /\ (forall h, In (Some h) hrefs ->
        String.prefix "https://ankergames.net/game/" h = true ->
        In h (AnkerGames.get_game_links_loop hrefs [])).
Proof.
  destruct (get_game_links_loop_spec hrefs [] (NoDup_nil _) (Forall_nil _))
    as (A & B & _ & D & E).
  repeat split; assumption.
Qed.

(** ** The download link of an item *)

(** X6 ([extract_download_link], [scrape_game]).  An item [scrape_game]
    returns holds no URI or exactly one, and that one is not empty and has
    no white space in it; it holds none exactly when the page shows no
    final anchor or the address of that anchor is white space only. *)
Theorem download_uri_is_clean (page : AnkerGames.Page) (url : string)
    (item : AnkerGames.DownloadItem) :
  AnkerGames.scrape_game page url = Ok item ->
  (AnkerGames.uris item = []
   \/ exists u, AnkerGames.uris item = [u] /\ u <> ""
                /\ str_forall (fun c => negb (is_space c)) u = true)
  /\ (AnkerGames.uris item = [] <->
      match AnkerGames.download_now_href page with
      | None => True
      | Some href => str_forall is_space href = true
      end).
Proof.
  intros E. apply AnkerFacts.scrape_game_fields in E as (_ & U & _).
  rewrite U. clear U. unfold AnkerGames.extract_download_link.
  destruct (AnkerGames.download_now_href page) as [href |].
  2:{ split; [now left | tauto]. }
  assert (str_forall is_space href = true
          <-> str_filter (fun c => negb (is_space c)) href = "") as Blank.
  { rewrite str_filter_empty. 
    assert (forall s, str_forall (fun c => negb (negb (is_space c))) s
                      = str_forall is_space s) as ->; [| tauto].
    induction s as [| c s IH]; cbn; [reflexivity |].
    now rewrite negb_involutive, IH. }
  destruct (str_truthy href) eqn:T.
  - destruct (str_filter (fun c => negb (is_space c)) href) as [| c u] eqn:F.
    + cbn [str_truthy]. split; [now left |]. tauto.
    + cbn [str_truthy]. split.
      * right. eexists. split; [reflexivity |]. split; [discriminate |].
        rewrite <- F. apply str_filter_forall.
      * split; [discriminate |]. intros B. apply Blank in B. discriminate.
  - destruct href; [| discriminate T]. split; [now left |]. cbn. tauto.
Qed.

(** ** The limit of [main] *)

Lemma scrape_all_sources site links :
  map AnkerGames.repackLinkSource (AnkerGames.scrape_all site links)
  = filter (scrapes site) links.
Proof.
  induction links as [| url rest IH]; [reflexivity |].
  cbn [AnkerGames.scrape_all filter]. unfold scrapes at 1.
  destruct (AnkerGames.scrape_game (AnkerGames.new_page site url) url)
    as [item | e] eqn:E; [| exact IH].
  cbn [map]. apply AnkerFacts.scrape_game_fields in E as (-> & _).
  now rewrite IH.
Qed.

Lemma filter_length_le {A} (f : A -> bool) l :
  (List.length (filter f l) <= List.length l)%nat.
Proof.
  induction l as [| x l IH]; cbn; [lia |]. destruct (f x); cbn; lia.
Qed.

(** X7 ([main]).  The items [main] writes are those of the links it
    kept whose page could be scraped, in the order of the links; there
    are no more items than links, no more than [limit] when the limit is
    not negative, and a negative limit drops that many links from the end
    of the listing. *)
Theorem main_respects_limit (site : AnkerGames.Site) (limit : option Z)
    (items : list AnkerGames.DownloadItem) :
  AnkerGames.main site limit = Ok items ->
  exists links,
    AnkerGames.get_game_links site = Ok links
    /\ map AnkerGames.repackLinkSource items
       = filter (scrapes site)
                (match limit with
                 | Some l => AnkerGames.slice_to l links
                 | None => links
                 end)
    /\ (List.length items <= List.length links)%nat
    /\ (forall l, limit = Some l -> 0 <= l ->
                  (List.length items <= Z.to_nat l)%nat)
    /\ (forall l, limit = Some l -> l < 0 ->
                  (List.length items
                   <= List.length links - Z.to_nat (- l))%nat).
Proof.
  unfold AnkerGames.main.
  destruct (AnkerGames.get_game_links site) as [links | e]; [| discriminate].
  cbn [rbind]. intros [= <-]. exists links. split; [reflexivity |].
  split; [apply scrape_all_sources |].
  assert (forall ls, (List.length (AnkerGames.scrape_all site ls)
                      <= List.length ls)%nat) as Len.
  { intros ls. rewrite <- (length_map AnkerGames.repackLinkSource),
      scrape_all_sources. apply filter_length_le. }
  split; [| split].
  - destruct limit as [l |]; [| apply Len].
    etransitivity; [apply Len |]. unfold AnkerGames.slice_to.
    destruct (0 <=? l); rewrite length_firstn; lia.
  - intros l -> Hl. etransitivity; [apply Len |].
    unfold AnkerGames.slice_to. apply Z.leb_le in Hl. rewrite Hl.
    rewrite length_firstn. lia.
  - intros l -> Hl. etransitivity; [apply Len |].
    unfold AnkerGames.slice_to. apply Z.leb_gt in Hl. rewrite Hl.
    rewrite length_firstn. lia.
Qed.

(** ** A page older than the calendar *)


(** ** The text of a timestamp *)

Lemma digit_char_inj a b :
  0 <= a <= 9 -> 0 <= b <= 9 -> digit_char a = digit_char b -> a = b.
Proof.
  intros Ha Hb E. unfold digit_char in E.
  apply (f_equal nat_of_ascii) in E.
  rewrite !nat_ascii_embedding in E by lia. lia.
Qed.

Lemma pad2_inj a b k k' :
  0 <= a <= 99 -> 0 <= b <= 99 -> pad2 a k = pad2 b k' -> a = b /\ k = k'.
Proof.
  intros Ha Hb E. unfold pad2 in E. injection E as E1 E2 E3.
  apply digit_char_inj in E1; [| Z.div_mod_to_equations; lia ..].
  apply digit_char_inj in E2; [| Z.div_mod_to_equations; lia ..].
  split; [Z.div_mod_to_equations; lia | exact E3].
Qed.

Lemma string_tail_inj c a b : String c a = String c b -> a = b.
Proof. now intros [= ->]. Qed.

(** The digits before a hyphen are determined by the text. *)
Lemma digits_hyphen_inj a : forall b k k',
  str_forall is_digit a = true ->
  str_forall is_digit b = true ->
  a ++ String "-" k = b ++ String "-" k' -> a = b /\ k = k'.
Proof.
  induction a as [| x a IH]; intros [| y b] k k' Ha Hb E; cbn in *.
  - injection E as ->. auto.
  - injection E as <- _. apply andb_true_iff in Hb as [Hb _]. discriminate.
  - injection E as -> _. apply andb_true_iff in Ha as [Ha _]. discriminate.
  - injection E as <- E. apply andb_true_iff in Ha as [_ Ha].
    apply andb_true_iff in Hb as [_ Hb].
    destruct (IH b k k' Ha Hb E) as [-> ->]. auto.
Qed.

Lemma str_of_year_digits y :
  1 <= y <= 9999 -> str_forall is_digit (str_of_int y) = true.
Proof.
  intros H.
  assert (forallb (fun y => str_forall is_digit (str_of_int y))
                  (range 1 10000) = true) as A by (vm_compute; reflexivity).
  rewrite forallb_forall in A. apply A, In_range. lia.
Qed.

(** X9 ([to_iso_utc]).  On a valid datetime that is naive or in UTC
    [to_iso_utc] returns a text, and the text tells year, month, day,
    hour, minute and second and nothing else: two such datetimes have the
    same text exactly when they agree on these six fields. *)
Theorem to_iso_utc_tells_the_second (d1 d2 : datetime) :
  valid_datetime d1 = true ->
  valid_datetime d2 = true ->
  tzinfo d1 = None \/ tzinfo d1 = Some utc ->
  tzinfo d2 = None \/ tzinfo d2 = Some utc ->
  (exists text, AnkerGames.to_iso_utc d1 = Ok text)
  /\ (AnkerGames.to_iso_utc d1 = AnkerGames.to_iso_utc d2 <->
      year d1 = year d2 /\ month d1 = month d2 /\ day d1 = day d2
      /\ hour d1 = hour d2 /\ minute d1 = minute d2
      /\ second d1 = second d2).
Proof.
  intros V1 V2 T1 T2.
  apply valid_datetime_fields in V1, V2.
  rewrite !AnkerFacts.to_iso_utc_utc by assumption.
  split; [eauto |]. unfold md_hms. split.
  - intros E.
    assert (str_of_int (year d1)
            ++ String "-" (pad2 (month d1) (String "-" (pad2 (day d1)
                 (String "T" (pad2 (hour d1) (String ":" (pad2 (minute d1)
                   (String ":" (pad2 (second d1) ".000Z")))))))))
            = str_of_int (year d2)
              ++ String "-" (pad2 (month d2) (String "-" (pad2 (day d2)
                   (String "T" (pad2 (hour d2) (String ":" (pad2 (minute d2)
                     (String ":" (pad2 (second d2) ".000Z"))))))))))
      as E' by congruence.
    clear E.
    apply digits_hyphen_inj in E' as [Ey E];
      [| apply str_of_year_digits; lia ..].
    apply str_of_int_inj in Ey.
    apply pad2_inj in E as [Em E]; [| lia ..]. apply string_tail_inj in E.
    apply pad2_inj in E as [Ed E]; [| lia ..]. apply string_tail_inj in E.
    apply pad2_inj in E as [Eh E]; [| lia ..]. apply string_tail_inj in E.
    apply pad2_inj in E as [Emi E]; [| lia ..]. apply string_tail_inj in E.
    apply pad2_inj in E as [Es _]; [| lia ..].
    repeat split; assumption.
  - intros (-> & -> & -> & -> & -> & ->). reflexivity.
Qed.

End AnkerExtras.

(* ===================================================================== *)
(** * Further facts about RepackGames.py                                  *)
(* ===================================================================== *)

Module RepackExtras.
Import Py PyFacts RepackGames Spec TextFacts.
Local Open Scope Z_scope.
Local Open Scope repack_scope.

(** ** Texts *)

Lemma lstrip_forall p s :
  str_forall p s = true -> str_forall p (lstrip s) = true.
Proof.
  induction s as [| c s IH]; cbn [lstrip]; [auto |].
  intros H. destruct (is_space c); [| exact H].
  cbn [str_forall] in H. apply andb_true_iff in H as [_ H]. auto.
Qed.

Lemma rstrip_forall p s :
  str_forall p s = true -> str_forall p (rstrip s) = true.
Proof.
  induction s as [| c s IH]; cbn [rstrip]; [auto |].
  cbn [str_forall]. intros H. apply andb_true_iff in H as [Hc H].
  specialize (IH H).
  destruct (rstrip s) as [| c' r].
  - destruct (is_space c); cbn [str_forall]; [reflexivity |].
    now rewrite Hc.
  - cbn [str_forall] in *. now rewrite Hc, IH.
Qed.

Lemma rstrip_idem s : rstrip (rstrip s) = rstrip s.
Proof.
  induction s as [| c s IH]; [reflexivity |]. cbn [rstrip].
  destruct (rstrip s) as [| c' r] eqn:R.
  - destruct (is_space c) eqn:S; [reflexivity |]. cbn [rstrip]. now rewrite S.
  - cbn [rstrip]. cbn [rstrip] in IH. rewrite IH. reflexivity.
Qed.

Lemma lstrip_head s :
  lstrip s = "" \/ exists c r, lstrip s = String c r /\ is_space c = false.
Proof.
  induction s as [| c s IH]; cbn [lstrip]; [now left |].
  destruct (is_space c) eqn:S; [exact IH |]. right. eauto.
Qed.

Lemma rstrip_keeps_head c r :
  is_space c = false -> exists r', rstrip (String c r) = String c r'.
Proof.
  intros S. cbn [rstrip]. destruct (rstrip r); [rewrite S |]; eauto.
Qed.

Lemma strip_idem s : strip (strip s) = strip s.
Proof.
  unfold strip.
  destruct (lstrip_head s) as [E | (c & r & E & S)]; rewrite E.
  - reflexivity.
  - destruct (rstrip_keeps_head c r S) as [r' E'].
    assert (lstrip (rstrip (String c r)) = rstrip (String c r)) as ->.
    { rewrite E'. cbn [lstrip]. now rewrite S. }
    apply rstrip_idem.
Qed.

Lemma strip_forall p s : str_forall p s = true -> str_forall p (strip s) = true.
Proof. intros H. unfold strip. now apply rstrip_forall, lstrip_forall. Qed.

Section Facts.
Context {W : World}.

(** ** parse_file_size *)

Lemma parse_file_size_loop_clean info_text patterns :
  let r := parse_file_size_loop info_text patterns in
  r = "Unknown"
  \/ (r <> "" /\ str_forall size_char r = true /\ strip r = r).
Proof.
  induction patterns as [| pat rest IH]; cbn [parse_file_size_loop];
    [now left |].
  destruct (re_search pat true info_text) as [[g1 g2] |]; [| exact IH].
  cbv zeta.
  destruct (str_truthy (strip (str_filter size_char (strip g1)))) eqn:T;
    [| exact IH].
  right. split; [| split].
  - intros E. rewrite E in T. discriminate.
  - apply strip_forall, str_filter_forall.
  - apply strip_idem.
Qed.

(** X10 ([parse_file_size]).  A file size is "Unknown" or a text that
    is not empty, consists of digits, dots, spaces, plus signs and the
    letters K, M, G, T and B only, and has no white space at either
    end. *)
Theorem file_size_is_clean (game_info : option string) :
  parse_file_size game_info = "Unknown"
  \/ (parse_file_size game_info <> ""
      /\ str_forall size_char (parse_file_size game_info) = true
      /\ strip (parse_file_size game_info) = parse_file_size game_info).
Proof.
  unfold parse_file_size. destruct game_info as [info_text |]; [| now left].
  apply parse_file_size_loop_clean.
Qed.

(** ** The century adjustment of parse_date_info *)

Lemma is_leap_shift y k :
  1 <= y <= 99 -> (k = 2000 \/ k = 1900) -> _is_leap (y + k) = _is_leap y.
Proof.
  intros Hy Hk. apply eq_true_iff_eq. rewrite !is_leap_spec.
  destruct Hk; subst k; Z.div_mod_to_equations; lia.
Qed.

(** X11 ([parse_date_info], the century adjustment).  A valid parsed
    date always passes the adjustment: a year below 50 is moved by 2000, a
    year from 50 to 99 by 1900 and a later year stays; the result is a
    valid date of a year from 100 on, with every other field unchanged. *)
Theorem adjust_year_moves_short_years (d : datetime) :
  valid_datetime d = true ->
  exists d',
    adjust_year d = Ok d'
    /\ year d' = (if year d <? 50 then year d + 2000
                  else if year d <? 100 then year d + 1900
                  else year d)
    /\ 100 <= year d'
    /\ month d' = month d /\ day d' = day d
    /\ hour d' = hour d /\ minute d' = minute d /\ second d' = second d
    /\ microsecond d' = microsecond d /\ tzinfo d' = tzinfo d
    /\ valid_datetime d' = true.
Proof.
  intros Hv. pose proof Hv as Hf. apply valid_datetime_fields in Hf.
  unfold valid_datetime in Hv. apply andb_true_iff in Hv as [Hd Ht].
  apply check_date_fields_true in Hd.
  assert (forall k, (k = 2000 \/ k = 1900) -> year d < 100 ->
            1 <= year d + k <= 9999 ->
            replace_year d (year d + k)
            = Ok (mk_datetime (year d + k) (month d) (day d) (hour d)
                              (minute d) (second d) (microsecond d)
                              (tzinfo d))) as Rep.
  { intros k Hk Hy Hr. unfold replace_year.
    rewrite replace_ymd_ok; [reflexivity |].
    apply check_date_fields_true.
    split; [exact Hr |]. split; [lia |].
    unfold _days_in_month_cal in *. rewrite is_leap_shift by lia. lia. }
  assert (forall y', 1 <= y' <= 9999 ->
            _days_in_month_cal y' (month d) = _days_in_month_cal (year d) (month d) ->
            valid_datetime (mk_datetime y' (month d) (day d) (hour d)
                              (minute d) (second d) (microsecond d)
                              (tzinfo d)) = true) as Val.
  { intros y' Hy' E. unfold valid_datetime. cbn. rewrite Ht.
    rewrite (proj2 (check_date_fields_true _ _ _)); [reflexivity |].
    rewrite E. lia. }
  assert (forall k, (k = 2000 \/ k = 1900) -> year d < 100 ->
            _days_in_month_cal (year d + k) (month d)
            = _days_in_month_cal (year d) (month d)) as Dim.
  { intros k Hk Hy. unfold _days_in_month_cal.
    now rewrite is_leap_shift by lia. }
  unfold adjust_year.
  destruct (year d <? 30) eqn:C30.
  { apply Z.ltb_lt in C30.
    rewrite Rep by lia. eexists. split; [reflexivity |]. cbn.
    replace (year d <? 50) with true by (symmetry; apply Z.ltb_lt; lia).
    repeat split; try lia. apply Val; [lia | apply Dim; lia]. }
  apply Z.ltb_ge in C30.
  destruct (year d <? 100) eqn:C100.
  - apply Z.ltb_lt in C100. destruct (year d <? 50) eqn:C50.
    + apply Z.ltb_lt in C50.
      rewrite Rep by lia. eexists. split; [reflexivity |]. cbn.
      repeat split; try lia. apply Val; [lia | apply Dim; lia].
    + apply Z.ltb_ge in C50.
      rewrite Rep by lia. eexists. split; [reflexivity |]. cbn.
      repeat split; try lia. apply Val; [lia | apply Dim; lia].
  - apply Z.ltb_ge in C100. exists d. split; [reflexivity |].
    replace (year d <? 50) with false by (symmetry; apply Z.ltb_ge; lia).
    repeat split; try lia.
    unfold valid_datetime. rewrite Ht.
    now rewrite (proj2 (check_date_fields_true _ _ _)).
Qed.

(** ** extract_download_links *)

Lemma append_href_spec b links :
  NoDup links ->
  ~ In "" links ->
  NoDup (append_href b links)
  /\ ~ In "" (append_href b links)
  /\ incl links (append_href b links)
  /\ (forall x, In x (append_href b links) ->
                In x links \/ href b = Some x)
  /\ (forall h, href b = Some h -> h <> "" -> In h (append_href b links)).
Proof.
  intros N E. unfold append_href.
  destruct (href b) as [h |].
  2:{ repeat split; auto using incl_refl. intros h [=]. }
  destruct (str_truthy h) eqn:T; cbn [andb].
  2:{ destruct h; [| discriminate T].
      repeat split; auto using incl_refl. intros h [= <-] C. congruence. }
  destruct (existsb (String.eqb h) links) eqn:X; cbn [negb].
  - apply existsb_exists in X as (x & Hx & Ex). apply String.eqb_eq in Ex.
    subst x. repeat split; auto using incl_refl. intros h' [= <-] _. exact Hx.
  - apply existsb_eqb_false in X. split; [| split; [| split; [| split]]].
    + apply NoDup_app; [exact N | repeat constructor; intros [] |].
      intros a Ha [<- | []]. contradiction.
    + intros C. apply in_app_or in C as [C | [C | []]]; [contradiction |].
      subst h. discriminate T.
    + apply incl_appl, incl_refl.
    + intros x C. apply in_app_or in C as [C | [<- | []]]; auto.
    + intros h' [= <-] _. apply in_or_app. right. now left.
Qed.

Lemma download_links_loop_spec buttons : forall flag links,
  NoDup links ->
  ~ In "" links ->
  NoDup (download_links_loop buttons flag links)
  /\ ~ In "" (download_links_loop buttons flag links)
  /\ incl links (download_links_loop buttons flag links)
  /\ (forall x, In x (download_links_loop buttons flag links) ->
        In x links \/ exists b, In b buttons /\ href b = Some x)
  /\ (forall b h, In b buttons -> torrent b = false ->
        href b = Some h -> h <> "" ->
        In h (download_links_loop buttons flag links)).
Proof.
  induction buttons as [| b rest IH]; intros flag links N E;
    cbn [download_links_loop].
  - repeat split; auto using incl_refl. intros b h [].
  - destruct (append_href_spec b links N E) as (N' & E' & I' & S' & C').
    assert (forall flag',
              let r := download_links_loop rest flag' (append_href b links) in
              NoDup r /\ ~ In "" r /\ incl links r
              /\ (forall x, In x r ->
                    In x links \/ exists b0, In b0 (b :: rest) /\ href b0 = Some x)
              /\ (forall b0 h, In b0 (b :: rest) -> torrent b0 = false ->
                    href b0 = Some h -> h <> "" -> In h r)) as Take.
    { intros flag' r. subst r.
      destruct (IH flag' (append_href b links) N' E') as (A & B & C & D & F).
      split; [exact A |]. split; [exact B |].
      split; [eapply incl_tran; eauto |]. split.
      - intros x Hx. destruct (D x Hx) as [Hx' | (b0 & Hb0 & Hh)].
        + destruct (S' x Hx'); [now left |]. right. exists b. split; auto.
          now left.
        + right. exists b0. split; auto. now right.
      - intros b0 h [<- | Hb0] Tb Hh Hn.
        + apply C. now apply C'.
        + eapply F; eauto. }
    fold (torrent b). destruct (torrent b) eqn:Tb.
    + destruct flag; cbn [negb]; [apply Take |].
      destruct (IH true links N E) as (A & B & C & D & F).
      split; [exact A |]. split; [exact B |]. split; [exact C |]. split.
      * intros x Hx. destruct (D x Hx) as [? | (b0 & Hb0 & Hh)]; [now left |].
        right. exists b0. split; auto. now right.
      * intros b0 h [<- | Hb0] Tb0 Hh Hn; [congruence |]. eapply F; eauto.
    + apply Take.
Qed.

(** X12 ([extract_download_links]).  The download links of a page are
    pairwise distinct, none is the empty text, and each is the [href] of
    one of the page's download buttons; the non-empty [href] of a button
    whose surroundings do not name a torrent is always among them. *)
Theorem download_links_are_distinct_hrefs (soup : Soup) :
  NoDup (extract_download_links soup)
  /\ ~ In "" (extract_download_links soup)
  /\ (forall x, In x (extract_download_links soup) ->
        exists b, In b (download_buttons soup) /\ href b = Some x)
  /\ (forall b h, In b (download_buttons soup) ->
        str_contains "TORRENT" (context_text b) = false ->
        href b = Some h -> h <> "" ->
        In h (extract_download_links soup)).
Proof.
  unfold extract_download_links.
  destruct (download_links_loop_spec (download_buttons soup) false []
              (NoDup_nil _) (fun H => H))
    as (A & B & _ & D & F).
  split; [exact A |]. split; [exact B |]. split; [| exact F].
  intros x Hx. destruct (D x Hx) as [[] | H]. exact H.
Qed.

Lemma torrent_run_alternates n : forall buttons links,
  (List.length buttons <= n)%nat ->
  (forall b, In b buttons -> torrent b = true) ->
  download_links_loop buttons false links
  = fold_left (fun acc b => append_href b acc) (every_second buttons) links.
Proof.
  induction n as [| n IH]; intros buttons links Len T.
  - destruct buttons; [reflexivity | cbn in Len; lia].
  - destruct buttons as [| b1 [| b2 rest]]; [reflexivity | |].
    + cbn [download_links_loop every_second fold_left].
      fold (torrent b1). rewrite (T b1 (or_introl eq_refl)). reflexivity.
    + cbn [download_links_loop every_second fold_left].
      fold (torrent b1) (torrent b2).
      rewrite (T b1 (or_introl eq_refl)).
      rewrite (T b2 (or_intror (or_introl eq_refl))). cbn [negb].
      apply IH; [cbn in Len; lia |].
      intros b Hb. apply T. now do 2 right.
Qed.

(** X13 ([extract_download_links]).  On a page all of whose download
    buttons have surroundings naming a torrent, the first button only sets
    the flag and the flag is cleared by every button taken: the links are
    those of the second, fourth, sixth ... button. *)
Theorem torrent_buttons_alternate (soup : Soup) :
  (forall b, In b (download_buttons soup) ->
             str_contains "TORRENT" (context_text b) = true) ->
  extract_download_links soup
  = fold_left (fun acc b => append_href b acc)
              (every_second (download_buttons soup)) [].
Proof.
  intros T. unfold extract_download_links.
  now apply (torrent_run_alternates (List.length (download_buttons soup))).
Qed.

(** ** extract_game_links_from_category *)

Lemma keep_game_hrefs_sound hrefs :
  Forall (fun h => is_game_href h = true) (keep_game_hrefs hrefs).
Proof.
  unfold keep_game_hrefs. apply Forall_forall. intros x H.
  apply in_flat_map in H as (o & _ & Ho).
  destruct o as [h |]; [| destruct Ho].
  destruct (is_game_href h) eqn:G; [| destruct Ho].
  destruct Ho as [<- | []]. exact G.
Qed.

Lemma first_game_href_sound links :
  Forall (fun h => is_game_href h = true /\ str_contains "/?p=" h = false)
         (first_game_href links)
  /\ (List.length (first_game_href links) <= 1)%nat.
Proof.
  induction links as [| h rest IH]; cbn [first_game_href];
    [split; [constructor | cbn; lia] |].
  destruct (is_game_href h && negb (str_contains "/?p=" h)) eqn:G; [| exact IH].
  apply andb_true_iff in G as [G P]. apply negb_true_iff in P.
  split; [repeat constructor; assumption | cbn; lia].
Qed.

(** X14 ([extract_game_links_from_category]).  Every game link taken
    from a listing starts with "https://repack-games.com/" and contains
    neither "/category/" nor "/author/"; a listing without a
    [wrap-content] block gives no link. *)
Theorem game_links_stay_on_site (soup : Soup) :
  Forall (fun h => String.prefix "https://repack-games.com/" h = true
                   /\ str_contains "/category/" h = false
                   /\ str_contains "/author/" h = false)
         (extract_game_links_from_category soup)
  /\ (wrap_content soup = None -> extract_game_links_from_category soup = []).
Proof.
  assert (forall l, Forall (fun h => is_game_href h = true) l ->
            Forall (fun h => String.prefix "https://repack-games.com/" h = true
                             /\ str_contains "/category/" h = false
                             /\ str_contains "/author/" h = false) l) as Conv.
  { intros l. apply Forall_impl. intros h G. unfold is_game_href in G.
    apply andb_true_iff in G as [G A]. apply andb_true_iff in G as [P C].
    apply negb_true_iff in A, C. auto. }
  split.
  2:{ intros E. unfold extract_game_links_from_category. now rewrite E. }
  apply Conv. unfold extract_game_links_from_category.
  destruct (wrap_content soup) as [wc |]; [| constructor].
  assert (Forall (fun h => is_game_href h = true)
            (flat_map first_game_href (all_articles wc))) as Third.
  { apply Forall_forall. intros x H. apply in_flat_map in H as (ls & _ & Hx).
    destruct (first_game_href_sound ls) as [F _].
    rewrite Forall_forall in F. now apply F. }
  assert (forall l, Forall (fun h => is_game_href h = true) l ->
            Forall (fun h => is_game_href h = true)
              (match l with
               | [] => flat_map first_game_href (all_articles wc)
               | _ :: _ => l
               end)) as Last.
  { intros [| x l] F; [exact Third | exact F]. }
  cbv zeta. apply Last.
  destruct (articles_content wc) as [articles |].
  - pose proof (keep_game_hrefs_sound articles) as K.
    destruct (keep_game_hrefs articles) as [| x l]; [| exact K].
    destruct (modern_articles wc); [apply keep_game_hrefs_sound | constructor].
  - destruct (modern_articles wc); [apply keep_game_hrefs_sound | constructor].
Qed.

(** ** page_url *)

Lemma append_inv_head (a b c : string) : a ++ b = a ++ c -> b = c.
Proof.
  induction a as [| x a IH]; cbn; [auto |]. intros [= H]. auto.
Qed.

Lemma append_inv_last (a b : string) (c : ascii) :
  a ++ String c "" = b ++ String c "" -> a = b.
Proof.
  revert b. induction a as [| x a IH]; intros [| y b]; cbn; intros H.
  - reflexivity.
  - injection H as _ H. destruct b; discriminate H.
  - injection H as _ H. destruct a; discriminate H.
  - injection H as -> H. f_equal. auto.
Qed.

Lemma append_longer (a b : string) : b <> "" -> a <> a ++ b.
Proof.
  intros N. induction a as [| x a IH]; cbn.
  - auto.
  - intros [= E]. auto.
Qed.

(** X15 ([parse_category_page_and_games]).  The addresses of the pages
    of one category are pairwise different: two page numbers give the same
    address only when they are equal. *)
Theorem page_url_is_injective (category_url : string) (p q : Z) :
  page_url category_url p = page_url category_url q <-> p = q.
Proof.
  split; [| now intros ->].
  unfold page_url.
  destruct (p =? 1) eqn:Hp, (q =? 1) eqn:Hq; intros H.
  - apply Z.eqb_eq in Hp, Hq. congruence.
  - exfalso. revert H. apply append_longer. discriminate.
  - exfalso. symmetry in H. revert H. apply append_longer. discriminate.
  - apply append_inv_head in H. apply append_inv_head in H.
    apply append_inv_last in H. now apply str_of_int_inj.
Qed.

(** ** The counter of parsed games *)

Lemma get_page_content_counter url s :
  total_games_parsed (snd (get_page_content url s)) = total_games_parsed s.
Proof.
  destruct (RepackFacts.get_page_content_spec url s) as (o & n & E & _).
  now rewrite E.
Qed.

Lemma parse_game_info_counts url s r s' :
  parse_game_info url s = (r, s') ->
  total_games_parsed s'
  = total_games_parsed s + match r with Ok (Some _) => 1 | _ => 0 end.
Proof.
  unfold parse_game_info, try_except, bind.
  pose proof (get_page_content_counter url s) as C.
  destruct (RepackFacts.get_page_content_spec url s) as (o & n & E & _).
  rewrite E in C |- *. cbn [snd] in C.
  set (s1 := mk_state _ _ _) in *. clearbody s1.
  destruct o as [html |]; [| unfold ret; intros [= <- <-]; lia].
  destruct (str_truthy html); cbn [negb];
    [| unfold ret; intros [= <- <-]; lia].
  unfold lift, clock, count_parsed_game, ret, emit.
  destruct (BeautifulSoup html) as [soup | e];
    [| intros [= <- <-]; cbn; lia].
  destruct (parse_date_info soup (datetime_now (log s1))) as [d | e];
    [| intros [= <- <-]; cbn; lia].
  destruct (extract_download_links soup); intros [= <- <-]; cbn; lia.
Qed.

Lemma valid_games_cons r rs :
  Z.of_nat (List.length (valid_games (r :: rs)))
  = match r with Ok (Some _) => 1 | _ => 0 end
    + Z.of_nat (List.length (valid_games rs)).
Proof. destruct r as [[g |] | e]; cbn [valid_games List.length]; lia. Qed.

Lemma gather_games_counts links : forall s rs s',
  gather (map parse_game_info links) s = (Ok rs, s') ->
  total_games_parsed s'
  = total_games_parsed s + Z.of_nat (List.length (valid_games rs)).
Proof.
  induction links as [| url rest IH]; intros s rs s'; cbn [map gather].
  - unfold ret. intros [= <- <-]. cbn. lia.
  - destruct (parse_game_info url s) as [r s1] eqn:E.
    apply parse_game_info_counts in E.
    destruct (gather (map parse_game_info rest) s1) as [[rs1 | e] s2] eqn:G;
      [| discriminate].
    intros [= <- <-]. rewrite valid_games_cons.
    rewrite (IH _ _ _ G). lia.
Qed.

Lemma page_counts name url page s r s' :
  parse_category_page_and_games name url page s = (r, s') ->
  total_games_parsed s' = total_games_parsed s + tally r.
Proof.
  unfold parse_category_page_and_games. cbv zeta. unfold bind at 1.
  pose proof (get_page_content_counter (page_url url page) s) as C.
  destruct (get_page_content (page_url url page) s) as [[o | e] s1] eqn:E;
    rewrite ?E in C; cbn [snd] in C; [| intros [= <- <-]; cbn; lia].
  unfold bind, lift, ret.
  destruct (is_404_page o) as [[|] | e];
    [intros [= <- <-]; cbn; lia | | intros [= <- <-]; cbn; lia].
  destruct (match o with Some html => BeautifulSoup html | None => Raise TypeError end)
    as [soup | e]; [| intros [= <- <-]; cbn; lia].
  destruct (extract_game_links_from_category soup) as [| link links];
    [intros [= <- <-]; cbn; lia |].
  destruct (RepackFacts.gather_games_spec (link :: links) s1)
    as (rs & s2 & G & _).
  rewrite G. intros [= <- <-]. cbn [tally].
  rewrite (gather_games_counts _ _ _ _ G). lia.
Qed.

Lemma pages_loop_counts name max_pages url pages :
  forall all_games completed s res s',
    pages_loop name max_pages
      (map (parse_category_page_and_games name url) pages)
      all_games completed s = (Ok res, s') ->
    total_games_parsed s' + Z.of_nat (List.length all_games)
    = total_games_parsed s + Z.of_nat (List.length (fst res))
    /\ completed <= snd res <= completed + Z.of_nat (List.length pages).
Proof.
  induction pages as [| p ps IH]; intros all_games completed s res s';
    cbn [map pages_loop].
  - unfold ret. intros [= <- <-]. cbn. lia.
  - unfold bind at 1. unfold try_except, bind at 1.
    destruct (parse_category_page_and_games name url p s) as [[gs | e] s1]
      eqn:E; apply page_counts in E; cbn [tally] in E.
    + unfold bind, emit, ret.
      intros H. apply IH in H. cbn [total_games_parsed] in H.
      rewrite length_app in H. cbn [List.length]. lia.
    + unfold ret. intros H. apply IH in H. cbn [List.length]. lia.
Qed.

Lemma range_length lo hi : List.length (range lo hi) = Z.to_nat (hi - lo).
Proof. unfold range. now rewrite length_map, length_seq. Qed.

(** The crawl of one category: the counter goes up by the number of
    records returned. *)
Lemma category_counts name url s r s' :
  parse_category_with_pagination name url s = (r, s') ->
  total_games_parsed s' = total_games_parsed s + tally r.
Proof.
  unfold parse_category_with_pagination.
  unfold bind at 1, emit at 1.
  set (s0 := mk_state _ _ _).
  assert (total_games_parsed s0 = total_games_parsed s) as C0 by reflexivity.
  clearbody s0. unfold bind at 1.
  pose proof (get_page_content_counter url s0) as C1.
  destruct (RepackFacts.get_page_content_spec url s0) as (o & n & E & _).
  rewrite E in C1 |- *. cbn [snd] in C1.
  set (s1 := mk_state _ _ _) in *. clearbody s1.
  destruct (opt_truthy o); cbn [negb];
    [| unfold bind, emit, ret; intros [= <- <-]; cbn; lia].
  unfold bind at 1, lift at 1.
  destruct (match o with Some html => BeautifulSoup html | None => Raise TypeError end)
    as [soup | e]; [| intros [= <- <-]; cbn; lia].
  unfold bind at 1, lift at 1.
  destruct (get_total_pages_from_pagination soup) as [total | e];
    [| intros [= <- <-]; cbn; lia].
  fold (max_pages_of total).
  unfold bind at 1, emit at 1.
  set (s2 := mk_state _ _ _).
  assert (total_games_parsed s2 = total_games_parsed s1) as C2 by reflexivity.
  clearbody s2. unfold bind at 1.
  assert (exists gs1 s3,
            match extract_game_links_from_category soup with
            | [] => ret []
            | _ :: _ =>
                game_results <-
                  gather (map parse_game_info
                            (extract_game_links_from_category soup)) ;;
                ret (valid_games game_results)
            end s2 = (Ok gs1, s3)
            /\ total_games_parsed s3
               = total_games_parsed s2 + Z.of_nat (List.length gs1))
    as (gs1 & s3 & E3 & C3).
  { destruct (extract_game_links_from_category soup) as [| link links].
    - exists [], s2. unfold ret. split; [reflexivity | cbn; lia].
    - destruct (RepackFacts.gather_games_spec (link :: links) s2)
        as (rs & s3 & E3 & _).
      unfold bind, ret. rewrite E3. do 2 eexists. split; [reflexivity |].
      now apply gather_games_counts in E3. }
  rewrite E3. clear E3.
  unfold bind at 1, emit at 1.
  set (s4 := mk_state _ _ _).
  assert (total_games_parsed s4 = total_games_parsed s3) as C4 by reflexivity.
  clearbody s4. unfold bind at 1.
  assert (exists res s5,
            (if 1 <? max_pages_of total
             then pages_loop name (max_pages_of total)
                    (map (parse_category_page_and_games name url)
                         (range 2 (max_pages_of total + 1)))
                    gs1 1
             else ret (gs1, 1)) s4 = (Ok res, s5)
            /\ total_games_parsed s5 + Z.of_nat (List.length gs1)
               = total_games_parsed s4 + Z.of_nat (List.length (fst res)))
    as (res & s5 & E5 & C5).
  { destruct (1 <? max_pages_of total).
    - destruct (RepackFacts.pages_loop_spec name (max_pages_of total) url
                  (range 2 (max_pages_of total + 1)) gs1 1 s4)
        as (res & s5 & E5 & _).
      exists res, s5. split; [exact E5 |].
      now apply pages_loop_counts in E5.
    - exists (gs1, 1), s4. unfold ret. split; [reflexivity | cbn; lia]. }
  rewrite E5. clear E5.
  unfold bind, emit, ret. intros [= <- <-].
  cbn [tally total_games_parsed]. lia.
Qed.

Lemma concat_ok_cons (r : result (list game)) rs :
  Z.of_nat (List.length (concat_ok (r :: rs)))
  = tally r + Z.of_nat (List.length (concat_ok rs)).
Proof.
  destruct r as [gs | e]; cbn [concat_ok tally]; [| lia].
  rewrite length_app. lia.
Qed.

Lemma gather_categories_counts cats : forall s rs s',
  gather (map (fun c => parse_category_with_pagination (fst c) (snd c)) cats) s
  = (Ok rs, s') ->
  total_games_parsed s'
  = total_games_parsed s + Z.of_nat (List.length (concat_ok rs)).
Proof.
  induction cats as [| [name url] rest IH]; intros s rs s'; cbn [map gather].
  - unfold ret. intros [= <- <-]. cbn. lia.
  - cbn [fst snd].
    destruct (parse_category_with_pagination name url s) as [r s1] eqn:E.
    apply category_counts in E as C.
    destruct (gather _ s1) as [[rs1 | e] s2] eqn:G; [| discriminate].
    intros [= <- <-]. rewrite concat_ok_cons. rewrite (IH _ _ _ G). lia.
Qed.

Lemma collect_results_counter results : forall names s,
  total_games_parsed (snd (collect_results names results s))
  = total_games_parsed s.
Proof.
  induction results as [| [gs | e] rs IH]; intros names s;
    cbn [collect_results]; [reflexivity | |].
  - unfold bind, extend_games_data. rewrite IH. reflexivity.
  - unfold bind, emit. rewrite IH. reflexivity.
Qed.

(** X16 ([parse_game_info], [run]).  Over a whole run the counter
    [total_games_parsed] grows by exactly the number of records added to
    [games_data]; on a fresh parser the two are equal at the end. *)
Theorem counter_matches_records (self : RepackGamesParser) (s : state) :
  total_games_parsed (snd (run self s)) - total_games_parsed s
  = Z.of_nat (List.length (games_data (snd (run self s))))
    - Z.of_nat (List.length (games_data s))
  /\ total_games_parsed (snd (run self initial_state))
     = Z.of_nat (List.length (games_data (snd (run self initial_state)))).
Proof.
  assert (forall s0,
            total_games_parsed (snd (run self s0)) - total_games_parsed s0
            = Z.of_nat (List.length (games_data (snd (run self s0))))
              - Z.of_nat (List.length (games_data s0))) as Gen.
  { intros s0.
    destruct (RepackFacts.run_spec self s0) as (rs & s1 & s' & E & R & G & _).
    rewrite R. cbn [snd]. rewrite G, length_app.
    unfold category_tasks in E.
    pose proof (gather_categories_counts _ _ _ _ E) as C1.
    revert R. unfold run, try_except, bind at 1.
    unfold parse_all_categories. unfold bind at 1. rewrite E.
    unfold bind at 1.
    pose proof (collect_results_counter rs (map fst (categories self)) s1) as C2.
    destruct (collect_results (map fst (categories self)) rs s1)
      as [[[] | e] s2] eqn:E2; rewrite ?E2 in C2; cbn [snd] in C2.
    - unfold bind, current_games_data, emit, save_to_json, bind,
        current_games_data, emit.
      intros [= <-]. cbn [total_games_parsed]. lia.
    - unfold bind, current_games_data, save_to_json, emit.
      destruct (games_data s2); intros [= <-]; cbn [total_games_parsed]; lia. }
  split; [apply Gen |].
  pose proof (Gen initial_state) as G0. cbn [initial_state total_games_parsed
    games_data List.length] in G0. lia.
Qed.

(** ** The end of a run *)

(** X17 ([run], [save_to_json]).  When the crawl is over and the
    records are written to "repackgames.json", the run returns normally.
    When that write raises, the run returns normally if there are no
    records; if there are, it writes them to
    "error_repack_games_data.json" and returns normally when that write
    goes through, and the exception of that second write is the only one
    that leaves [run].  The records the parser started with are kept; and
    when every write goes through this is [run] as modelled above. *)
Theorem run_raises_only_when_saving_fails
    (write : string -> list game -> result unit)
    (self : RepackGamesParser) (s : state) :
  exists s1,
    parse_all_categories self s = (Ok tt, s1)
    /\ incl (games_data s) (games_data s1)
    /\ run_with write self s
       = match write "repackgames.json" (games_data s1) with
         | Ok _ =>
             (Ok tt,
              mk_state (log s1 ++ [ESave "repackgames.json" (games_data s1)])
                       (games_data s1) (total_games_parsed s1))
         | Raise _ =>
             match games_data s1 with
             | [] => (Ok tt, s1)
             | _ :: _ =>
                 match write "error_repack_games_data.json" (games_data s1)
                 with
                 | Ok _ =>
                     (Ok tt,
                      mk_state
                        (log s1 ++ [ESave "error_repack_games_data.json"
                                          (games_data s1)])
                        (games_data s1) (total_games_parsed s1))
                 | Raise e => (Raise e, s1)
                 end
             end
         end
    /\ run_with (fun _ _ => Ok tt) self s = run self s.
Proof.
  destruct (RepackFacts.parse_all_categories_spec self s)
    as (rs & s0 & s1 & _ & E & G & _).
  exists s1. split; [exact E |].
  split; [rewrite G; apply incl_appl, incl_refl |].
  split.
  - unfold run_with, try_except, bind at 1. rewrite E.
    unfold save_to_json_with at 1, bind, current_games_data, lift, emit.
    destruct (write "repackgames.json" (games_data s1)) as [[] | e];
      [reflexivity |].
    destruct (games_data s1) as [| g gs] eqn:D; [reflexivity |].
    unfold save_to_json_with, bind, current_games_data, lift, emit.
    rewrite D.
    now destruct (write "error_repack_games_data.json" (g :: gs)) as [[] | e'].
  - unfold run_with, run, try_except, bind at 1. rewrite E.
    unfold bind at 2. rewrite E. reflexivity.
Qed.

(** ** A page that answers with an empty body *)

Lemma blank_fetch url s :
  always_blank url ->
  get_page_content url s
  = (Ok (Some ""),
     mk_state (log s ++ [EAcquire; ESleep 10; EGet url 12000; ERelease])
              (games_data s) (total_games_parsed s)).
Proof.
  intros B. unfold get_page_content, bind, finally, emit.
  rewrite RepackFacts.range_0_3. cbn [attempts].
  unfold try_except, bind, emit, http_get, ret.
  cbn [log games_data total_games_parsed fst snd].
  rewrite B. cbn. now rewrite <- !app_assoc.
Qed.

(** X18 ([get_page_content] and its callers).  An address that answers
    with an empty body is fetched once, without a retry, and is then
    treated like a failed fetch: as a game page it gives no record, as a
    listing page no games, and as the first page of a category it fails
    the category. *)
Theorem blank_page_is_a_failed_page (url : string) :
  always_blank url ->
  (forall s,
     parse_game_info url s
     = (Ok None,
        mk_state (log s ++ [EAcquire; ESleep 10; EGet url 12000; ERelease])
                 (games_data s) (total_games_parsed s)))
  /\ (forall name category_url page s,
        page_url category_url page = url ->
        parse_category_page_and_games name category_url page s
        = (Ok [],
           mk_state (log s ++ [EAcquire; ESleep 10; EGet url 12000; ERelease])
                    (games_data s) (total_games_parsed s)))
  /\ (forall name s,
        parse_category_with_pagination name url s
        = (Ok [],
           mk_state
             (log s
              ++ [EProgress ("Processing category: " ++ name);
                  EAcquire; ESleep 10; EGet url 12000; ERelease;
                  EProgress ("[red]Failed category: " ++ name ++ "[/red]")])
             (games_data s) (total_games_parsed s))).
Proof.
  intros B. split; [| split].
  - intros s. unfold parse_game_info, try_except, bind.
    rewrite (blank_fetch url s B). reflexivity.
  - intros name category_url page s <-.
    unfold parse_category_page_and_games. cbv zeta. unfold bind at 1.
    rewrite (blank_fetch _ s B). reflexivity.
  - intros name s. unfold parse_category_with_pagination.
    unfold bind at 1, emit at 1. unfold bind at 1.
    rewrite (blank_fetch url _ B). cbn [opt_truthy str_truthy negb].
    unfold bind, emit, ret. cbn [log games_data total_games_parsed].
    now rewrite <- !app_assoc.
Qed.

(** ** A leaf page that cannot be read *)

(** X19 ([parse_game_info]).  A fetched game page gives no record and
    raises nothing when the HTML parser raises on it or the computation of
    its date raises, the exception being printed with the address, and
    also when it has no download link, which prints nothing; in all three
    cases the counter and the records stay as the fetch left them. *)
Theorem unreadable_leaf_is_dropped (url : string) (s s1 : state)
    (html : string) :
  get_page_content url s = (Ok (Some html), s1) ->
  str_truthy html = true ->
  (forall e, BeautifulSoup html = Raise e ->
     parse_game_info url s
     = (Ok None, mk_state (log s1 ++ [EGameError url e]) (games_data s1)
                          (total_games_parsed s1)))
  /\ (forall soup e,
        BeautifulSoup html = Ok soup ->
        parse_date_info soup (datetime_now (log s1)) = Raise e ->
        parse_game_info url s
        = (Ok None, mk_state (log s1 ++ [EGameError url e]) (games_data s1)
                             (total_games_parsed s1)))
  /\ (forall soup d,
        BeautifulSoup html = Ok soup ->
        parse_date_info soup (datetime_now (log s1)) = Ok d ->
        extract_download_links soup = [] ->
        parse_game_info url s = (Ok None, s1)).
Proof.
  intros E T. split; [| split].
  - intros e B. unfold parse_game_info, try_except, bind. rewrite E, T.
    cbn [negb]. unfold lift. rewrite B. reflexivity.
  - intros soup e B D. unfold parse_game_info, try_except, bind.
    rewrite E, T. cbn [negb]. unfold lift, clock. rewrite B, D. reflexivity.
  - intros soup d B D L. unfold parse_game_info, try_except, bind.
    rewrite E, T. cbn [negb]. unfold lift, clock. rewrite B, D, L.
    reflexivity.
Qed.

(** ** A date in the game-info block *)


(** ** A listing with a page-count marker *)

Lemma category_shows_total name url s html soup total s1 r s' :
  first_listing name url s = (Ok (Some html), s1) ->
  str_truthy html = true ->
  BeautifulSoup html = Ok soup ->
  get_total_pages_from_pagination soup = Ok total ->
  parse_category_with_pagination name url s = (r, s') ->
  In (EProgress (progress_description name 0 (max_pages_of total))) (log s').
Proof.
  intros E T B P. unfold first_listing, emit in E. cbn [snd] in E.
  unfold parse_category_with_pagination.
  unfold bind at 1, emit at 1.
  unfold bind at 1. rewrite E.
  assert (opt_truthy (Some html) = true) as -> by exact T. cbn [negb].
  unfold bind at 1, lift at 1. rewrite B.
  unfold bind at 1, lift at 1. rewrite P.
  fold (max_pages_of total).
  unfold bind at 1, emit at 1.
  set (s2 := mk_state _ _ _).
  assert (In (EProgress (progress_description name 0 (max_pages_of total)))
             (log s2)) as I2.
  { subst s2. cbn [log]. apply in_or_app. right. now left. }
  clearbody s2. unfold bind at 1.
  assert (exists gs1 s3,
            match extract_game_links_from_category soup with
            | [] => ret []
            | _ :: _ =>
                game_results <-
                  gather (map parse_game_info
                            (extract_game_links_from_category soup)) ;;
                ret (valid_games game_results)
            end s2 = (Ok gs1, s3) /\ frame s2 s3)
    as (gs1 & s3 & E3 & F3).
  { destruct (extract_game_links_from_category soup) as [| link links].
    - exists [], s2. unfold ret. auto using RepackFacts.frame_refl.
    - destruct (RepackFacts.gather_games_spec (link :: links) s2)
        as (rs & s3 & E3 & F3 & _).
      unfold bind, ret. rewrite E3. eauto. }
  rewrite E3. clear E3.
  unfold bind at 1. RepackFacts.step_emit s4 F4.
  unfold bind at 1.
  assert (exists res s5,
            (if 1 <? max_pages_of total
             then pages_loop name (max_pages_of total)
                    (map (parse_category_page_and_games name url)
                         (range 2 (max_pages_of total + 1)))
                    gs1 1
             else ret (gs1, 1)) s4 = (Ok res, s5) /\ frame s4 s5)
    as (res & s5 & E5 & F5).
  { destruct (1 <? max_pages_of total).
    - destruct (RepackFacts.pages_loop_spec name (max_pages_of total) url
                  (range 2 (max_pages_of total + 1)) gs1 1 s4)
        as (res & s5 & E5 & F5 & _).
      eauto.
    - exists (gs1, 1), s4. unfold ret. auto using RepackFacts.frame_refl. }
  rewrite E5. clear E5.
  unfold bind at 1. RepackFacts.step_emit s6 F6. unfold ret.
  intros [= <- <-].
  eapply RepackFacts.frame_In; [exact F6 |].
  eapply RepackFacts.frame_In; [exact F5 |].
  eapply RepackFacts.frame_In; [exact F4 |].
  eapply RepackFacts.frame_In; [exact F3 |]. exact I2.
Qed.

(** X21 ([parse_category_with_pagination]).  When the first listing
    page carries a page-count marker [n], the progress line shows [n]
    pages (999 when [n] is 0) and every page from 2 to that number is
    requested. *)
Theorem marker_sets_the_pages (name url : string) (s : state)
    (html : string) (soup : Soup) (n : Z) (s1 : state) :
  first_listing name url s = (Ok (Some html), s1) ->
  str_truthy html = true ->
  BeautifulSoup html = Ok soup ->
  get_total_pages_from_pagination soup = Ok (Some n) ->
  exists gs s',
    parse_category_with_pagination name url s = (Ok gs, s')
    /\ In (EProgress (progress_description name 0
                        (if n =? 0 then 999 else n))) (log s')
    /\ (forall p, 2 <= p <= (if n =? 0 then 999 else n) ->
                  In (EGet (page_url url p) 12000) (log s')).
Proof.
  intros E T B P.
  destruct (RepackFacts.parse_category_with_pagination_spec name url s)
    as (r & s' & R & _ & _ & _ & C).
  destruct (C html soup (Some n) s1 E T B P) as (gs & -> & G).
  exists gs, s'. split; [exact R |]. split; [| exact G].
  exact (category_shows_total _ _ _ _ _ _ _ _ _ E T B P R).
Qed.

End Facts.

End RepackExtras.

(* ===================================================================== *)
(** * Further facts about the interleaved fetches                         *)
(* ===================================================================== *)

Module SchedExtras.
Import Py RepackGames Spec SchedFacts.
Local Open Scope Z_scope.

Section Facts.
Context {W : World}.

(** A task that holds a slot always moves; a waiting task moves when the
    counter is positive. *)
Lemma task_step_moves t sem l :
  returned t = false ->
  (holds_slot t = true \/ 0 < sem) ->
  task_pc (fst (fst (task_step t sem l))) <> task_pc t.
Proof.
  destruct t as [url pc]. unfold returned, holds_slot, task_step.
  cbn [task_pc task_url].
  destruct pc as [| a | a | a | r]; intros R H.
  - destruct H as [H | H]; [discriminate |].
    apply Z.ltb_lt in H. rewrite H. cbn. discriminate.
  - cbn. discriminate.
  - destruct (session_get l url); [| destruct (a <? 2)]; cbn; discriminate.
  - cbn. discriminate.
  - discriminate.
Qed.

Lemma slots_zero ts :
  existsb holds_slot ts = false -> slots ts = 0.
Proof.
  induction ts as [| t ts IH]; [reflexivity |]. cbn [existsb slots].
  intros H. apply orb_false_iff in H as [Ht H]. unfold slot.
  rewrite Ht, IH by assumption. reflexivity.
Qed.

(** X22 ([get_page_content], the semaphore).  With a ceiling of at
    least 1 the fetches never block one another for good: in every
    reachable configuration with a fetch that has not returned, some fetch
    that has not returned can make its next move. *)
Theorem some_fetch_can_move (self : RepackGamesParser)
    (schedule : list choice) :
  1 <= max_concurrent self ->
  let c := run_schedule schedule (sched_init self) in
  (exists t, In t (tasks c) /\ returned t = false) ->
  exists i t,
    nth_error (tasks c) i = Some t
    /\ returned t = false
    /\ exists t', nth_error (tasks (sched_step c (Resume i))) i = Some t'
                  /\ task_pc t' <> task_pc t.
Proof.
  intros Hmax c (t & Ht & Rt).
  pose proof (SchedFacts.run_schedule_invariant schedule (sched_init self)) as I.
  cbv zeta in I. fold c in I.
  cbn [sched_init sem_value tasks net_log slots slot_balance] in I.
  destruct I as (I1 & I2 & _).
  assert (exists i t0, nth_error (tasks c) i = Some t0
                       /\ returned t0 = false
                       /\ (holds_slot t0 = true \/ 0 < sem_value c))
    as (i & t0 & Hi & R0 & Mv).
  { destruct (existsb holds_slot (tasks c)) eqn:X.
    - apply existsb_exists in X as (t0 & H0 & Hh).
      apply In_nth_error in H0 as [i Hi]. exists i, t0.
      split; [exact Hi |]. split; [| now left].
      unfold returned. unfold holds_slot in Hh. now destruct (task_pc t0).
    - apply slots_zero in X. apply In_nth_error in Ht as [i Hi].
      exists i, t. split; [exact Hi |]. split; [exact Rt |]. right. lia. }
  exists i, t0. split; [exact Hi |]. split; [exact R0 |].
  cbn [sched_step].
  rewrite (step_nth_at i _ _ _ _ Hi). cbn [tasks].
  eexists. split; [eapply nth_error_replaced; eauto |].
  now apply task_step_moves.
Qed.

Lemma task_step_lowers t sem l :
  let t' := fst (fst (task_step t sem l)) in
  t' = t \/ moves_left t' < moves_left t.
Proof.
  destruct t as [url pc]. unfold task_step, moves_left.
  cbn [task_pc task_url].
  destruct pc as [| a | a | a | r].
  - destruct (0 <? sem); cbn [fst task_pc]; [right; lia | now left].
  - cbn [fst task_pc]. right. lia.
  - destruct (session_get l url); [| destruct (a <? 2) eqn:C];
      cbn [fst task_pc]; right; try lia.
  - cbn [fst task_pc]. right. lia.
  - now left.
Qed.

Lemma total_moves_left_app ts1 ts2 :
  total_moves_left (ts1 ++ ts2)%list = total_moves_left ts1 + total_moves_left ts2.
Proof. induction ts1 as [| t ts1 IH]; cbn [app total_moves_left]; lia. Qed.

Lemma total_moves_left_nonneg ts : 0 <= total_moves_left ts.
Proof.
  induction ts as [| t ts IH]; cbn [total_moves_left]; [lia |].
  unfold moves_left. destruct (task_pc t); lia.
Qed.

(** X23 ([get_page_content]).  The moves the fetches have left are
    bounded by a number that grows by 9 when a fetch is started, is never
    negative, and gets smaller with every resumption that changes a task,
    whatever the event loop interleaves. *)
Theorem every_move_counts_down (c : config) :
  (forall url,
     total_moves_left (tasks (sched_step c (Spawn url)))
     = total_moves_left (tasks c) + 9)
  /\ (forall i,
        0 <= total_moves_left (tasks (sched_step c (Resume i)))
        /\ (tasks (sched_step c (Resume i)) = tasks c
            \/ total_moves_left (tasks (sched_step c (Resume i)))
               < total_moves_left (tasks c))).
Proof.
  split.
  { intros url. cbn [sched_step tasks]. rewrite total_moves_left_app.
    cbn [total_moves_left moves_left task_pc]. lia. }
  intros i. split; [apply total_moves_left_nonneg |].
  cbn [sched_step].
  destruct (nth_error (tasks c) i) as [t |] eqn:Hi.
  - rewrite (step_nth_at i _ _ _ _ Hi). cbn [tasks].
    pose proof (task_step_lowers t (sem_value c) (net_log c)) as L.
    cbv zeta in L.
    pose proof (firstn_nth_skipn i _ _ Hi) as Split.
    destruct L as [L | L].
    + left. rewrite L. now rewrite <- Split.
    + right. remember (firstn i (tasks c)) as A.
      remember (skipn (S i) (tasks c)) as B. rewrite Split.
      rewrite !total_moves_left_app. cbn [total_moves_left]. lia.
  - rewrite (step_nth_none i _ _ _ Hi). now left.
Qed.

Lemma requests_sent_app l1 l2 :
  requests_sent (l1 ++ l2) = requests_sent l1 + requests_sent l2.
Proof.
  induction l1 as [| e l1 IH]; [reflexivity |].
  cbn [app requests_sent]. destruct e; lia.
Qed.

Lemma total_requests_left_app ts1 ts2 :
  total_requests_left (ts1 ++ ts2)%list
  = total_requests_left ts1 + total_requests_left ts2.
Proof. induction ts1 as [| t ts1 IH]; cbn [app total_requests_left]; lia. Qed.

Lemma total_requests_left_nonneg ts : 0 <= total_requests_left ts.
Proof.
  induction ts as [| t ts IH]; cbn [total_requests_left]; [lia |].
  unfold requests_left. destruct (task_pc t); lia.
Qed.

Lemma task_step_requests t sem l :
  requests_sent (snd (task_step t sem l))
  + requests_left (fst (fst (task_step t sem l)))
  <= requests_sent l + requests_left t.
Proof.
  destruct t as [url pc]. unfold task_step, requests_left.
  cbn [task_pc task_url].
  destruct pc as [| a | a | a | r].
  - destruct (0 <? sem); cbn [fst snd task_pc];
      rewrite ?requests_sent_app; cbn [requests_sent]; lia.
  - cbn [fst snd task_pc]. rewrite requests_sent_app. cbn [requests_sent]. lia.
  - destruct (session_get l url); [| destruct (a <? 2) eqn:C];
      cbn [fst snd task_pc]; rewrite requests_sent_app;
      cbn [requests_sent]; lia.
  - cbn [fst snd task_pc]. rewrite requests_sent_app. cbn [requests_sent].
    lia.
  - cbn [fst snd task_pc]. lia.
Qed.

Lemma sched_step_requests c ch :
  requests_sent (net_log (sched_step c ch))
  + total_requests_left (tasks (sched_step c ch))
  - 3 * Z.of_nat (List.length (tasks (sched_step c ch)))
  <= requests_sent (net_log c) + total_requests_left (tasks c)
    - 3 * Z.of_nat (List.length (tasks c)).
Proof.
  destruct ch as [url | i]; cbn [sched_step].
  - cbn [net_log tasks]. rewrite total_requests_left_app, length_app.
    cbn [total_requests_left List.length requests_left task_pc]. lia.
  - destruct (nth_error (tasks c) i) as [t |] eqn:Hi.
    + rewrite (step_nth_at i _ _ _ _ Hi). cbn [net_log tasks].
      pose proof (task_step_requests t (sem_value c) (net_log c)) as L.
      pose proof (firstn_nth_skipn i _ _ Hi) as E.
      remember (firstn i (tasks c)) as A. remember (skipn (S i) (tasks c)) as B.
      rewrite E.
      rewrite !total_requests_left_app, !length_app.
      cbn [total_requests_left List.length]. lia.
    + rewrite (step_nth_none i _ _ _ Hi). cbn [net_log tasks]. lia.
Qed.

Lemma run_schedule_requests schedule : forall c,
  let c' := run_schedule schedule c in
  requests_sent (net_log c') + total_requests_left (tasks c')
  - 3 * Z.of_nat (List.length (tasks c'))
  <= requests_sent (net_log c) + total_requests_left (tasks c)
     - 3 * Z.of_nat (List.length (tasks c)).
Proof.
  unfold run_schedule.
  induction schedule as [| ch schedule IH]; intros c; [cbn; lia |].
  cbn [fold_left]. cbv zeta in IH.
  pose proof (sched_step_requests c ch).
  pose proof (IH (sched_step c ch)). lia.
Qed.

Lemma total_requests_due_app ts1 ts2 :
  total_requests_due (ts1 ++ ts2)%list
  = total_requests_due ts1 + total_requests_due ts2.
Proof. induction ts1 as [| t ts1 IH]; cbn [app total_requests_due]; lia. Qed.

Lemma task_step_due t sem l :
  requests_sent l + requests_due t
  <= requests_sent (snd (task_step t sem l))
     + requests_due (fst (fst (task_step t sem l))).
Proof.
  destruct t as [url pc]. unfold task_step, requests_due.
  cbn [task_pc task_url].
  destruct pc as [| a | a | a | r].
  - destruct (0 <? sem); cbn [fst snd task_pc];
      rewrite ?requests_sent_app; cbn [requests_sent]; lia.
  - cbn [fst snd task_pc]. rewrite requests_sent_app. cbn [requests_sent]. lia.
  - destruct (session_get l url); [| destruct (a <? 2) eqn:C];
      cbn [fst snd task_pc]; rewrite requests_sent_app;
      cbn [requests_sent]; lia.
  - cbn [fst snd task_pc]. rewrite requests_sent_app. cbn [requests_sent]. lia.
  - cbn [fst snd task_pc]. lia.
Qed.

Lemma sched_step_due c ch :
  requests_sent (net_log c) + total_requests_due (tasks c)
  - Z.of_nat (List.length (tasks c))
  <= requests_sent (net_log (sched_step c ch))
     + total_requests_due (tasks (sched_step c ch))
     - Z.of_nat (List.length (tasks (sched_step c ch))).
Proof.
  destruct ch as [url | i]; cbn [sched_step].
  - cbn [net_log tasks]. rewrite total_requests_due_app, length_app.
    cbn [total_requests_due List.length requests_due task_pc]. lia.
  - destruct (nth_error (tasks c) i) as [t |] eqn:Hi.
    + rewrite (step_nth_at i _ _ _ _ Hi). cbn [net_log tasks].
      pose proof (task_step_due t (sem_value c) (net_log c)) as L.
      pose proof (firstn_nth_skipn i _ _ Hi) as E.
      remember (firstn i (tasks c)) as A. remember (skipn (S i) (tasks c)) as B.
      rewrite E.
      rewrite !total_requests_due_app, !length_app.
      cbn [total_requests_due List.length]. lia.
    + rewrite (step_nth_none i _ _ _ Hi). cbn [net_log tasks]. lia.
Qed.

Lemma run_schedule_due schedule : forall c,
  let c' := run_schedule schedule c in
  requests_sent (net_log c) + total_requests_due (tasks c)
  - Z.of_nat (List.length (tasks c))
  <= requests_sent (net_log c') + total_requests_due (tasks c')
     - Z.of_nat (List.length (tasks c')).
Proof.
  unfold run_schedule.
  induction schedule as [| ch schedule IH]; intros c; [cbn; lia |].
  cbn [fold_left]. cbv zeta in IH.
  pose proof (sched_step_due c ch). pose proof (IH (sched_step c ch)). lia.
Qed.

Lemma returned_none_due ts :
  forallb returned ts = true -> total_requests_due ts = 0.
Proof.
  induction ts as [| t ts IH]; [reflexivity |]. cbn [forallb].
  intros H. apply andb_true_iff in H as [Ht H].
  cbn [total_requests_due]. rewrite (IH H).
  unfold returned in Ht. unfold requests_due.
  destruct (task_pc t); try discriminate. reflexivity.
Qed.

(** X24 ([get_page_content]).  However the fetches are interleaved, the
    log never holds more than three requests per fetch started, and once
    all fetches have returned it holds at least one request per fetch. *)
Theorem three_requests_a_fetch (self : RepackGamesParser)
    (schedule : list choice) :
  let c := run_schedule schedule (sched_init self) in
  requests_sent (net_log c) <= 3 * Z.of_nat (List.length (tasks c))
  /\ (forallb returned (tasks c) = true ->
      Z.of_nat (List.length (tasks c)) <= requests_sent (net_log c)).
Proof.
  intros c.
  pose proof (run_schedule_requests schedule (sched_init self)) as I.
  cbv zeta in I. fold c in I.
  cbn [sched_init net_log tasks requests_sent total_requests_left List.length]
    in I.
  pose proof (total_requests_left_nonneg (tasks c)) as N.
  split; [lia |].
  intros R.
  pose proof (run_schedule_due schedule (sched_init self)) as D.
  cbv zeta in D. fold c in D.
  cbn [sched_init net_log tasks requests_sent total_requests_due List.length]
    in D.
  rewrite (returned_none_due _ R) in D. lia.
Qed.

End Facts.

End SchedExtras.

(* ===================================================================== *)
(** * Runs of the further facts on the concrete sites                     *)
(* ===================================================================== *)

Module ExtraRuns.
Import Py Spec.
Local Open Scope Z_scope.

Example grid_links :
  AnkerGames.get_game_links_loop Examples.grid_hrefs []
  = ["https://ankergames.net/game/alpha"; "https://ankergames.net/game/beta"].
Proof. vm_compute. reflexivity. Qed.

Example torrent_links :
  RepackGames.extract_download_links Examples.torrent_soup
  = ["magnet:second"].
Proof. vm_compute. reflexivity. Qed.

(** X2, a run of the theorem: three months before the end of March
    2024. *)
Lemma subtract_months_defined_witness :
  valid_datetime Examples.end_of_march = true
  /\ ((12 <= month_index Examples.end_of_march - 3 < 9999 * 12 + 11 ->
       exists dt',
         AnkerGames.subtract_months Examples.end_of_march 3 = Ok dt'
         /\ month_index dt' = month_index Examples.end_of_march - 3
         /\ valid_datetime dt' = true)
      /\ (-25769803777 <= month_index Examples.end_of_march - 3 < 12
          \/ 9999 * 12 + 11 <= month_index Examples.end_of_march - 3
             < 25769803775 ->
          AnkerGames.subtract_months Examples.end_of_march 3
          = Raise ValueError)
      /\ (month_index Examples.end_of_march - 3 < -25769803777
          \/ 25769803775 <= month_index Examples.end_of_march - 3 ->
          AnkerGames.subtract_months Examples.end_of_march 3
          = Raise OverflowError)).
Proof.
  split; [reflexivity |].
  apply (AnkerExtras.subtract_months_defined Examples.end_of_march 3).
  reflexivity.
Defined.

(** X3, a run of the theorem on the end of March 2024. *)
Lemma subtract_zero_months_witness :
  (valid_datetime Examples.end_of_march = true
   /\ (year Examples.end_of_march < 9999 \/ month Examples.end_of_march < 12))
  /\ AnkerGames.subtract_months Examples.end_of_march 0
     = Ok Examples.end_of_march.
Proof.
  assert (valid_datetime Examples.end_of_march = true) as V by reflexivity.
  assert (year Examples.end_of_march < 9999
          \/ month Examples.end_of_march < 12) as L
    by (left; vm_compute; reflexivity).
  split; [split; assumption |].
  exact (AnkerExtras.subtract_zero_months Examples.end_of_march V L).
Defined.

(** X4, a run of the theorem: one month and one month more from 31 March
    2024 end on 29 January, two months at once on 31 January. *)
Lemma subtract_months_in_two_steps_witness :
  (valid_datetime Examples.end_of_march = true
   /\ AnkerGames.subtract_months Examples.end_of_march 1
      = Ok (mk_datetime 2024 2 29 8 30 15 250000 (Some utc))
   /\ AnkerGames.subtract_months
        (mk_datetime 2024 2 29 8 30 15 250000 (Some utc)) 1
      = Ok (mk_datetime 2024 1 29 8 30 15 250000 (Some utc))
   /\ AnkerGames.subtract_months Examples.end_of_march (1 + 1)
      = Ok (mk_datetime 2024 1 31 8 30 15 250000 (Some utc)))
  /\ (year (mk_datetime 2024 1 29 8 30 15 250000 (Some utc))
      = year (mk_datetime 2024 1 31 8 30 15 250000 (Some utc))
      /\ month (mk_datetime 2024 1 29 8 30 15 250000 (Some utc))
         = month (mk_datetime 2024 1 31 8 30 15 250000 (Some utc))
      /\ day (mk_datetime 2024 1 29 8 30 15 250000 (Some utc))
         <= day (mk_datetime 2024 1 31 8 30 15 250000 (Some utc))
      /\ day (mk_datetime 2024 1 29 8 30 15 250000 (Some utc))
         = Z.min (day (mk_datetime 2024 2 29 8 30 15 250000 (Some utc)))
                 (day (mk_datetime 2024 1 31 8 30 15 250000 (Some utc)))
      /\ hour (mk_datetime 2024 1 29 8 30 15 250000 (Some utc))
         = hour (mk_datetime 2024 1 31 8 30 15 250000 (Some utc))
      /\ minute (mk_datetime 2024 1 29 8 30 15 250000 (Some utc))
         = minute (mk_datetime 2024 1 31 8 30 15 250000 (Some utc))
      /\ second (mk_datetime 2024 1 29 8 30 15 250000 (Some utc))
         = second (mk_datetime 2024 1 31 8 30 15 250000 (Some utc))
      /\ microsecond (mk_datetime 2024 1 29 8 30 15 250000 (Some utc))
         = microsecond (mk_datetime 2024 1 31 8 30 15 250000 (Some utc))
      /\ tzinfo (mk_datetime 2024 1 29 8 30 15 250000 (Some utc))
         = tzinfo (mk_datetime 2024 1 31 8 30 15 250000 (Some utc))).
Proof.
  assert (valid_datetime Examples.end_of_march = true) as V by reflexivity.
  assert (AnkerGames.subtract_months Examples.end_of_march 1
          = Ok (mk_datetime 2024 2 29 8 30 15 250000 (Some utc))) as E1
    by (vm_compute; reflexivity).
  assert (AnkerGames.subtract_months
            (mk_datetime 2024 2 29 8 30 15 250000 (Some utc)) 1
          = Ok (mk_datetime 2024 1 29 8 30 15 250000 (Some utc))) as E2
    by (vm_compute; reflexivity).
  assert (AnkerGames.subtract_months Examples.end_of_march (1 + 1)
          = Ok (mk_datetime 2024 1 31 8 30 15 250000 (Some utc))) as E3
    by (vm_compute; reflexivity).
  split; [auto |].
  exact (AnkerExtras.subtract_months_in_two_steps _ _ _ _ 1 1 V E1 E2 E3).
Defined.

(** X6, a run of the theorem on the page updated six months ago. *)
Lemma download_uri_is_clean_witness :
  AnkerGames.scrape_game Examples.full_page "https://ankergames.net/game/full"
  = Ok Examples.full_item
  /\ ((AnkerGames.uris Examples.full_item = []
       \/ exists u, AnkerGames.uris Examples.full_item = [u] /\ u <> ""
                    /\ str_forall (fun c => negb (is_space c)) u = true)
      /\ (AnkerGames.uris Examples.full_item = [] <->
          match AnkerGames.download_now_href Examples.full_page with
          | None => True
          | Some href => str_forall is_space href = true
          end)).
Proof.
  assert (AnkerGames.scrape_game Examples.full_page
            "https://ankergames.net/game/full" = Ok Examples.full_item) as E
    by (vm_compute; reflexivity).
  split; [exact E |].
  exact (AnkerExtras.download_uri_is_clean _ _ _ E).
Defined.

(** X7, a run of the theorem: the listing has two links, the limit is 2,
    and the first page cannot be scraped. *)
Lemma main_respects_limit_witness :
  AnkerGames.main Examples.stale_site (Some 2)
  = Ok [AnkerGames.mk_DownloadItem "Bare Game" [] "" ""
                                   Examples.bare_game_url]
  /\ exists links,
       AnkerGames.get_game_links Examples.stale_site = Ok links
       /\ map AnkerGames.repackLinkSource
              [AnkerGames.mk_DownloadItem "Bare Game" [] "" ""
                                          Examples.bare_game_url]
          = filter (scrapes Examples.stale_site)
                   (match Some 2 with
                    | Some l => AnkerGames.slice_to l links
                    | None => links
                    end)
       /\ (List.length [AnkerGames.mk_DownloadItem "Bare Game" [] "" ""
                                                   Examples.bare_game_url]
           <= List.length links)%nat
       /\ (forall l, Some 2 = Some l -> 0 <= l ->
             (List.length [AnkerGames.mk_DownloadItem "Bare Game" [] "" ""
                                                      Examples.bare_game_url]
              <= Z.to_nat l)%nat)
       /\ (forall l, Some 2 = Some l -> l < 0 ->
             (List.length [AnkerGames.mk_DownloadItem "Bare Game" [] "" ""
                                                      Examples.bare_game_url]
              <= List.length links - Z.to_nat (- l))%nat).
Proof.
  assert (AnkerGames.main Examples.stale_site (Some 2)
          = Ok [AnkerGames.mk_DownloadItem "Bare Game" [] "" ""
                                           Examples.bare_game_url]) as E
    by (vm_compute; reflexivity).
  split; [exact E |].
  exact (AnkerExtras.main_respects_limit _ _ _ E).
Defined.


(** X9, a run of the theorem: the end of March 2024 with and without its
    quarter of a second and its time zone. *)
Lemma to_iso_utc_tells_the_second_witness :
  (valid_datetime Examples.end_of_march = true
   /\ valid_datetime (mk_datetime 2024 3 31 8 30 15 0 None) = true
   /\ (tzinfo Examples.end_of_march = None
       \/ tzinfo Examples.end_of_march = Some utc)
   /\ (tzinfo (mk_datetime 2024 3 31 8 30 15 0 None) = None
       \/ tzinfo (mk_datetime 2024 3 31 8 30 15 0 None) = Some utc))
  /\ (exists text, AnkerGames.to_iso_utc Examples.end_of_march = Ok text)
  /\ (AnkerGames.to_iso_utc Examples.end_of_march
      = AnkerGames.to_iso_utc (mk_datetime 2024 3 31 8 30 15 0 None) <->
      year Examples.end_of_march = year (mk_datetime 2024 3 31 8 30 15 0 None)
      /\ month Examples.end_of_march
         = month (mk_datetime 2024 3 31 8 30 15 0 None)
      /\ day Examples.end_of_march = day (mk_datetime 2024 3 31 8 30 15 0 None)
      /\ hour Examples.end_of_march
         = hour (mk_datetime 2024 3 31 8 30 15 0 None)
      /\ minute Examples.end_of_march
         = minute (mk_datetime 2024 3 31 8 30 15 0 None)
      /\ second Examples.end_of_march
         = second (mk_datetime 2024 3 31 8 30 15 0 None)).
Proof.
  assert (valid_datetime Examples.end_of_march = true) as V1 by reflexivity.
  assert (valid_datetime (mk_datetime 2024 3 31 8 30 15 0 None) = true) as V2
    by reflexivity.
  assert (tzinfo Examples.end_of_march = None
          \/ tzinfo Examples.end_of_march = Some utc) as T1
    by (right; reflexivity).
  assert (tzinfo (mk_datetime 2024 3 31 8 30 15 0 None) = None
          \/ tzinfo (mk_datetime 2024 3 31 8 30 15 0 None) = Some utc) as T2
    by (left; reflexivity).
  split; [auto |].
  exact (AnkerExtras.to_iso_utc_tells_the_second _ _ V1 V2 T1 T2).
Defined.

(** X11, a run of the theorem on 18 April of the year 24. *)
Lemma adjust_year_moves_short_years_witness :
  valid_datetime Examples.short_year_date = true
  /\ exists d',
       RepackGames.adjust_year Examples.short_year_date = Ok d'
       /\ year d' = (if year Examples.short_year_date <? 50
                     then year Examples.short_year_date + 2000
                     else if year Examples.short_year_date <? 100
                     then year Examples.short_year_date + 1900
                     else year Examples.short_year_date)
       /\ 100 <= year d'
       /\ month d' = month Examples.short_year_date
       /\ day d' = day Examples.short_year_date
       /\ hour d' = hour Examples.short_year_date
       /\ minute d' = minute Examples.short_year_date
       /\ second d' = second Examples.short_year_date
       /\ microsecond d' = microsecond Examples.short_year_date
       /\ tzinfo d' = tzinfo Examples.short_year_date
       /\ valid_datetime d' = true.
Proof.
  assert (valid_datetime Examples.short_year_date = true) as V by reflexivity.
  split; [exact V |].
  exact (RepackExtras.adjust_year_moves_short_years _ V).
Defined.

(** X13, a run of the theorem on the page with three torrent buttons. *)
Lemma torrent_buttons_alternate_witness :
  (forall b, In b (RepackGames.download_buttons Examples.torrent_soup) ->
             str_contains "TORRENT" (RepackGames.context_text b) = true)
  /\ RepackGames.extract_download_links Examples.torrent_soup
     = fold_left (fun acc b => RepackGames.append_href b acc)
                 (every_second
                    (RepackGames.download_buttons Examples.torrent_soup)) [].
Proof.
  assert (forall b,
            In b (RepackGames.download_buttons Examples.torrent_soup) ->
            str_contains "TORRENT" (RepackGames.context_text b) = true) as F.
  { intros b [<- | [<- | [<- | []]]]; reflexivity. }
  split; [exact F |].
  exact (RepackExtras.torrent_buttons_alternate Examples.torrent_soup F).
Defined.

(** X18, a run of the theorem on the site whose Action listing answers
    with an empty body. *)
Lemma blank_page_is_a_failed_page_witness :
  @always_blank Examples.blank_world Examples.action_url
  /\ ((forall s,
         @RepackGames.parse_game_info Examples.blank_world
           Examples.action_url s
         = (Ok None,
            RepackGames.mk_state
              (RepackGames.log s
               ++ [RepackGames.EAcquire; RepackGames.ESleep 10;
                   RepackGames.EGet Examples.action_url 12000;
                   RepackGames.ERelease])
              (RepackGames.games_data s) (RepackGames.total_games_parsed s)))
      /\ (forall name category_url page s,
            RepackGames.page_url category_url page = Examples.action_url ->
            @RepackGames.parse_category_page_and_games Examples.blank_world
              name category_url page s
            = (Ok [],
               RepackGames.mk_state
                 (RepackGames.log s
                  ++ [RepackGames.EAcquire; RepackGames.ESleep 10;
                      RepackGames.EGet Examples.action_url 12000;
                      RepackGames.ERelease])
                 (RepackGames.games_data s)
                 (RepackGames.total_games_parsed s)))
      /\ (forall name s,
            @RepackGames.parse_category_with_pagination Examples.blank_world
              name Examples.action_url s
            = (Ok [],
               RepackGames.mk_state
                 (RepackGames.log s
                  ++ [RepackGames.EProgress ("Processing category: " ++ name);
                      RepackGames.EAcquire; RepackGames.ESleep 10;
                      RepackGames.EGet Examples.action_url 12000;
                      RepackGames.ERelease;
                      RepackGames.EProgress
                        ("[red]Failed category: " ++ name ++ "[/red]")])
                 (RepackGames.games_data s)
                 (RepackGames.total_games_parsed s)))).
Proof.
  assert (@always_blank Examples.blank_world Examples.action_url) as B
    by (intros l; reflexivity).
  split; [exact B |].
  exact (@RepackExtras.blank_page_is_a_failed_page Examples.blank_world
           Examples.action_url B).
Defined.

(** X19, a run of the theorem: the document of the Anime listing makes
    the HTML parser raise. *)
Lemma unreadable_leaf_is_dropped_witness :
  (@RepackGames.get_page_content Examples.faulty_world Examples.anime_url
     RepackGames.initial_state
   = (Ok (Some "broken listing"),
      RepackGames.mk_state
        [RepackGames.EAcquire; RepackGames.ESleep 10;
         RepackGames.EGet Examples.anime_url 12000; RepackGames.ERelease]
        [] 0)
   /\ str_truthy "broken listing" = true)
  /\ ((forall e,
         @RepackGames.BeautifulSoup Examples.faulty_world "broken listing"
         = Raise e ->
         @RepackGames.parse_game_info Examples.faulty_world
           Examples.anime_url RepackGames.initial_state
         = (Ok None,
            RepackGames.mk_state
              ([RepackGames.EAcquire; RepackGames.ESleep 10;
                RepackGames.EGet Examples.anime_url 12000;
                RepackGames.ERelease]
               ++ [RepackGames.EGameError Examples.anime_url e]) [] 0))
      /\ (forall soup e,
            @RepackGames.BeautifulSoup Examples.faulty_world "broken listing"
            = Ok soup ->
            @RepackGames.parse_date_info Examples.faulty_world soup
              (@RepackGames.datetime_now Examples.faulty_world
                 [RepackGames.EAcquire; RepackGames.ESleep 10;
                  RepackGames.EGet Examples.anime_url 12000;
                  RepackGames.ERelease]) = Raise e ->
            @RepackGames.parse_game_info Examples.faulty_world
              Examples.anime_url RepackGames.initial_state
            = (Ok None,
               RepackGames.mk_state
                 ([RepackGames.EAcquire; RepackGames.ESleep 10;
                   RepackGames.EGet Examples.anime_url 12000;
                   RepackGames.ERelease]
                  ++ [RepackGames.EGameError Examples.anime_url e]) [] 0))
      /\ (forall soup d,
            @RepackGames.BeautifulSoup Examples.faulty_world "broken listing"
            = Ok soup ->
            @RepackGames.parse_date_info Examples.faulty_world soup
              (@RepackGames.datetime_now Examples.faulty_world
                 [RepackGames.EAcquire; RepackGames.ESleep 10;
                  RepackGames.EGet Examples.anime_url 12000;
                  RepackGames.ERelease]) = Ok d ->
            RepackGames.extract_download_links soup = [] ->
            @RepackGames.parse_game_info Examples.faulty_world
              Examples.anime_url RepackGames.initial_state
            = (Ok None,
               RepackGames.mk_state
                 [RepackGames.EAcquire; RepackGames.ESleep 10;
                  RepackGames.EGet Examples.anime_url 12000;
                  RepackGames.ERelease] [] 0))).
Proof.
  assert (@RepackGames.get_page_content Examples.faulty_world
            Examples.anime_url RepackGames.initial_state
          = (Ok (Some "broken listing"),
             RepackGames.mk_state
               [RepackGames.EAcquire; RepackGames.ESleep 10;
                RepackGames.EGet Examples.anime_url 12000;
                RepackGames.ERelease] [] 0)) as G
    by (vm_compute; reflexivity).
  assert (str_truthy "broken listing" = true) as T by reflexivity.
  split; [split; assumption |].
  exact (@RepackExtras.unreadable_leaf_is_dropped Examples.faulty_world
           _ _ _ _ G T).
Defined.


(** X21, a run of the theorem on the category whose first listing reads
    "Page 1 of 3". *)
Lemma marker_sets_the_pages_witness :
  (@first_listing Examples.paged_world "Action" Examples.action_url
      RepackGames.initial_state
    = (Ok (Some "listing, page 1 of 3"),
       snd (@first_listing Examples.paged_world "Action"
              Examples.action_url RepackGames.initial_state))
   /\ str_truthy "listing, page 1 of 3" = true
   /\ @RepackGames.BeautifulSoup Examples.paged_world "listing, page 1 of 3"
      = Ok (Examples.listing_soup (Some "Page 1 of 3"))
   /\ @RepackGames.get_total_pages_from_pagination Examples.paged_world
        (Examples.listing_soup (Some "Page 1 of 3")) = Ok (Some 3))
  /\ exists gs s',
       @RepackGames.parse_category_with_pagination Examples.paged_world
         "Action" Examples.action_url RepackGames.initial_state = (Ok gs, s')
       /\ In (RepackGames.EProgress
                (RepackGames.progress_description "Action" 0
                   (if 3 =? 0 then 999 else 3))) (RepackGames.log s')
       /\ (forall p, 2 <= p <= (if 3 =? 0 then 999 else 3) ->
             In (RepackGames.EGet (RepackGames.page_url Examples.action_url p)
                                  12000) (RepackGames.log s')).
Proof.
  assert (@first_listing Examples.paged_world "Action" Examples.action_url
            RepackGames.initial_state
          = (Ok (Some "listing, page 1 of 3"),
             snd (@first_listing Examples.paged_world "Action"
                    Examples.action_url RepackGames.initial_state))) as H1
    by (vm_compute; reflexivity).
  assert (str_truthy "listing, page 1 of 3" = true) as H2 by reflexivity.
  assert (@RepackGames.BeautifulSoup Examples.paged_world
            "listing, page 1 of 3"
          = Ok (Examples.listing_soup (Some "Page 1 of 3"))) as H3
    by reflexivity.
  assert (@RepackGames.get_total_pages_from_pagination Examples.paged_world
            (Examples.listing_soup (Some "Page 1 of 3")) = Ok (Some 3)) as H4
    by (vm_compute; reflexivity).
  split; [auto |].
  exact (@RepackExtras.marker_sets_the_pages Examples.paged_world
           "Action" Examples.action_url RepackGames.initial_state
           "listing, page 1 of 3" (Examples.listing_soup (Some "Page 1 of 3"))
           3 _ H1 H2 H3 H4).
Defined.

(** X22, a run of the theorem: of two fetches started on the default
    parser the first holds a slot and the second still waits. *)
Lemma some_fetch_can_move_witness :
  (1 <= RepackGames.max_concurrent (RepackGames.new_parser None)
   /\ exists t,
        In t (RepackGames.tasks
                (@RepackGames.run_schedule Examples.shared_leaf_world
                   Examples.two_fetches
                   (RepackGames.sched_init (RepackGames.new_parser None))))
        /\ returned t = false)
  /\ exists i t,
       nth_error
         (RepackGames.tasks
            (@RepackGames.run_schedule Examples.shared_leaf_world
               Examples.two_fetches
               (RepackGames.sched_init (RepackGames.new_parser None)))) i
       = Some t
       /\ returned t = false
       /\ exists t',
            nth_error
              (RepackGames.tasks
                 (@RepackGames.sched_step Examples.shared_leaf_world
                    (@RepackGames.run_schedule Examples.shared_leaf_world
                       Examples.two_fetches
                       (RepackGames.sched_init (RepackGames.new_parser None)))
                    (RepackGames.Resume i))) i = Some t'
            /\ RepackGames.task_pc t' <> RepackGames.task_pc t.
Proof.
  assert (1 <= RepackGames.max_concurrent (RepackGames.new_parser None)) as M
    by (vm_compute; discriminate).
  assert (exists t,
            In t (RepackGames.tasks
                    (@RepackGames.run_schedule Examples.shared_leaf_world
                       Examples.two_fetches
                       (RepackGames.sched_init (RepackGames.new_parser None))))
            /\ returned t = false) as U.
  { exists (RepackGames.mk_task Examples.anime_url RepackGames.Waiting).
    split; [right; left; reflexivity | reflexivity]. }
  split; [split; assumption |].
  exact (@SchedExtras.some_fetch_can_move Examples.shared_leaf_world
           (RepackGames.new_parser None) Examples.two_fetches M U).
Defined.

End ExtraRuns.
